(** * Quest badge compositor and icon catalog: a shallow embedding

    This development embeds the two modules [badge_generator.py] and
    [icon_provider.py] of the quest bot and proves properties of
    [generate_quest_badge] and [get_icon_by_category]. Around them it
    embeds the quest list, the selection keyboards and the quest keyword of
    [quest_utils.py], the queries of [db_utils.py], [badge_utils.py], and of
    [zo_quest_bot.py] the group ids, the keyword search, the callback data
    and the leaderboard.

    Conventions.
    - A Python [str] is a list of Unicode code points ([pystr]).
    - Library calls (Pillow, [textwrap], [hash], [int], the file system, the
      storage client) are fields of an environment record [Env]; each call
      that can raise returns an [Exc].
    - Pillow returns text lengths as floats; pixel arithmetic is carried out
      exactly over [Q].
    - Image objects live in a heap indexed by references, so that aliasing
      between the caller's icon, the icon cache and the images a call creates
      is explicit.
    - A query of the database is a field of a client record; a query that
      fails returns [Raise]. A Python dict whose order of keys is read is an
      association list. *)

From Stdlib Require Import ZArith QArith Qround Lia List Sorted Decimal Ascii String.
From Stdlib Require DecimalZ.
From stdpp Require Import gmap list strings.

Open Scope Z_scope.

(** ** Python values and builtins *)

Module Py.

Abbreviation char := N (only parsing).
Abbreviation pystr := (list N) (only parsing).

(** String literals: one code point per character of the literal. *)
Fixpoint u (s : string) : pystr :=
  match s with
  | EmptyString => []
  | String a s' => N_of_ascii a :: u s'
  end.
Arguments u : simpl never.

(** The subclasses of [Exception] that the embedded code can meet.
    [IOError] stands for [OSError] and everything below it. *)
Inductive exn :=
| IOError
| ValueError
| TypeError
| IndexError
| OtherException (name : string).

Inductive Exc (A : Type) :=
| Ok (a : A)
| Raise (e : exn).
Arguments Ok {A} a.
Arguments Raise {A} e.

Definition ebind {A B} (c : Exc A) (k : A -> Exc B) : Exc B :=
  match c with
  | Ok a => k a
  | Raise e => Raise e
  end.

(** [str.isspace] on one code point: the characters on which [str.split()]
    without arguments separates. *)
Definition isspace (c : char) : bool :=
  let n := Z.of_N c in
  ((9 <=? n) && (n <=? 13)) || ((28 <=? n) && (n <=? 32))
  || (n =? 133) || (n =? 160) || (n =? 5760)
  || ((8192 <=? n) && (n <=? 8202))
  || (n =? 8232) || (n =? 8233) || (n =? 8239) || (n =? 8287) || (n =? 12288).

(** [s.split()]: maximal runs of non-whitespace, in order. [cur] holds the
    current run reversed. *)
Fixpoint split_from (cur : pystr) (s : pystr) : list pystr :=
  match s with
  | [] => match cur with [] => [] | _ => [rev cur] end
  | c :: s' =>
      if isspace c
      then match cur with
           | [] => split_from [] s'
           | _ => rev cur :: split_from [] s'
           end
      else split_from (c :: cur) s'
  end.

Definition split (s : pystr) : list pystr := split_from [] s.

(** [sep.join(words)] *)
Fixpoint join (sep : pystr) (words : list pystr) : pystr :=
  match words with
  | [] => []
  | [w] => w
  | w :: ws => w ++ sep ++ join sep ws
  end.

(** Truthiness of a string. *)
Definition nonempty (s : pystr) : bool :=
  match s with [] => false | _ => true end.

(** [c in s] for a one-character [c]. *)
Definition contains (c : char) (s : pystr) : bool := existsb (N.eqb c) s.

(** Decimal digits of an unsigned decimal numeral. *)
Fixpoint digits (d : Decimal.uint) : pystr :=
  match d with
  | Nil => []
  | D0 d => 48%N :: digits d
  | D1 d => 49%N :: digits d
  | D2 d => 50%N :: digits d
  | D3 d => 51%N :: digits d
  | D4 d => 52%N :: digits d
  | D5 d => 53%N :: digits d
  | D6 d => 54%N :: digits d
  | D7 d => 55%N :: digits d
  | D8 d => 56%N :: digits d
  | D9 d => 57%N :: digits d
  end.

Definition isdigit (c : char) : bool := (48 <=? c)%N && (c <=? 57)%N.

(** [str(n)] for an [int]. *)
Definition str (n : Z) : pystr :=
  match Z.to_int n with
  | Pos d => digits d
  | Neg d => 45%N :: digits d
  end.

(** [format(n, "03d")]: sign first, then zeros up to a total width of at
    least three characters; longer numerals are not shortened. *)
Definition format_03d (n : Z) : pystr :=
  match Z.to_int n with
  | Pos d => replicate (3 - length (digits d)) 48%N ++ digits d
  | Neg d => 45%N :: replicate (2 - length (digits d)) 48%N ++ digits d
  end.

End Py.
Export Py.

Notation "'let!' x := c 'in' k" := (ebind c (fun x => k))
  (at level 10, x name, c at level 100, k at level 200, only parsing).
Notation "'let!' ' p := c 'in' k" := (ebind c (fun x => match x with p => k end))
  (at level 10, p pattern, c at level 100, k at level 200, only parsing).

(** ** Pillow objects, the object heap and the environment *)

Module Pillow.

(** A loaded [FreeTypeFont]: the file it was read from and its size. *)
Record font := { font_path : pystr; font_size : Z }.

Inductive mode := ModeL | ModeP | ModeRGB | ModeRGBA.

Definition mode_eqb (a b : mode) : bool :=
  match a, b with
  | ModeL, ModeL | ModeP, ModeP | ModeRGB, ModeRGB | ModeRGBA, ModeRGBA => true
  | _, _ => false
  end.

(** Pixel contents are kept symbolically, as the sequence of operations that
    produced them: two images with the same history have the same pixels. *)
#[warnings="-register-all"]
Inductive paint :=
| PFile (path : pystr)                         (* decoded from a file *)
| PCard (w h border : Z)                       (* the card of create_premium_badge *)
| PRounded (w h : Q)                           (* a rounded-rectangle layer *)
| PConvert (target : mode)                     (* Image.convert *)
| PThumbnail (box : Z * Z)                     (* Image.thumbnail, LANCZOS *)
| PText (xy : Q * Q) (text : pystr) (f : font) (* ImageDraw.text *)
| PPaste (src : list paint) (xy : Z * Z).      (* Image.paste with the source as mask *)

Record image := { im_mode : mode; im_size : Z * Z; im_data : list paint }.

(** References to image objects, and the store they point into. *)
Abbreviation loc := nat (only parsing).
Abbreviation heap := (list image) (only parsing).

(** Everything the embedded code takes from outside: the interpreter's
    builtins, [textwrap], Pillow's measurements and the failures of its
    calls, the font and icon files, and the storage client. *)
Record Env := {
  (* hash(s) for a str; fixed for the life of one interpreter *)
  hash : pystr -> Z;
  (* int(s) for a str; None is ValueError *)
  int_of_str : pystr -> option Z;
  (* textwrap.wrap(text, width) *)
  textwrap_wrap : pystr -> Z -> list pystr;
  (* ImageFont.truetype(path, size): the error, if the file cannot be loaded *)
  font_fault : pystr -> Z -> option exn;
  (* draw.textlength(text, font) *)
  textlength : font -> pystr -> Exc Q;
  (* font.getbbox(text): left, top, right, bottom *)
  getbbox : font -> pystr -> Exc (Z * Z * Z * Z);
  (* the error, if any, raised by draw.text(xy, text, font) *)
  text_fault : Q * Q -> pystr -> font -> option exn;
  (* the error, if any, raised while the card is composed *)
  card_fault : Z -> Z -> Z -> option exn;
  (* the error, if any, raised while the pill layers are composed *)
  button_fault : Q -> pystr -> option exn;
  (* the error, if any, raised by paste(src, xy, src) *)
  paste_fault : image -> Z * Z -> option exn;
  (* the error, if any, raised by im.convert(mode) *)
  convert_fault : image -> mode -> option exn;
  (* im.thumbnail(box): the new size, or an error *)
  thumbnail_size : image -> Z * Z -> Exc (Z * Z);
  (* the error, if any, raised by im.save(buffer, "PNG") *)
  save_fault : image -> option exn;
  (* os.path.exists(path) *)
  path_exists : pystr -> bool;
  (* Image.open(path), the decoded mode and size, or an error *)
  image_open : pystr -> Exc (mode * (Z * Z));
  (* the storage client, if set: the error, if any, of the upsert *)
  supabase_client : option (pystr -> image -> option exn)
}.

(** Computations on the heap that may raise. The heap is kept when an
    exception is raised: objects mutated before the error stay mutated. *)
Definition M (A : Type) := heap -> Exc A * heap.

Definition ret {A} (a : A) : M A := fun h => (Ok a, h).

Definition raise {A} (e : exn) : M A := fun h => (Raise e, h).

Definition bind {A B} (c : M A) (k : A -> M B) : M B :=
  fun h => match c h with
           | (Ok a, h') => k a h'
           | (Raise e, h') => (Raise e, h')
           end.

(** An [Exc] computed without touching the heap. *)
Definition lift {A} (c : Exc A) : M A := fun h => (c, h).

(** [fault]: raise the error an oracle reports, if any. *)
Definition check (f : option exn) : M unit :=
  fun h => match f with
           | Some e => (Raise e, h)
           | None => (Ok tt, h)
           end.

(** [try: c  except Exception as e: handler e] *)
Definition try_except {A} (c : M A) (handler : exn -> M A) : M A :=
  fun h => match c h with
           | (Ok a, h') => (Ok a, h')
           | (Raise e, h') => handler e h'
           end.

(** [try: c  except IOError: handler]; other exceptions pass through. *)
Definition try_except_IOError {A} (c : M A) (handler : M A) : M A :=
  fun h => match c h with
           | (Raise IOError, h') => handler h'
           | r => r
           end.

(** A new object. *)
Definition alloc (im : image) : M loc := fun h => (Ok (length h), h ++ [im]).

(** Reading through a reference. *)
Definition deref (l : loc) : M image :=
  fun h => match h !! l with
           | Some im => (Ok im, h)
           | None => (Raise (OtherException "dangling reference"), h)
           end.

(** In-place update of the object behind a reference. *)
Definition update (l : loc) (f : image -> image) : M unit :=
  fun h => match h !! l with
           | Some im => (Ok tt, <[l := f im]> h)
           | None => (Raise (OtherException "dangling reference"), h)
           end.

Definition add_paint (p : paint) (im : image) : image :=
  {| im_mode := im_mode im; im_size := im_size im; im_data := im_data im ++ [p] |}.

Notation "'let*' x := c 'in' k" := (bind c (fun x => k))
  (at level 10, x name, c at level 100, k at level 200, only parsing).
Notation "'let*' ' p := c 'in' k" := (bind c (fun x => match x with p => k end))
  (at level 10, p pattern, c at level 100, k at level 200, only parsing).
Notation "c ;; k" := (bind c (fun _ => k))
  (at level 100, k at level 200, right associativity, only parsing).

Section Operations.

Context (env : Env).

Definition ImageFont_truetype (path : pystr) (size : Z) : M font :=
  check (font_fault env path size) ;;
  ret {| font_path := path; font_size := size |}.

(** [draw.text(xy, text, font=f)] on the image behind [badge] *)
Definition draw_text (badge : loc) (xy : Q * Q) (text : pystr) (f : font) : M unit :=
  check (text_fault env xy text f) ;;
  update badge (add_paint (PText xy text f)).

(** [badge.paste(src, xy, src)] *)
Definition paste (badge : loc) (src : image) (xy : Z * Z) : M unit :=
  check (paste_fault env src xy) ;;
  update badge (add_paint (PPaste (im_data src) xy)).

(** [im.convert(m)]: a new image; the receiver is only read. *)
Definition convert (l : loc) (m : mode) : M loc :=
  let* im := deref l in
  check (convert_fault env im m) ;;
  alloc {| im_mode := m; im_size := im_size im; im_data := im_data im ++ [PConvert m] |}.

(** [im.copy()]: a new image with the same contents. *)
Definition copy (l : loc) : M loc :=
  let* im := deref l in
  alloc im.

(** [im.thumbnail(box, LANCZOS)]: resizes the receiver in place. *)
Definition thumbnail (l : loc) (box : Z * Z) : M unit :=
  let* im := deref l in
  let* size := lift (thumbnail_size env im box) in
  update l (fun im => {| im_mode := im_mode im; im_size := size;
                         im_data := im_data im ++ [PThumbnail box] |}).

(** [Image.open(path)]: a new image object for the file. *)
Definition Image_open (path : pystr) : M loc :=
  let* '(m, size) := lift (image_open env path) in
  alloc {| im_mode := m; im_size := size; im_data := [PFile path] |}.

End Operations.

End Pillow.
Export Pillow.


(** ** badge_generator.py *)

Module BadgeGenerator.

(** [quest_id] is a [str] by its annotation and an [int] at the call sites
    that pass a database key. *)
Inductive quest_id_t :=
| QInt (n : Z)
| QStr (s : pystr).

Record fonts := {
  title_font : font;
  logo_font : font;
  header_font : font;
  body_font : font;
  small_font : font;
  points_font : font
}.

Definition width : Z := 800.
Definition height : Z := 500.
Definition border_width : Z := 12.

(** [a > b] on floats *)
Definition Qgtb (a b : Q) : bool := negb (Qle_bool a b).

(** [int(x)] for a float: rounding towards zero *)
Definition int_of_float (x : Q) : Z :=
  if Qle_bool 0 x then Qfloor x else Qceiling x.

(** [bool(quest_id)] *)
Definition truthy (quest_id : quest_id_t) : bool :=
  match quest_id with
  | QInt n => negb (n =? 0)
  | QStr s => nonempty s
  end.

(** [str(quest_id)] *)
Definition str_of_quest_id (quest_id : quest_id_t) : pystr :=
  match quest_id with
  | QInt n => str n
  | QStr s => s
  end.

(** [(bbox[3] - bbox[1]) * 0.75] *)
Definition ascent (bbox : Z * Z * Z * Z) : Q :=
  let '(_, top, _, bottom) := bbox in
  inject_Z (bottom - top) * (3 # 4).

(** Line 269: [f"Quest ID: {display_id:03d}"] *)
Definition quest_id_tag (display_id : Z) : pystr :=
  u "Quest ID: " ++ format_03d display_id.

Section WithEnv.

Context (env : Env).

(** Lines 234-246: the number shown in the quest-id tag. The inner
    [try: int(quest_id) except ValueError] is the match on [int_of_str]. *)
Definition display_id (quest_id : quest_id_t) : Z :=
  match quest_id with
  | QStr s =>
      if contains 45%N s
      then hash env s mod 1000
      else match int_of_str env s with
           | Some n => n
           | None => hash env s mod 1000
           end
  | QInt n => n
  end.

(** The text of the tag that a call with [quest_id] draws. *)
Definition id_text (quest_id : quest_id_t) : pystr :=
  quest_id_tag (display_id quest_id).

(** [create_premium_badge]: the shadow, mask, border and highlight layers are
    temporaries of the call; what leaves it is one new RGBA image of size
    [(width+20, height+20)] holding the finished card. *)
Definition create_premium_badge (width height border_width : Z) : M loc :=
  check (card_fault env width height border_width) ;;
  alloc {| im_mode := ModeRGBA;
           im_size := (width + 20, height + 20);
           im_data := [PCard width height border_width] |}.

(** Lines 254-260 *)
Definition load_fonts : M fonts :=
  let* title_font := ImageFont_truetype env (u "fonts/Montserrat-Bold.ttf") 50 in
  let* logo_font := ImageFont_truetype env (u "fonts/Montserrat-ExtraBold.ttf") 65 in
  let* header_font := ImageFont_truetype env (u "fonts/Montserrat-Bold.ttf") 32 in
  let* body_font := ImageFont_truetype env (u "fonts/Montserrat-Medium.ttf") 26 in
  let* small_font := ImageFont_truetype env (u "fonts/Montserrat-Medium.ttf") 24 in
  let* points_font := ImageFont_truetype env (u "fonts/Montserrat-Bold.ttf") 80 in
  ret {| title_font := title_font; logo_font := logo_font;
         header_font := header_font; body_font := body_font;
         small_font := small_font; points_font := points_font |}.

(** The six fonts as [load_fonts] returns them when every file loads. *)
Definition loaded_fonts : fonts :=
  {| title_font := {| font_path := u "fonts/Montserrat-Bold.ttf"; font_size := 50 |};
     logo_font := {| font_path := u "fonts/Montserrat-ExtraBold.ttf"; font_size := 65 |};
     header_font := {| font_path := u "fonts/Montserrat-Bold.ttf"; font_size := 32 |};
     body_font := {| font_path := u "fonts/Montserrat-Medium.ttf"; font_size := 26 |};
     small_font := {| font_path := u "fonts/Montserrat-Medium.ttf"; font_size := 24 |};
     points_font := {| font_path := u "fonts/Montserrat-Bold.ttf"; font_size := 80 |} |}.

(** The files and sizes that [load_fonts] asks for, in order. *)
Definition required_fonts : list (pystr * Z) :=
  [(u "fonts/Montserrat-Bold.ttf", 50);
   (u "fonts/Montserrat-ExtraBold.ttf", 65);
   (u "fonts/Montserrat-Bold.ttf", 32);
   (u "fonts/Montserrat-Medium.ttf", 26);
   (u "fonts/Montserrat-Medium.ttf", 24);
   (u "fonts/Montserrat-Bold.ttf", 80)].

(** The drawing loops of lines 300-302 and 322-324: one [draw.text] per line
    at [(x, y)], the cursor advancing by [pitch]; returns the cursor. *)
Fixpoint draw_lines (badge : loc) (x y pitch : Z) (f : font) (lines : list pystr) : M Z :=
  match lines with
  | [] => ret y
  | line :: rest =>
      draw_text env badge (inject_Z x, inject_Z y) line f ;;
      draw_lines badge x (y + pitch) pitch f rest
  end.

(** The drawing loop of lines 383-385, on float coordinates. *)
Fixpoint draw_action_lines (badge : loc) (x y pitch : Q) (f : font) (lines : list pystr) : M Q :=
  match lines with
  | [] => ret y
  | line :: rest =>
      draw_text env badge (x, y) line f ;;
      draw_action_lines badge x (y + pitch)%Q pitch f rest
  end.

(** *** Title, lines 274-309 *)

Definition title_max_width : Z := width - 300.

Definition title_words (title : pystr) : list pystr := take 3 (split title).

(** Lines 287-295: the loop over [words[1:]] and the final append. *)
Fixpoint title_wrap (f : font) (words lines : list pystr) (current_line : pystr)
  : Exc (list pystr) :=
  match words with
  | [] => Ok (lines ++ [current_line])
  | word :: rest =>
      let test_line := current_line ++ u " " ++ word in
      let! w := textlength env f test_line in
      if Qle_bool w (inject_Z title_max_width)
      then title_wrap f rest lines test_line
      else title_wrap f rest (lines ++ [current_line]) word
  end.

(** Lines 283-296: [words[0]], the loop, and [lines[:2]]. *)
Definition title_lines (f : font) (words : list pystr) : Exc (list pystr) :=
  let! current_line := match words with
                       | [] => Raise IndexError
                       | w :: _ => Ok w
                       end in
  let! lines := title_wrap f (tail words) [] current_line in
  Ok (take 2 lines).

(** Lines 276-309: draws the title and returns [desc_y]. *)
Definition draw_title (badge : loc) (f : font) (title : pystr) : M Z :=
  let words := title_words title in
  let title := join (u " ") words in
  let* w := lift (textlength env f title) in
  if Qgtb w (inject_Z title_max_width)
  then
    let* lines := lift (title_lines f words) in
    let* y_pos := draw_lines badge 40 160 (font_size f - 5) f lines in
    ret (y_pos + 40)
  else
    draw_text env badge (40, 160)%Q title f ;;
    ret 230.

(** *** Description, lines 314-324 *)

(** Lines 315-318 *)
Definition truncate_description (description : pystr) : pystr :=
  let desc_words := split description in
  if (10 <? length desc_words)%nat
  then join (u " ") (take 10 desc_words) ++ u "..."
  else description.

(** Lines 321-324: draws the description from [desc_y] and returns the
    advanced [desc_y]. *)
Definition draw_description (badge : loc) (f : font) (description : pystr) (desc_y : Z) : M Z :=
  let description := truncate_description description in
  let wrapped_text := textwrap_wrap env description 28 in
  draw_lines badge 40 desc_y 35 f wrapped_text.

(** *** Points pill geometry, lines 346-353 *)

Record pill := {
  points_text : pystr;
  points_width : Q;
  button_width : Q;
  button_height : Z;
  button_x : Q;
  button_y : Z
}.

Definition points_pill (points_font : font) (points : Z) : Exc pill :=
  let points_text := str points in
  let! points_width := textlength env points_font points_text in
  let button_width := (points_width + 80)%Q in
  let button_height := 70 in
  let button_x := (inject_Z width - button_width - 60)%Q in
  let button_y := height - button_height - 50 in
  Ok {| points_text := points_text; points_width := points_width;
        button_width := button_width; button_height := button_height;
        button_x := button_x; button_y := button_y |}.

(** *** Action value, lines 358-394 *)

(** Lines 365-376: the loop over [action_words]; returns [wrapped_action]
    and [current_line] as they are when the loop ends or breaks. *)
Fixpoint wrap_action_loop (f : font) (max_action_width : Q)
    (action_words wrapped_action : list pystr) (current_line : pystr)
  : Exc (list pystr * pystr) :=
  match action_words with
  | [] => Ok (wrapped_action, current_line)
  | word :: rest =>
      let test_line := if nonempty current_line
                       then current_line ++ u " " ++ word
                       else word in
      let! w := textlength env f test_line in
      if Qle_bool w max_action_width
      then wrap_action_loop f max_action_width rest wrapped_action test_line
      else if nonempty current_line
           then wrap_action_loop f max_action_width rest
                  (wrapped_action ++ [current_line]) word
           else Ok (wrapped_action ++ [take 10 word ++ u "..."], current_line)
  end.

(** Lines 361-379 *)
Definition wrap_action (f : font) (max_action_width : Q) (action : pystr)
  : Exc (list pystr) :=
  let action_words := split action in
  let! '(wrapped_action, current_line) :=
    wrap_action_loop f max_action_width action_words [] [] in
  Ok (if nonempty current_line
      then wrapped_action ++ [current_line]
      else wrapped_action).

(** Line 385: the advance per wrapped action line, [body_font.size * 0.8] *)
Definition action_pitch (f : font) : Q := inject_Z (font_size f) * (4 # 5).

(** Lines 358-394: draws the action value and returns [deadline_y]. *)
Definition draw_action (badge : loc) (f : font) (action : pystr)
    (action_x : Q) (info_y : Z) (action_y_offset max_action_width : Q) : M Q :=
  let* w := lift (textlength env f action) in
  if Qgtb w max_action_width
  then
    let* wrapped_action := lift (wrap_action f max_action_width action) in
    let* action_y :=
      draw_action_lines badge action_x (inject_Z info_y + action_y_offset)%Q
        (action_pitch f) f wrapped_action in
    ret (action_y + 10)%Q
  else
    draw_text env badge (action_x, inject_Z info_y + action_y_offset)%Q action f ;;
    ret (inject_Z info_y + 40)%Q.

(** *** The phases of [generate_quest_badge] *)

(** Lines 265-271: the logo mark and the quest-id tag. *)
Definition draw_header (badge : loc) (fs : fonts) (display_id : Z) : M unit :=
  draw_text env badge (40, 30)%Q (u "\z/") (logo_font fs) ;;
  let id_text := quest_id_tag display_id in
  let* id_width := lift (textlength env (small_font fs) id_text) in
  draw_text env badge (inject_Z width - 40 - id_width, 40)%Q id_text (small_font fs).

(** Lines 331-408: the action and deadline rows, laid out against the pill,
    whose geometry is computed on the way and returned. *)
Definition draw_info (badge : loc) (fs : fonts) (action deadline : pystr)
    (info_y : Z) (points : Z) : M pill :=
  draw_text env badge (40, inject_Z info_y)%Q (u "Action:") (header_font fs) ;;
  let* action_width := lift (textlength env (header_font fs) (u "Action:")) in
  let action_x := (40 + action_width + 25)%Q in
  let* header_bbox := lift (getbbox env (header_font fs) (u "Action:")) in
  let* body_bbox := lift (getbbox env (body_font fs) action) in
  let action_y_offset := ((ascent header_bbox - ascent body_bbox) / 2)%Q in
  let* p := lift (points_pill (points_font fs) points) in
  let max_action_width := (button_x p - action_x - 30)%Q in
  let* deadline_y :=
    draw_action badge (body_font fs) action action_x info_y action_y_offset
      max_action_width in
  draw_text env badge (40, deadline_y)%Q (u "Deadline:") (header_font fs) ;;
  let* deadline_width := lift (textlength env (header_font fs) (u "Deadline:")) in
  let deadline_x := (40 + deadline_width + 25)%Q in
  let* header_bbox := lift (getbbox env (header_font fs) (u "Deadline:")) in
  let* body_bbox := lift (getbbox env (body_font fs) deadline) in
  let deadline_y_offset := ((ascent header_bbox - ascent body_bbox) / 2)%Q in
  draw_text env badge (deadline_x, deadline_y + deadline_y_offset)%Q deadline
    (body_font fs) ;;
  ret p.

(** Lines 410-463: the pill. Its layers are temporaries of the call; the
    badge receives the depth layer and then the labelled button. *)
Definition draw_button (badge : loc) (fs : fonts) (p : pill) : M unit :=
  check (button_fault env (button_width p) (points_text p)) ;;
  let bw := button_width p in
  let bh := button_height p in
  let base_button :=
    {| im_mode := ModeRGBA;
       im_size := (int_of_float (bw + 6), bh + 6);
       im_data := [PRounded (bw + 6) (inject_Z (bh + 6))] |} in
  let text_x := inject_Z (Qfloor ((bw - points_width p) / 2)) in
  let text_y := inject_Z ((bh - font_size (points_font fs)) / 2 - 5) in
  let button :=
    {| im_mode := ModeRGBA;
       im_size := (int_of_float bw, bh);
       im_data := [PRounded bw (inject_Z bh);
                   PText (text_x, text_y) (points_text p) (points_font fs)] |} in
  paste env badge base_button
    (int_of_float (button_x p - 3), button_y p - 3) ;;
  paste env badge button (int_of_float (button_x p), button_y p).

(** Lines 466-487: the icon above the pill. Errors are logged, not raised. *)
Definition place_icon (badge : loc) (p : pill) (icon_image : option loc) : M unit :=
  match icon_image with
  | None => ret tt
  | Some icon_image =>
      try_except
        (let target_icon_size := int_of_float (button_width p * (3 # 2)) in
         let* im := deref icon_image in
         let* icon_image :=
           if negb (mode_eqb (im_mode im) ModeRGBA)
           then convert env icon_image ModeRGBA
           else ret icon_image in
         let* icon_resized := copy icon_image in
         thumbnail env icon_resized (target_icon_size, target_icon_size) ;;
         let icon_center_x :=
           (button_x p + inject_Z (Qfloor (button_width p / 2))
            - inject_Z (target_icon_size / 2))%Q in
         let icon_center_y := button_y p - target_icon_size - 20 in
         let* src := deref icon_resized in
         paste env badge src (int_of_float icon_center_x, icon_center_y))
        (fun _ => ret tt)
  end.

(** Lines 490-524: the upsert into storage. [Some buffer] is the early
    [return img_buffer]; [None] falls through to the finalization. The buffer
    is identified with the image it encodes. *)
Definition store_badge (badge : loc) (quest_id : quest_id_t) : M (option image) :=
  match supabase_client env with
  | Some client =>
      if truthy quest_id
      then
        try_except
          (let* im := deref badge in
           check (save_fault env im) ;;
           check (client (str_of_quest_id quest_id) im) ;;
           ret (Some im))
          (fun _ => ret None)
      else ret None
  | None => ret None
  end.

(** Lines 528-532 *)
Definition finalize (badge : loc) : M image :=
  let* im := deref badge in
  check (save_fault env im) ;;
  ret im.

(** Lines 273-532: everything after the header. *)
Definition render_content (badge : loc) (fs : fonts)
    (title description action deadline : pystr)
    (quest_id : quest_id_t) (points : Z) (icon_image : option loc) : M image :=
  let* desc_y := draw_title badge (title_font fs) title in
  let* desc_y := draw_description badge (body_font fs) description desc_y in
  let info_y := Z.max (desc_y + 40) (height - 180) in
  let* p := draw_info badge fs action deadline info_y points in
  draw_button badge fs p ;;
  place_icon badge p icon_image ;;
  let* stored := store_badge badge quest_id in
  match stored with
  | Some img_buffer => ret img_buffer
  | None => finalize badge
  end.

(** Lines 265-532: everything after the fonts are loaded. *)
Definition render (badge : loc) (fs : fonts) (title description action deadline : pystr)
    (quest_id : quest_id_t) (display_id : Z) (points : Z) (icon_image : option loc)
  : M image :=
  draw_header badge fs display_id ;;
  render_content badge fs title description action deadline quest_id points icon_image.

(** Lines 249-532: the body of the outer [try]. *)
Definition generate_body (title description action deadline : pystr)
    (quest_id : quest_id_t) (display_id : Z) (points : Z) (icon_image : option loc)
  : M (option image) :=
  let* badge := create_premium_badge width height border_width in
  let* loaded :=
    try_except_IOError (let* fs := load_fonts in ret (Some fs)) (ret None) in
  match loaded with
  | None => ret None
  | Some fs =>
      let* img_buffer :=
        render badge fs title description action deadline quest_id display_id
          points icon_image in
      ret (Some img_buffer)
  end.

(** [generate_quest_badge]: [Ok (Some buffer)] is a returned buffer,
    [Ok None] is a returned [None], and [Raise e] would be an exception
    reaching the caller. *)
Definition generate_quest_badge (title description action deadline : pystr)
    (quest_id : quest_id_t) (points : Z) (icon_image : option loc)
  : M (option image) :=
  let display_id := display_id quest_id in
  try_except
    (generate_body title description action deadline quest_id display_id points
       icon_image)
    (fun _ => ret None).

End WithEnv.

End BadgeGenerator.

(** ** icon_provider.py *)

Module IconProvider.

(** The values of [ICON_CATEGORIES]: a description and, for the default
    entry only, the file to use instead of the key. *)
Record category_config := {
  description : pystr;
  filename : option pystr
}.

Definition entry (key desc : string) : pystr * category_config :=
  (u key, {| description := u desc; filename := None |}).

Definition ICON_CATEGORIES : gmap pystr category_config :=
  list_to_map [
    entry "Spiritual" "Spiritual quests";
    entry "Science & tech" "Science & Technology";
    entry "Literature" "Literature & Writing";
    entry "Health & Fitness" "Health & Fitness";
    entry "Follow your Heart" "Follow Your Heart";
    entry "Travel & Adventure" "Travel & Adventure";
    entry "Cinema" "Television & Cinema";
    entry "Storytelling" "Stories & Journals";
    entry "Sports" "Sports";
    entry "Content" "Photography & Content Creation";
    entry "Podcast" "Open Mic & Podcasts";
    entry "Nature & Wildlife" "Nature & Wildlife";
    entry "Music" "Music";
    entry "Law & Order" "Law & Order";
    entry "Lifestyle" "Home & Lifestyle";
    entry "Games" "Games";
    entry "Food" "Food";
    entry "Design" "Design";
    entry "Business" "Business";
    (u "default", {| description := u "Default/General";
                     filename := Some (u "Spiritual") |})
  ].

(** The module state: the global [ICON_CACHE], whose values are references,
    and the object heap those references point into. *)
Record state := {
  ICON_CACHE : gmap pystr loc;
  objects : heap
}.

Definition is_default (category : pystr) : bool :=
  bool_decide (category = u "default").

(** [category in ICON_CATEGORIES] *)
Definition known (category : pystr) : bool :=
  bool_decide (is_Some (ICON_CATEGORIES !! category)).

Section WithEnv.

Context (env : Env).

(** The directory [ICONS_DIR], fixed when the module is imported. *)
Context (ICONS_DIR : pystr).

(** Line 84: [os.path.join(ICONS_DIR, f"{filename_base}.png")] *)
Definition icon_path (filename_base : pystr) : pystr :=
  ICONS_DIR ++ u "/" ++ filename_base ++ u ".png".

(** Lines 82-84: the file that holds the icon of a category. *)
Definition filepath_of (category : pystr) (config : category_config) : pystr :=
  icon_path (default category (filename config)).

(** Line 97: [Image.open(filepath).convert("RGBA")] *)
Definition load_icon (filepath : pystr) : M loc :=
  let* file_image := Image_open env filepath in
  convert env file_image ModeRGBA.

(** The body of [get_icon_by_category], with its recursive calls going to
    [self]. The result is [Ok (Some icon)], [Ok None], or an exception
    reaching the caller. *)
Definition get_icon_by_category_body
    (self : pystr -> state -> Exc (option loc) * state)
    (category : pystr) (st : state) : Exc (option loc) * state :=
  let category := if known category then category else u "default" in
  let cache_key := category in
  match ICON_CACHE st !! cache_key with
  | Some icon => (Ok (Some icon), st)
  | None =>
      match ICON_CATEGORIES !! category with
      | None => (Raise (OtherException "KeyError"), st)
      | Some config =>
          let filepath := filepath_of category config in
          (* the except clause, lines 107-113 *)
          let handler st :=
            if is_default category
            then (Ok None, st)
            else self (u "default") st in
          if negb (path_exists env filepath)
          then
            if is_default category
            then (Ok None, st)
            else match self (u "default") st with
                 | (Raise _, st') => handler st'
                 | r => r
                 end
          else
            match load_icon filepath (objects st) with
            | (Ok icon, h) =>
                (Ok (Some icon),
                 {| ICON_CACHE := <[cache_key := icon]> (ICON_CACHE st);
                    objects := h |})
            | (Raise _, h) =>
                handler {| ICON_CACHE := ICON_CACHE st; objects := h |}
            end
      end
  end.

(** The recursion only ever asks for ["default"], and that call does not
    recurse: two levels of the body are the whole function. *)
Definition get_icon_by_category : pystr -> state -> Exc (option loc) * state :=
  get_icon_by_category_body
    (get_icon_by_category_body
       (fun _ st => (Raise (OtherException "RecursionError"), st))).

End WithEnv.

Definition initial_state : state := {| ICON_CACHE := ∅; objects := [] |}.

End IconProvider.

(** ** Further builtins, as quest_utils.py and zo_quest_bot.py use them *)

Module PyMore.

(** A value that is an [int] at some call sites and a [str] at others. *)
Inductive int_or_str :=
| Int (n : Z)
| Str (s : pystr).

(** [str(x)] *)
Definition str_of (x : int_or_str) : pystr :=
  match x with
  | Int n => str n
  | Str s => s
  end.

(** Comparison of two [str]: code point by code point, a proper prefix
    being smaller. *)
Fixpoint str_compare (s t : pystr) : comparison :=
  match s, t with
  | [], [] => Eq
  | [], _ :: _ => Lt
  | _ :: _, [] => Gt
  | a :: s', b :: t' =>
      match (a ?= b)%N with
      | Eq => str_compare s' t'
      | c => c
      end
  end.

(** [s < t] *)
Definition str_lt (s t : pystr) : bool :=
  match str_compare s t with Lt => true | _ => false end.

(** [s >= t] *)
Definition str_ge (s t : pystr) : bool := negb (str_lt s t).

(** [s.startswith(prefix)] *)
Fixpoint startswith (s prefix : pystr) {struct prefix} : bool :=
  match prefix, s with
  | [], _ => true
  | _ :: _, [] => false
  | p :: prefix', c :: s' => (c =? p)%N && startswith s' prefix'
  end.

(** [s.replace(old, new)] for a non-empty [old]: the occurrences of [old]
    are replaced from left to right, without overlap. [skip] counts the
    characters of the occurrence just matched that are still to be dropped. *)
Fixpoint replace_from (old new : pystr) (skip : nat) (s : pystr) : pystr :=
  match s with
  | [] => []
  | c :: s' =>
      match skip with
      | S k => replace_from old new k s'
      | O =>
          if startswith s old
          then new ++ replace_from old new (length old - 1) s'
          else c :: replace_from old new 0 s'
      end
  end.

Definition replace (old new s : pystr) : pystr := replace_from old new 0 s.

(** [s.lstrip(c)] for a one-character [c] *)
Fixpoint lstrip (c : char) (s : pystr) : pystr :=
  match s with
  | x :: s' => if (x =? c)%N then lstrip c s' else s
  | [] => []
  end.

(** [l[start:stop]]: negative indices count from the end, and both ends are
    clamped to the list. *)
Definition slice {A} (l : list A) (start stop : Z) : list A :=
  let n := Z.of_nat (length l) in
  let clamp i := if i <? 0 then Z.max 0 (i + n) else Z.min i n in
  let lo := clamp start in
  let hi := clamp stop in
  take (Z.to_nat (hi - lo)) (drop (Z.to_nat lo) l).

(** [l.sort(key=key)] and [sorted(l, key=key)]: a stable sort that compares
    keys with [<] only. *)
Section Sort.

Context {A K : Type} (key : A -> K) (lt : K -> K -> bool).

(** [x] goes in front of the first element whose key is not smaller. *)
Fixpoint insert_sorted (x : A) (l : list A) : list A :=
  match l with
  | [] => [x]
  | y :: l' =>
      if lt (key y) (key x)
      then y :: insert_sorted x l'
      else x :: y :: l'
  end.

Definition sort_by (l : list A) : list A := foldr insert_sorted [] l.

End Sort.

(** A list comprehension [[x for x in l if p(x)]] whose condition may raise:
    the elements are tested in order and the first exception ends it. *)
Fixpoint filter_exc {A} (p : A -> Exc bool) (l : list A) : Exc (list A) :=
  match l with
  | [] => Ok []
  | x :: l' =>
      let! b := p x in
      let! rest := filter_exc p l' in
      Ok (if b then x :: rest else rest)
  end.

End PyMore.
Export PyMore.

(** ** quest_utils.py *)

Module QuestUtils.

Import BadgeGenerator.

Definition QUESTS_PER_PAGE : Z := 3.
Definition ITEMS_PER_PAGE : Z := 4.

Definition PARTY_NAMES : list pystr :=
  [u "Zo Trip"; u "FIFA"; u "Poker"; u "Founders Connect"].

(** The category names end in emoji; those are given by their code points. *)
Definition CATEGORY_TYPES : gmap pystr (list pystr) :=
  list_to_map [
    (u "Zo Trip",
     [u "Zo " ++ [127756; 10024]%N ++ u " Zo " ++ [127776]%N
        ++ u " | The Initiate Path";
      u "Daily Check-in " ++ [9989]%N;
      u "Event-Specific " ++ [127917]%N]);
    (u "FIFA",
     [u "FIFA Champion " ++ [127942]%N;
      u "FIFA Achievements " ++ [127918]%N;
      u "First Timer " ++ [127381]%N]);
    (u "Poker",
     [u "Poker Pro " ++ [127183]%N;
      u "Poker Achievements " ++ [127922]%N;
      u "First Timer " ++ [127381]%N]);
    (u "Founders Connect",
     [u "Networking " ++ [129309]%N;
      u "Special Events " ++ [127881]%N;
      u "Activities " ++ [127940; 8205; 9794; 65039]%N])
  ].

Definition POINT_VALUES : list Z := [111; 210; 300; 420; 690; 766].

(** A row of the [quests] table, as [fetch_active_quests] returns it. Of
    its keys the pagination reads ["id"] and ["deadline"]. A deadline is
    absent ([None]), SQL null ([Some None], Python's [None]) or a string. *)
Record quest := {
  quest_id : quest_id_t;
  quest_title : pystr;
  quest_deadline : option (option pystr)
}.

Record pagination_info := {
  current_page : Z;
  total_pages : Z;
  has_prev : bool;
  has_next : bool
}.

Section Paginate.

(** [datetime.now().date().isoformat()] *)
Context (today : pystr).

(** Line 50: [q.get("deadline") != "everyday" and q.get("deadline", "") >= today].
    A null deadline passes the first test and fails the comparison with a
    [TypeError]. *)
Definition is_future (q : quest) : Exc bool :=
  match quest_deadline q with
  | None => Ok (str_ge [] today)
  | Some None => Raise TypeError
  | Some (Some d) =>
      if bool_decide (d = u "everyday") then Ok false else Ok (str_ge d today)
  end.

(** Line 51: [q.get("deadline") == "everyday"] *)
Definition is_everyday (q : quest) : bool :=
  bool_decide (quest_deadline q = Some (Some (u "everyday"))).

(** Line 54: [x.get("deadline", "9999-99-99")]. No quest with a null
    deadline reaches the sort: line 50 has raised on it. *)
Definition deadline_key (q : quest) : pystr :=
  match quest_deadline q with
  | Some (Some d) => d
  | _ => u "9999-99-99"
  end.

(** Lines 50-57 *)
Definition sorted_quests (all_quests : list quest) : Exc (list quest) :=
  let! future_quests := filter_exc is_future all_quests in
  let everyday_quests := List.filter is_everyday all_quests in
  Ok (sort_by deadline_key str_lt future_quests ++ everyday_quests).

(** Lines 77-79: [quest_mapping[i] = quest["id"]] for [i] from [i0] on *)
Fixpoint quest_mapping_from (i0 : Z) (page_quests : list quest)
    (quest_mapping : gmap Z quest_id_t) : gmap Z quest_id_t :=
  match page_quests with
  | [] => quest_mapping
  | q :: rest =>
      quest_mapping_from (i0 + 1) rest (<[i0 := quest_id q]> quest_mapping)
  end.

(** [paginate_quests]; [all_quests] is what [db_utils.fetch_active_quests()]
    returned. *)
Definition paginate_quests (all_quests : list quest) (page : Z) (user_id : Z)
  : Exc (list quest * gmap Z quest_id_t * pagination_info * Z) :=
  let! sorted_quests := sorted_quests all_quests in
  let total_quests := Z.of_nat (length sorted_quests) in
  let total_pages := (total_quests + QUESTS_PER_PAGE - 1) / QUESTS_PER_PAGE in
  let page :=
    if page <? 1 then 1
    else if (page >? total_pages) && (total_pages >? 0) then total_pages
    else page in
  let start_idx := (page - 1) * QUESTS_PER_PAGE in
  let end_idx := Z.min (start_idx + QUESTS_PER_PAGE) total_quests in
  let page_quests :=
    if total_quests >? 0 then slice sorted_quests start_idx end_idx else [] in
  let quest_mapping := quest_mapping_from 1 page_quests ∅ in
  let pagination_info :=
    {| current_page := page;
       total_pages := total_pages;
       has_prev := page >? 1;
       has_next := page <? total_pages |} in
  Ok (page_quests, quest_mapping, pagination_info, total_pages).

End Paginate.

(** [telegram.InlineKeyboardButton] and [InlineKeyboardMarkup] *)
Record InlineKeyboardButton := {
  text : pystr;
  callback_data : pystr
}.

Abbreviation InlineKeyboardMarkup := (list (list InlineKeyboardButton))
  (only parsing).

(** The two arrow labels: a triangle followed by the variation selector. *)
Definition LEFT : pystr := [9664; 65039]%N.
Definition RIGHT : pystr := [9654; 65039]%N.

(** [create_quest_pagination_keyboard] *)
Definition create_quest_pagination_keyboard (pagination_info : pagination_info)
  : option InlineKeyboardMarkup :=
  let nav_row :=
    (if has_prev pagination_info
     then [{| text := LEFT;
              callback_data :=
                u "questpage_" ++ str (current_page pagination_info - 1) |}]
     else [])
    ++
    (if has_next pagination_info
     then [{| text := RIGHT;
              callback_data :=
                u "questpage_" ++ str (current_page pagination_info + 1) |}]
     else []) in
  match nav_row with
  | [] => None
  | _ => Some [nav_row]
  end.

(** Lines 181-188 and 231-238: the navigation row, if it has a button. *)
Definition nav_rows (prefix : pystr) (page total_pages : Z)
  : InlineKeyboardMarkup :=
  let nav_row :=
    (if page >? 1
     then [{| text := LEFT; callback_data := prefix ++ str (page - 1) |}]
     else [])
    ++
    (if page <? total_pages
     then [{| text := RIGHT; callback_data := prefix ++ str (page + 1) |}]
     else []) in
  match nav_row with
  | [] => []
  | _ => [nav_row]
  end.

(** One button per row, [callback_data] being [prefix] and the item. *)
Definition item_rows (prefix : pystr) (items : list pystr)
  : InlineKeyboardMarkup :=
  map (fun item => [{| text := item; callback_data := prefix ++ item |}]) items.

(** [create_paginated_party_keyboard] *)
Definition create_paginated_party_keyboard (page : Z) : InlineKeyboardMarkup :=
  let total_items := Z.of_nat (length PARTY_NAMES) in
  let total_pages := (total_items + ITEMS_PER_PAGE - 1) / ITEMS_PER_PAGE in
  let page :=
    if page <? 1 then 1
    else if page >? total_pages then total_pages
    else page in
  let start_idx := (page - 1) * ITEMS_PER_PAGE in
  let end_idx := Z.min (start_idx + ITEMS_PER_PAGE) total_items in
  let page_parties := slice PARTY_NAMES start_idx end_idx in
  item_rows (u "party_") page_parties
  ++ nav_rows (u "partypage_") page total_pages
  ++ [[{| text := u "Skip"; callback_data := u "party_skip" |}]].

(** Lines 208-243: [create_paginated_category_keyboard] once [categories]
    is looked up. *)
Definition category_keyboard (categories : list pystr) (page : Z)
  : InlineKeyboardMarkup :=
  let total_items := Z.of_nat (length categories) in
  let total_pages := (total_items + ITEMS_PER_PAGE - 1) / ITEMS_PER_PAGE in
  let page :=
    if page <? 1 then 1
    else if (page >? total_pages) && (total_pages >? 0) then total_pages
    else page in
  let start_idx := (page - 1) * ITEMS_PER_PAGE in
  let end_idx := Z.min (start_idx + ITEMS_PER_PAGE) total_items in
  let page_categories :=
    if total_items >? 0 then slice categories start_idx end_idx else [] in
  item_rows (u "category_") page_categories
  ++ nav_rows (u "categorypage_") page total_pages
  ++ [[{| text := u "Skip"; callback_data := u "category_skip" |}]].

(** [create_paginated_category_keyboard] *)
Definition create_paginated_category_keyboard (party_name : pystr) (page : Z)
  : InlineKeyboardMarkup :=
  let categories := default [] (CATEGORY_TYPES !! party_name) in
  category_keyboard categories page.

(** Lines 267-277 of [create_points_keyboard]: the buttons are collected in
    [row], which is flushed when [i % 3 == 0]. *)
Fixpoint points_rows (i : Z) (values : list Z) (row : list InlineKeyboardButton)
  : InlineKeyboardMarkup :=
  match values with
  | [] => match row with [] => [] | _ => [row] end
  | points :: rest =>
      let row :=
        row ++ [{| text := str points;
                   callback_data := u "points_" ++ str points |}] in
      if i mod 3 =? 0
      then row :: points_rows (i + 1) rest []
      else points_rows (i + 1) rest row
  end.

Definition create_points_keyboard : InlineKeyboardMarkup :=
  points_rows 1 POINT_VALUES [].

Section Keyword.

(** [str.lower] *)
Context (lower : pystr -> pystr).

(** Lines 410-412: [title_hash = (title_hash * 31 + ord(char)) % 1000] *)
Definition title_hash (base_keyword : pystr) : Z :=
  fold_left (fun title_hash c => (title_hash * 31 + Z.of_N c) mod 1000)
    base_keyword 0.

(** [create_quest_keyword] *)
Definition create_quest_keyword (title : pystr) : pystr :=
  let base_keyword := replace (u " ") (u "_") (lower title) in
  u "zozozo" ++ format_03d (title_hash base_keyword).

End Keyword.

End QuestUtils.

(** ** zo_quest_bot.py: group ids, submitted keywords and callback data *)

Module Bot.

(** [get_normalized_chat_id] *)
Definition get_normalized_chat_id (chat_id : int_or_str) : list pystr :=
  let chat_id_str := str_of chat_id in
  [ chat_id_str;
    replace (u "-") [] chat_id_str;
    lstrip 45%N chat_id_str;
    u "-" ++ lstrip 45%N chat_id_str ].

(** Lines 415-420 of [new_quest]:
    [any(cf in admin_formats for cf in chat_formats)] *)
Definition is_admin (chat_id ADMIN_GROUP_ID : int_or_str) : bool :=
  let chat_formats := get_normalized_chat_id chat_id in
  let admin_formats := get_normalized_chat_id ADMIN_GROUP_ID in
  existsb (fun cf => bool_decide (cf ∈ admin_formats)) chat_formats.

(** Line 915 of [tripper_info]: the command goes on unless
    [str(chat_id) != ADMIN_GROUP_ID]. *)
Definition tripper_allowed (chat_id : Z) (ADMIN_GROUP_ID : pystr) : bool :=
  bool_decide (str chat_id = ADMIN_GROUP_ID).

(** Lines 1006-1008 of [normalize_group_id], for one prefix *)
Definition strip_prefix (str_id prefix : pystr) : pystr :=
  if startswith str_id prefix then drop (length prefix) str_id else str_id.

(** [normalize_group_id] *)
Definition normalize_group_id (group_id : int_or_str) : pystr :=
  let str_id := str_of group_id in
  let str_id := fold_left strip_prefix [u "chat"; u "supergroup"] str_id in
  if startswith str_id (u "-100") then str_id
  else if startswith str_id (u "-") then
    if negb (startswith str_id (u "-100"))
    then u "-100" ++ drop 1 str_id
    else str_id
  else str_id.

(** Lines 1131-1137 of [handle_submission]: the submission is handled
    unless both comparisons say that the chat is another one. *)
Definition in_public_group (chat_id PUBLIC_GROUP_ID : int_or_str) : bool :=
  let norm_chat_id := normalize_group_id chat_id in
  let norm_public_id := normalize_group_id PUBLIC_GROUP_ID in
  negb (negb (bool_decide (norm_chat_id = norm_public_id))
        && negb (bool_decide (str_of chat_id = str_of PUBLIC_GROUP_ID))).

Section Keyword.

(** [str.lower], and the characters the pattern [\d] matches. *)
Context (lower : pystr -> pystr) (isdecimal : char -> bool).

(** The class [[\s_-]] *)
Definition is_separator (c : char) : bool :=
  isspace c || (c =? 95)%N || (c =? 45)%N.

(** A pattern, matched at the start of a string: the length of the match
    that the backtracking search finds first, if there is one. *)
Definition matcher := pystr -> option nat.

(** [\d+] at the end of a pattern: greedy, at least once *)
Fixpoint decimal_run (s : pystr) : nat :=
  match s with
  | c :: s' => if isdecimal c then S (decimal_run s') else O
  | [] => O
  end.

Definition match_decimals : matcher :=
  fun s => match decimal_run s with O => None | n => Some n end.

(** A literal followed by the rest of the pattern *)
Definition match_literal (lit : pystr) (rest : matcher) : matcher :=
  fun s =>
    if startswith s lit
    then match rest (drop (length lit) s) with
         | Some n => Some (length lit + n)%nat
         | None => None
         end
    else None.

(** [[\s_-]?] followed by the rest of the pattern: the separator is taken
    if that leads to a match, and left out otherwise. *)
Definition match_optional_separator (rest : matcher) : matcher :=
  fun s =>
    match s with
    | c :: s' =>
        if is_separator c
        then match rest s' with
             | Some n => Some (S n)
             | None => rest s
             end
        else rest s
    | [] => rest s
    end.

(** Lines 1172-1176 *)
Definition keyword_patterns : list matcher :=
  [ match_literal (u "zozozo") match_decimals;
    match_literal (u "zozozo") (match_optional_separator match_decimals);
    match_literal (u "zo") (match_optional_separator
      (match_literal (u "zo") (match_optional_separator
        (match_literal (u "zo") (match_optional_separator match_decimals))))) ].

(** [pattern.search(s)]: the match at the leftmost position that has one *)
Fixpoint search (pattern : matcher) (s : pystr) : option pystr :=
  match pattern s with
  | Some n => Some (take n s)
  | None =>
      match s with
      | [] => None
      | _ :: s' => search pattern s'
      end
  end.

(** Lines 1182-1187: the first pattern that matches decides. *)
Fixpoint first_match (patterns : list matcher) (s : pystr) : option pystr :=
  match patterns with
  | [] => None
  | pattern :: rest =>
      match search pattern s with
      | Some m => Some m
      | None => first_match rest s
      end
  end.

(** Lines 1179-1198: the keyword that the quest is looked up with, or
    [None] when the caption has none. *)
Definition cleaned_keyword (caption : pystr) : option pystr :=
  match first_match keyword_patterns (lower caption) with
  | None => None
  | Some keyword =>
      Some (replace (u "_") [] (replace (u "-") [] (replace (u " ") [] keyword)))
  end.

End Keyword.

(** The branch of [handle_callback] that a button's data selects, with
    the value that the branch reads from it. *)
Inductive branch :=
| QuestPage
| PartyPage
| CategoryPage
| Party (party_name : pystr)
| Category (category_type : pystr)
| Validation (validation_type : pystr)
| Points (points : pystr)
| ImageChoice (image_option : pystr)
| Icon (category_id : pystr)
| ConfirmQuest
| RejectQuest
| Announce (quest_id : pystr)
| NoAnnounce
| Review (is_approval : bool)
| Unhandled.

(** The conditions of [handle_callback], in their order. *)
Definition handle_callback_branch (data : pystr) : branch :=
  if startswith data (u "questpage_") then QuestPage
  else if startswith data (u "partypage_") then PartyPage
  else if startswith data (u "categorypage_") then CategoryPage
  else if startswith data (u "party_")
    then Party (replace (u "party_") [] data)
  else if startswith data (u "category_")
    then Category (replace (u "category_") [] data)
  else if startswith data (u "validation_")
    then Validation (replace (u "validation_") [] data)
  else if startswith data (u "points_")
    then Points (replace (u "points_") [] data)
  else if startswith data (u "image_")
    then ImageChoice (replace (u "image_") [] data)
  else if startswith data (u "icon_")
    then Icon (replace (u "icon_") [] data)
  else if bool_decide (data = u "confirm_quest") then ConfirmQuest
  else if bool_decide (data = u "reject_quest") then RejectQuest
  else if startswith data (u "announce_")
    then Announce (replace (u "announce_") [] data)
  else if bool_decide (data = u "no_announce") then NoAnnounce
  else if startswith data (u "approve_") || startswith data (u "reject_")
    then Review (startswith data (u "approve_"))
  else Unhandled.

End Bot.

(** ** icon_provider.py: the list of categories, and its use in zo_quest_bot.py *)

Module IconCatalog.

Import IconProvider QuestUtils.

(** The items of [ICON_CATEGORIES], in the order in which the dict literal
    lists them, which is the order in which [items()] yields them. *)
Definition ICON_CATEGORIES_items : list (pystr * category_config) :=
  [ entry "Spiritual" "Spiritual quests";
    entry "Science & tech" "Science & Technology";
    entry "Literature" "Literature & Writing";
    entry "Health & Fitness" "Health & Fitness";
    entry "Follow your Heart" "Follow Your Heart";
    entry "Travel & Adventure" "Travel & Adventure";
    entry "Cinema" "Television & Cinema";
    entry "Storytelling" "Stories & Journals";
    entry "Sports" "Sports";
    entry "Content" "Photography & Content Creation";
    entry "Podcast" "Open Mic & Podcasts";
    entry "Nature & Wildlife" "Nature & Wildlife";
    entry "Music" "Music";
    entry "Law & Order" "Law & Order";
    entry "Lifestyle" "Home & Lifestyle";
    entry "Games" "Games";
    entry "Food" "Food";
    entry "Design" "Design";
    entry "Business" "Business";
    (u "default", {| description := u "Default/General";
                     filename := Some (u "Spiritual") |}) ].

(** The dicts that [get_all_categories] returns *)
Record category_info := {
  info_id : pystr;
  info_name : pystr;
  info_description : pystr;
  info_symbol : pystr
}.

(** [get_all_categories] *)
Definition get_all_categories : list category_info :=
  let categories :=
    flat_map (fun '(name, config) =>
                if is_default name then []
                else [{| info_id := name;
                         info_name := name;
                         info_description := description config;
                         info_symbol := [128444; 65039]%N |}])
      ICON_CATEGORIES_items in
  sort_by info_name str_lt categories.

(** Lines 1443-1452 of [handle_callback]: the keyboard of the icon
    categories *)
Definition icon_keyboard : InlineKeyboardMarkup :=
  map (fun cat => [{| text := info_name cat;
                      callback_data := u "icon_" ++ info_id cat |}])
    get_all_categories.

End IconCatalog.

(** ** badge_utils.py and the gradient of badge_generator.py *)

Module BadgeUtils.

Import BadgeGenerator IconProvider.

(** [quest_data]: the keys that [generate_and_store_badge] reads; [None]
    is a key that is missing. *)
Record quest_data_t := {
  data_title : option pystr;
  data_description : option pystr;
  data_validation_type : option pystr;
  data_deadline : option pystr;
  data_points : option Z
}.

(** What the function works on: the module state of icon_provider, and the
    rows that were inserted into the table [badge_images], oldest first. *)
Record world := {
  icons : state;
  badge_images : list (pystr * image)
}.

Section WithEnv.

Context (env : Env) (ICONS_DIR : pystr).

(** [db_utils.supabase_client.table("badge_images").insert(row).execute()]:
    the error, if any; with no client set it is the [AttributeError] of
    the attribute access. *)
Context (insert_fault : pystr -> image -> option exn).

(** Lines 29-39: the icon of the category, or the default icon *)
Definition load_icon_for (icon_category : option pystr) (st : state)
  : Exc (option loc) * state :=
  match icon_category with
  | None => (Ok None, st)
  | Some category =>
      if nonempty category
      then match get_icon_by_category env ICONS_DIR category st with
           | (Ok None, st1) =>
               get_icon_by_category env ICONS_DIR (u "default") st1
           | r => r
           end
      else (Ok None, st)
  end.

(** Line 42: [quest_id or f"preview_{hash(quest_data.get('title', 'untitled'))}"] *)
Definition badge_quest_id (quest_data : quest_data_t)
    (quest_id : option quest_id_t) : quest_id_t :=
  let preview :=
    QStr (u "preview_"
          ++ str (hash env (default (u "untitled") (data_title quest_data)))) in
  match quest_id with
  | Some q => if truthy q then q else preview
  | None => preview
  end.

(** Lines 61-81: the insert, inside [safe_supabase_call], which returns
    its fallback on every exception. *)
Definition store (quest_id : option quest_id_t) (badge_buffer : image)
    (rows : list (pystr * image)) : list (pystr * image) :=
  match quest_id with
  | Some q =>
      if truthy q
      then match insert_fault (str_of_quest_id q) badge_buffer with
           | None => rows ++ [(str_of_quest_id q, badge_buffer)]
           | Some _ => rows
           end
      else rows
  | None => rows
  end.

(** Lines 27-87: the body of the [try] *)
Definition generate_and_store_body (quest_data : quest_data_t)
    (icon_category : option pystr) (quest_id : option quest_id_t) (w : world)
  : Exc (option image) * world :=
  match load_icon_for icon_category (icons w) with
  | (Raise e, st1) =>
      (Raise e, {| icons := st1; badge_images := badge_images w |})
  | (Ok icon, st1) =>
      let title := default [] (data_title quest_data) in
      let description := default [] (data_description quest_data) in
      let action := default [] (data_validation_type quest_data) in
      let deadline := default [] (data_deadline quest_data) in
      let points := default 0 (data_points quest_data) in
      match generate_quest_badge env title description action deadline
              (badge_quest_id quest_data quest_id) points icon (objects st1)
      with
      | (Raise e, h) =>
          (Raise e,
           {| icons := {| ICON_CACHE := ICON_CACHE st1; objects := h |};
              badge_images := badge_images w |})
      | (Ok None, h) =>
          (Ok None,
           {| icons := {| ICON_CACHE := ICON_CACHE st1; objects := h |};
              badge_images := badge_images w |})
      | (Ok (Some badge_buffer), h) =>
          (Ok (Some badge_buffer),
           {| icons := {| ICON_CACHE := ICON_CACHE st1; objects := h |};
              badge_images := store quest_id badge_buffer (badge_images w) |})
      end
  end.

(** [generate_and_store_badge]: the body, and [None] for every exception *)
Definition generate_and_store_badge (quest_data : quest_data_t)
    (icon_category : option pystr) (quest_id : option quest_id_t) (w : world)
  : Exc (option image) * world :=
  match generate_and_store_body quest_data icon_category quest_id w with
  | (Raise _, w') => (Ok None, w')
  | r => r
  end.

End WithEnv.

End BadgeUtils.

Module Gradient.

Import BadgeGenerator.

(** Lines 83-84 of [create_premium_badge]: [num_segments = len(colors)],
    with the four colours of the list. *)
Definition num_segments : Z := 4.

(** [segment_height = height / num_segments]: a float, which holds the
    quotient by four of an integer exactly. *)
Definition segment_height (height : Z) : Q := inject_Z height / inject_Z num_segments.

(** Lines 94-95: [top = int(i * segment_height)] and
    [bottom = int((i+1) * segment_height)] *)
Definition top (height i : Z) : Z :=
  int_of_float (inject_Z i * segment_height height).

Definition bottom (height i : Z) : Z :=
  int_of_float (inject_Z (i + 1) * segment_height height).

(** Lines 87-101: the colour of a row of the border layer. The segments
    are composited in order, each opaque on the rows [top..bottom], both
    ends included, so that the last segment that covers a row decides;
    [None] is a row that no segment covers. *)
Fixpoint segment_of_row_from (height y : Z) (i : Z) (n : nat) (current : option Z)
  : option Z :=
  match n with
  | O => current
  | S n' =>
      let current :=
        if (top height i <=? y) && (y <=? bottom height i)
        then Some i else current in
      segment_of_row_from height y (i + 1) n' current
  end.

Definition segment_of_row (height y : Z) : option Z :=
  segment_of_row_from height y 0 (Z.to_nat num_segments) None.

End Gradient.

(** ** db_utils.py *)

Module DbUtils.

Import BadgeGenerator QuestUtils.

(** What a query hands to the code that reads it: the response object of
    [execute()], with its attribute [data]; the dict [{"data": rows}] that
    most callers pass as fallback; or [None]. *)
Inductive result (row : Type) :=
| Response (data : list row)
| Dict (data : list row)
| NoResult.
Arguments Response {row} data.
Arguments Dict {row} data.
Arguments NoResult {row}.

(** [bool(result)]: an object is true, a dict with a key is true, [None]
    is false. *)
Definition result_truthy {row} (r : result row) : bool :=
  match r with
  | Response _ | Dict _ => true
  | NoResult => false
  end.

(** [result.data]: an attribute of the response object; a dict has keys
    and no such attribute. *)
Definition data_of {row} (r : result row) : Exc (list row) :=
  match r with
  | Response data => Ok data
  | Dict _ | NoResult => Raise (OtherException "AttributeError")
  end.

(** [safe_supabase_call]: the result of the query, or the fallback if the
    query raises. *)
Definition safe_supabase_call {T} (query_function : Exc T) (fallback_value : T)
  : T :=
  match query_function with
  | Ok result => result
  | Raise _ => fallback_value
  end.

(** A row of the table [users]; a null column is [None]. *)
Record user := {
  user_id : Z;
  username : option pystr;
  first_name : option pystr;
  last_name : option pystr
}.

(** The dict that [create_user] inserts *)
Record user_data_t := {
  data_id : Z;
  data_username : option pystr;
  data_first_name : option pystr;
  data_last_name : option pystr;
  data_total_points : Z;
  data_joined_at : pystr
}.

(** A row of the table [submissions] *)
Record submission := {
  submission_user_id : Z;
  submission_quest_id : quest_id_t;
  submission_submitted_at : option pystr
}.

(** The queries that a client answers: [Ok rows] is the response of
    [execute()] with [data = rows], [Raise e] is [execute()] raising. *)
Record client := {
  select_user : Z -> Exc (list user);
  insert_user : user_data_t -> Exc (list user);
  select_quest_by_id : quest_id_t -> Exc (list quest);
  select_quest_by_keyword : pystr -> Exc (list quest);
  select_active_quests : Exc (list quest);
  select_approved_submissions : Exc (list submission)
}.

Section WithClient.

(** The global [supabase_client], [None] until it is set. *)
Context (supabase_client : option client).

(** [if result and result.data and len(result.data) > 0: return result.data[0]]
    and [return None] otherwise *)
Definition first_row {row} (r : result row) : Exc (option row) :=
  if result_truthy r
  then
    let! data := data_of r in
    match data with
    | [] => Ok None
    | row0 :: _ => Ok (Some row0)
    end
  else Ok None.

(** [if result and result.data: return result.data] and [return []]
    otherwise *)
Definition all_rows {row} (r : result row) : Exc (list row) :=
  if result_truthy r
  then
    let! data := data_of r in
    match data with
    | [] => Ok []
    | _ => Ok data
    end
  else Ok [].

(** [fetch_user] *)
Definition fetch_user (user_id : Z) : Exc (option user) :=
  match supabase_client with
  | None => Ok None
  | Some c =>
      let result :=
        safe_supabase_call
          (match select_user c user_id with
           | Ok rows => Ok (Response rows)
           | Raise e => Raise e
           end)
          (Dict []) in
      first_row result
  end.

(** [create_user]; [now] is [datetime.now().isoformat()]. *)
Definition create_user (now : pystr) (user_id : Z)
    (username first_name last_name : option pystr) : Exc (option user) :=
  match supabase_client with
  | None => Ok None
  | Some c =>
      let user_data :=
        {| data_id := user_id; data_username := username;
           data_first_name := first_name; data_last_name := last_name;
           data_total_points := 0; data_joined_at := now |} in
      let result :=
        safe_supabase_call
          (match insert_user c user_data with
           | Ok rows => Ok (Response rows)
           | Raise e => Raise e
           end)
          NoResult in
      first_row result
  end.

(** [fetch_quest]. The first query by keyword is followed by
    [len(result.data)], in the message that is logged; the second query is
    the first one again. The [except] of the function turns every exception
    into [None]. *)
Definition fetch_quest (quest_id : option quest_id_t) (keyword : option pystr)
  : option quest :=
  match supabase_client with
  | None => None
  | Some c =>
      let by_id q :=
        safe_supabase_call
          (match select_quest_by_id c q with
           | Ok rows => Ok (Response rows)
           | Raise e => Raise e
           end)
          (Dict []) in
      let by_keyword k :=
        safe_supabase_call
          (match select_quest_by_keyword c k with
           | Ok rows => Ok (Response rows)
           | Raise e => Raise e
           end)
          (Dict []) in
      let found (result : Exc (result quest)) :=
        match (let! result := result in first_row result) with
        | Ok quest => quest
        | Raise _ => None
        end in
      (* [if quest_id], [if keyword]: [None], [0] and the empty string
         are false *)
      let quest_id :=
        match quest_id with
        | Some q => if truthy q then Some q else None
        | None => None
        end in
      let keyword :=
        match keyword with
        | Some k => if nonempty k then Some k else None
        | None => None
        end in
      match quest_id, keyword with
      | None, None => None
      | Some q, _ => found (Ok (by_id q))
      | None, Some k =>
          found (let result := by_keyword k in
                 let! data := data_of result in
                 match data with
                 | [] => Ok (by_keyword k)
                 | _ => Ok result
                 end)
      end
  end.

(** [fetch_active_quests] *)
Definition fetch_active_quests : Exc (list quest) :=
  match supabase_client with
  | None => Ok []
  | Some c =>
      let result :=
        safe_supabase_call
          (match select_active_quests c with
           | Ok rows => Ok (Response rows)
           | Raise e => Raise e
           end)
          (Dict []) in
      all_rows result
  end.

(** [fetch_approved_submissions] *)
Definition fetch_approved_submissions : Exc (list submission) :=
  match supabase_client with
  | None => Ok []
  | Some c =>
      let result :=
        safe_supabase_call
          (match select_approved_submissions c with
           | Ok rows => Ok (Response rows)
           | Raise e => Raise e
           end)
          (Dict []) in
      all_rows result
  end.

(** [quest_utils.paginate_quests] with its call of [fetch_active_quests] *)
Definition paginate_quests_call (today : pystr) (page user_id : Z)
  : Exc (list quest * gmap Z quest_id_t * pagination_info * Z) :=
  let! all_quests := fetch_active_quests in
  paginate_quests today all_quests page user_id.

End WithClient.

End DbUtils.

(** ** zo_quest_bot.py: the leaderboard *)

Module Leaderboard.

Import BadgeGenerator QuestUtils DbUtils.

#[global] Instance quest_id_eq_dec : EqDecision quest_id_t.
Proof. solve_decision. Defined.

(** A dict, with its keys in the order in which they were first set. *)
Section Dict.

Context {K V : Type} `{EqDecision K}.

(** [d.get(k)], [None] for a missing key *)
Fixpoint dict_get (k : K) (d : list (K * V)) : option V :=
  match d with
  | [] => None
  | (k', v) :: d' => if decide (k' = k) then Some v else dict_get k d'
  end.

(** [d[k] = v]: a key that is there keeps its place. *)
Fixpoint dict_set (k : K) (v : V) (d : list (K * V)) : list (K * V) :=
  match d with
  | [] => [(k, v)]
  | (k', v') :: d' =>
      if decide (k' = k) then (k, v) :: d' else (k', v') :: dict_set k v d'
  end.

End Dict.

(** A row of the query [select("id,title,points")] on [quests] *)
Record quest_row := {
  row_id : quest_id_t;
  row_title : option pystr;
  row_points : option Z
}.

(** The dicts appended to [user_completed_quests[user_id]] *)
Record completed_quest := {
  completed_quest_id : quest_id_t;
  completed_title : option pystr;
  completed_points : Z;
  completed_submitted_at : option pystr
}.

(** The dicts of [leaderboard_entries] *)
Record entry := {
  entry_user_id : Z;
  entry_username : pystr;
  entry_points : Z;
  entry_quests_completed : nat
}.

(** What the command answers: one of the "no users" messages, the board,
    or the message of the inner [except]. *)
Inductive reply :=
| NoUsers
| Board (top_users : list entry)
| FetchError.

(** [s.strip()] *)
Fixpoint lstrip_space (s : pystr) : pystr :=
  match s with
  | c :: s' => if isspace c then lstrip_space s' else s
  | [] => []
  end.

Definition strip (s : pystr) : pystr :=
  rev (lstrip_space (rev (lstrip_space s))).

(** A value in an f-string: a null column prints as [None]. *)
Definition format_field (v : option pystr) : pystr :=
  match v with
  | Some s => s
  | None => u "None"
  end.

(** Lines 864-866: the name shown for a user *)
Definition display_name (user_id : Z) (user : DbUtils.user) : pystr :=
  let username :=
    match username user with
    | Some (c :: s) => c :: s
    | _ => strip (format_field (first_name user) ++ u " "
                  ++ format_field (last_name user))
    end in
  match username with
  | [] => u "User " ++ str user_id
  | _ => username
  end.

(** The three accumulators of the loop over the submissions *)
Record totals := {
  user_points : list (Z * Z);
  user_completed_quests : list (Z * list completed_quest);
  user_ids : list Z
}.

(** [user_ids.add(user_id)]; the set is kept as the list of its elements.
    Python leaves the order of [list(user_ids)] open; the list has them in
    the order in which they came. *)
Definition set_add (x : Z) (s : list Z) : list Z :=
  if bool_decide (x ∈ s) then s else s ++ [x].

Section Loop.

Context (quest_points : list (quest_id_t * option Z))
        (quest_titles : list (quest_id_t * option pystr)).

(** [d[k]] *)
Definition getitem {V} (k : Z) (d : list (Z * V)) : Exc V :=
  match dict_get k d with
  | Some v => Ok v
  | None => Raise (OtherException "KeyError")
  end.

(** Lines 825-849: one turn of the loop. Adding a null number of points
    raises [TypeError]. *)
Definition count_submission (t : totals) (s : submission) : Exc totals :=
  let user_id := submission_user_id s in
  let quest_id := submission_quest_id s in
  let user_ids := set_add user_id (user_ids t) in
  match dict_get quest_id quest_points with
  | None =>
      Ok {| user_points := user_points t;
            user_completed_quests := user_completed_quests t;
            user_ids := user_ids |}
  | Some points =>
      let '(user_points, user_completed_quests) :=
        match dict_get user_id (user_points t) with
        | Some _ => (user_points t, user_completed_quests t)
        | None => (dict_set user_id 0 (user_points t),
                   dict_set user_id [] (user_completed_quests t))
        end in
      let! total := getitem user_id user_points in
      match points with
      | None => Raise TypeError
      | Some points =>
          let user_points := dict_set user_id (total + points) user_points in
          let! completed := getitem user_id user_completed_quests in
          let user_completed_quests :=
            dict_set user_id
              (completed
               ++ [{| completed_quest_id := quest_id;
                      completed_title :=
                        default (Some (u "Unknown Quest"))
                          (dict_get quest_id quest_titles);
                      completed_points := points;
                      completed_submitted_at := submission_submitted_at s |}])
              user_completed_quests in
          Ok {| user_points := user_points;
                user_completed_quests := user_completed_quests;
                user_ids := user_ids |}
      end
  end.

Fixpoint count_submissions (t : totals) (submissions : list submission)
  : Exc totals :=
  match submissions with
  | [] => Ok t
  | s :: rest =>
      let! t := count_submission t s in
      count_submissions t rest
  end.

End Loop.

Section WithClient.

Context (supabase_client : option client).

(** The query of lines 812-815, for the points and titles: [Ok rows] is
    the response with [data = rows]. *)
Context (select_quest_points : Exc (list quest_row)).

(** Lines 859-862: the profiles of the users of one batch that have one *)
Fixpoint fetch_users (ids : list Z) (users_data : list (Z * DbUtils.user))
  : Exc (list (Z * DbUtils.user)) :=
  match ids with
  | [] => Ok users_data
  | user_id :: rest =>
      let! user := fetch_user supabase_client user_id in
      match user with
      | Some user => fetch_users rest (dict_set user_id user users_data)
      | None => fetch_users rest users_data
      end
  end.

(** [range(0, n, 50)] *)
Definition batch_starts (n : nat) : list Z :=
  map (fun k => 50 * Z.of_nat k) (seq 0 (Nat.div (n + 49) 50)).

(** Lines 856-862: the batches [list(user_ids)[i:i+50]], one after the
    other *)
Fixpoint fetch_batches (user_ids : list Z) (starts : list Z)
    (users_data : list (Z * DbUtils.user)) : Exc (list (Z * DbUtils.user)) :=
  match starts with
  | [] => Ok users_data
  | i :: rest =>
      let user_ids_batch := slice user_ids i (i + 50) in
      let! users_data := fetch_users user_ids_batch users_data in
      fetch_batches user_ids rest users_data
  end.

(** Lines 861-873 *)
Definition leaderboard_entries (t : totals) (users_data : list (Z * DbUtils.user))
  : list entry :=
  flat_map
    (fun '(user_id, points) =>
       match dict_get user_id users_data with
       | Some user =>
           [{| entry_user_id := user_id;
               entry_username := display_name user_id user;
               entry_points := points;
               entry_quests_completed :=
                 length (default [] (dict_get user_id (user_completed_quests t))) |}]
       | None => []
       end)
    (user_points t).

(** [a > b], the order of [sorted(..., reverse=True)] *)
Definition Zgt (a b : Z) : bool := b <? a.

(** Lines 801-893 of [leaderboard]: the body of the inner [try] *)
Definition leaderboard_body : Exc reply :=
  let! submissions := fetch_approved_submissions supabase_client in
  match submissions with
  | [] => Ok NoUsers
  | _ =>
      let quests_result :=
        safe_supabase_call
          (match select_quest_points with
           | Ok rows => Ok (Response rows)
           | Raise e => Raise e
           end)
          (Dict []) in
      let! all_quests :=
        (if result_truthy quests_result
         then let! data := data_of quests_result in Ok data
         else Ok []) in
      let quest_points :=
        fold_left (fun d quest => dict_set (row_id quest) (row_points quest) d)
          all_quests [] in
      let quest_titles :=
        fold_left (fun d quest => dict_set (row_id quest) (row_title quest) d)
          all_quests [] in
      let! t := count_submissions quest_points quest_titles
                  {| user_points := []; user_completed_quests := [];
                     user_ids := [] |} submissions in
      match user_ids t with
      | [] => Ok NoUsers
      | _ =>
          let! users_data :=
            fetch_batches (user_ids t) (batch_starts (length (user_ids t))) [] in
          let sorted_users :=
            sort_by entry_points Zgt (leaderboard_entries t users_data) in
          let top_users := slice sorted_users 0 10 in
          match top_users with
          | [] => Ok NoUsers
          | _ => Ok (Board top_users)
          end
      end
  end.

(** [leaderboard]: every exception of the body gives the error message. *)
Definition leaderboard : reply :=
  match leaderboard_body with
  | Ok r => r
  | Raise _ => FetchError
  end.

End WithClient.

End Leaderboard.

(** ** Sample environments

    Concrete stand-ins for the interpreter, Pillow and the file system, used
    to run the embedded code on examples. *)

Module Sample.

Import BadgeGenerator.

(** [int(s)] on ASCII decimal digits *)
Fixpoint parse_digits (acc : Z) (s : pystr) : option Z :=
  match s with
  | [] => Some acc
  | c :: s' =>
      if isdigit c
      then parse_digits (10 * acc + (Z.of_N c - 48)) s'
      else None
  end.

Definition parse_int (s : pystr) : option Z :=
  match s with
  | [] => None
  | _ => parse_digits 0 s
  end.

(** A hash: the sum of the code points, negated. *)
Definition sum_hash (s : pystr) : Z := - Z.of_N (foldr N.add 0%N s).

(** A greedy wrap by character count. *)
Fixpoint fill (width : nat) (words : list pystr) (cur : pystr) : list pystr :=
  match words with
  | [] => [cur]
  | w :: ws =>
      if (length (cur ++ u " " ++ w) <=? width)%nat
      then fill width ws (cur ++ u " " ++ w)
      else cur :: fill width ws w
  end.

Definition wrap (text : pystr) (width : Z) : list pystr :=
  match split text with
  | [] => []
  | w :: ws => fill (Z.to_nat width) ws w
  end.

(** A monospaced face: every character advances 0.6 em. *)
Definition monospaced (f : font) (s : pystr) : Exc Q :=
  Ok (inject_Z (font_size f * Z.of_nat (length s)) * (6 # 10))%Q.

(** A face with proportional figures: the digit one advances 0.4 em, every
    other character 0.7 em. *)
Definition advance (c : char) : Z := if (c =? 49)%N then 4 else 7.

Definition advances (s : pystr) : Z := foldr (fun c n => advance c + n) 0 s.

Definition proportional (f : font) (s : pystr) : Exc Q :=
  Ok (inject_Z (font_size f * advances s) * (1 # 10))%Q.

Definition env_with (measure : font -> pystr -> Exc Q)
    (fonts_missing : pystr -> Z -> option exn) : Env :=
  {| hash := sum_hash;
     int_of_str := parse_int;
     textwrap_wrap := wrap;
     font_fault := fonts_missing;
     textlength := measure;
     getbbox := fun f s => Ok (0, 0, 0, font_size f);
     text_fault := fun _ _ _ => None;
     card_fault := fun _ _ _ => None;
     button_fault := fun _ _ => None;
     paste_fault := fun _ _ => None;
     convert_fault := fun _ _ => None;
     thumbnail_size := fun im box =>
       Ok (Z.min (im_size im).1 box.1, Z.min (im_size im).2 box.2);
     save_fault := fun _ => None;
     path_exists := fun _ => true;
     image_open := fun _ => Ok (ModeRGB, (150, 150));
     supabase_client := None |}.

Definition env : Env := env_with monospaced (fun _ _ => None).

Definition env_proportional : Env := env_with proportional (fun _ _ => None).

(** No font file can be opened. *)
Definition env_no_fonts : Env := env_with monospaced (fun _ _ => Some IOError).

(** No icon file exists. *)
Definition env_no_icons : Env :=
  {| hash := sum_hash;
     int_of_str := parse_int;
     textwrap_wrap := wrap;
     font_fault := fun _ _ => None;
     textlength := monospaced;
     getbbox := fun f s => Ok (0, 0, 0, font_size f);
     text_fault := fun _ _ _ => None;
     card_fault := fun _ _ _ => None;
     button_fault := fun _ _ => None;
     paste_fault := fun _ _ => None;
     convert_fault := fun _ _ => None;
     thumbnail_size := fun im box => Ok box;
     save_fault := fun _ => None;
     path_exists := fun _ => false;
     image_open := fun _ => Raise IOError;
     supabase_client := None |}.

(** An icon as a caller may hold one. *)
Definition icon : image :=
  {| im_mode := ModeRGB; im_size := (150, 150);
     im_data := [PFile (u "icons/Sports.png")] |}.

(** A card as [create_premium_badge] returns it. *)
Definition card : image :=
  {| im_mode := ModeRGBA; im_size := (820, 520);
     im_data := [PCard 800 500 12] |}.

Definition ICONS_DIR : pystr := u "/app/fonts/Color Symbols".

End Sample.

(** ** A sample quest table *)

Module SampleQuests.
Import BadgeGenerator QuestUtils.

Definition today : pystr := u "2025-05-10".

Definition row (n : Z) (title : string) (deadline : string) : quest :=
  {| quest_id := QInt n; quest_title := u title;
     quest_deadline := Some (Some (u deadline)) |}.

(** Seven rows: one expired, two recurring, four dated. *)
Definition all_quests : list quest :=
  [ row 1 "Sunrise run" "2025-06-01";
    row 2 "Share a meal" "everyday";
    row 3 "Opening night" "2025-05-01";
    row 4 "Poker final" "2025-05-10";
    row 5 "Beach cleanup" "2025-05-20";
    row 6 "Say Zo Zo" "everyday";
    row 7 "Founders dinner" "2025-05-20" ].

(** [str.lower] on ASCII letters; other characters are kept. *)
Definition ascii_lower (s : pystr) : pystr :=
  map (fun c => if ((65 <=? c) && (c <=? 90))%N then (c + 32)%N else c) s.

End SampleQuests.

(** ** A sample database *)

Module SampleDb.
Import BadgeGenerator QuestUtils DbUtils Leaderboard.

Definition users : list user :=
  [ {| user_id := 1; username := Some (u "ann");
       first_name := Some (u "Ann"); last_name := None |};
    {| user_id := 2; username := None;
       first_name := Some (u "Bo"); last_name := Some (u "Li") |} ].

(** Five approved submissions: three that count for the users 1 and 2, one
    of a user without a profile and one of a quest without a row. *)
Definition submissions : list submission :=
  [ {| submission_user_id := 2; submission_quest_id := QInt 2;
       submission_submitted_at := Some (u "2025-05-01T10:00:00") |};
    {| submission_user_id := 1; submission_quest_id := QInt 1;
       submission_submitted_at := Some (u "2025-05-02T10:00:00") |};
    {| submission_user_id := 3; submission_quest_id := QInt 1;
       submission_submitted_at := None |};
    {| submission_user_id := 1; submission_quest_id := QInt 2;
       submission_submitted_at := Some (u "2025-05-03T10:00:00") |};
    {| submission_user_id := 2; submission_quest_id := QInt 9;
       submission_submitted_at := None |} ].

Definition quest_rows : list quest_row :=
  [ {| row_id := QInt 1; row_title := Some (u "Sunrise run");
       row_points := Some 300 |};
    {| row_id := QInt 2; row_title := Some (u "Share a meal");
       row_points := Some 111 |} ].

(** The rows of a quests table in which a quest has no points *)
Definition quest_rows_null : list quest_row :=
  [ {| row_id := QInt 1; row_title := Some (u "Sunrise run");
       row_points := None |};
    {| row_id := QInt 2; row_title := Some (u "Share a meal");
       row_points := Some 111 |} ].

(** A client that answers every query *)
Definition working : client :=
  {| select_user := fun id =>
       Ok (List.filter (fun user => user_id user =? id) users);
     insert_user := fun data =>
       Ok [ {| user_id := data_id data; username := data_username data;
               first_name := data_first_name data;
               last_name := data_last_name data |} ];
     select_quest_by_id := fun id =>
       Ok (List.filter (fun q => bool_decide (quest_id q = id))
             SampleQuests.all_quests);
     select_quest_by_keyword := fun _ => Ok [];
     select_active_quests := Ok SampleQuests.all_quests;
     select_approved_submissions := Ok submissions |}.

(** A client whose queries all fail *)
Definition failing : client :=
  {| select_user := fun _ => Raise (OtherException "APIError");
     insert_user := fun _ => Raise (OtherException "APIError");
     select_quest_by_id := fun _ => Raise (OtherException "APIError");
     select_quest_by_keyword := fun _ => Raise (OtherException "APIError");
     select_active_quests := Raise (OtherException "APIError");
     select_approved_submissions := Raise (OtherException "APIError") |}.

(** A client that has the submissions and no profile of any user *)
Definition no_profiles : client :=
  {| select_user := fun _ => Ok [];
     insert_user := fun _ => Raise (OtherException "APIError");
     select_quest_by_id := fun id =>
       Ok (List.filter (fun q => bool_decide (quest_id q = id))
             SampleQuests.all_quests);
     select_quest_by_keyword := fun _ => Ok [];
     select_active_quests := Ok SampleQuests.all_quests;
     select_approved_submissions := Ok submissions |}.

End SampleDb.

(** ** Specification vocabulary

    The predicates in which the properties below are stated. *)

Module Spec.

Import BadgeGenerator IconProvider.

(** [inv I c P]: started in a heap satisfying [I], the computation [c] ends,
    normally or by an exception, in a heap satisfying [I]; a value it returns
    satisfies [P]. *)
Definition inv (I : list image -> Prop) {A} (c : M A) (P : A -> Prop) : Prop :=
  forall h, I h -> I (c h).2 /\ forall a, (c h).1 = Ok a -> P a.

(** The objects of [h0] are, in [h], where and what they were. *)
Definition unchanged (h0 h : list image) : Prop := take (length h0) h = h0.


(** The image [im] with the layers [ps] added on top. *)
Definition with_layers (im : image) (ps : list paint) : image :=
  {| im_mode := im_mode im; im_size := im_size im; im_data := im_data im ++ ps |}.

(** The layers of a block of lines starting at [(x, y)] with a given pitch. *)
Definition line_layers (x y pitch : Z) (f : font) (lines : list (list N)) : list paint :=
  imap (fun i line => PText (inject_Z x, inject_Z (y + pitch * Z.of_nat i)) line f)
    lines.

Section Title.

Context (env : Env) (f : font).

(** The measured width of [s] is within the title budget of
    [width - 300] pixels / exceeds it. *)
Definition fits (s : list N) : Prop :=
  exists w, textlength env f s = Ok w /\ Qle_bool w (inject_Z title_max_width) = true.

Definition overflows (s : list N) : Prop :=
  exists w, textlength env f s = Ok w /\ Qle_bool w (inject_Z title_max_width) = false.

(** Every line is a single word or fits the budget. *)
Definition lines_ok (gs : list (list (list N))) : Prop :=
  Forall (fun g => length g = 1%nat \/ fits (join (u " ") g)) gs.

(** Greedy: the first word of a line did not fit at the end of the line
    before it. *)
Definition maximal (gs : list (list (list N))) : Prop :=
  forall i g w g',
    gs !! i = Some g -> gs !! S i = Some (w :: g') ->
    overflows (join (u " ") (g ++ [w])).

End Title.

(** The entry of ["default"] in [ICON_CATEGORIES]. *)
Definition default_config : category_config :=
  {| description := u "Default/General"; filename := Some (u "Spiritual") |}.

(** The RGBA image that [load_icon] creates from a file. *)
Definition loaded_from (filepath : list N) (im : image) : Prop :=
  im_mode im = ModeRGBA /\ im_data im = [PFile filepath; PConvert ModeRGBA].

Section Icons.

Context (env : Env) (ICONS_DIR : list N).

(** What one call can do to the module state [st]: answer from the cache,
    fail, or load a file and cache the image under the key of that file.
    In every case the objects that existed stay as they were. *)
Inductive outcome (st : state) : Exc (option nat) -> state -> Prop :=
| outcome_hit key icon h' :
    ICON_CACHE st !! key = Some icon ->
    objects st `prefix_of` h' ->
    outcome st (Ok (Some icon)) {| ICON_CACHE := ICON_CACHE st; objects := h' |}
| outcome_fail h' :
    objects st `prefix_of` h' ->
    outcome st (Ok None) {| ICON_CACHE := ICON_CACHE st; objects := h' |}
| outcome_load key config icon h0 h' :
    ICON_CATEGORIES !! key = Some config ->
    ICON_CACHE st !! key = None ->
    objects st `prefix_of` h0 ->
    path_exists env (filepath_of ICONS_DIR key config) = true ->
    load_icon env (filepath_of ICONS_DIR key config) h0 = (Ok icon, h') ->
    outcome st (Ok (Some icon))
      {| ICON_CACHE := <[key := icon]> (ICON_CACHE st); objects := h' |}.

End Icons.

Section Cache.

Context (ICONS_DIR : list N).

(** Every cache entry maps a key of [ICON_CATEGORIES] to a live RGBA image
    that was decoded from the file of that key. *)
Definition cache_ok (st : state) : Prop :=
  forall key icon, ICON_CACHE st !! key = Some icon ->
    exists config im,
      ICON_CATEGORIES !! key = Some config
      /\ objects st !! icon = Some im
      /\ loaded_from (filepath_of ICONS_DIR key config) im.

(** The module states that calls can produce: icons are requested, with the
    file system of the moment, and badges are generated in between. *)
Inductive reachable : state -> Prop :=
| reachable_initial : reachable initial_state
| reachable_get_icon env category st :
    reachable st ->
    reachable (get_icon_by_category env ICONS_DIR category st).2
| reachable_badge env title description action deadline quest_id points
    icon_image st :
    reachable st ->
    reachable
      {| ICON_CACHE := ICON_CACHE st;
         objects := (BadgeGenerator.generate_quest_badge env title description
                       action deadline quest_id points icon_image
                       (objects st)).2 |}.

End Cache.

End Spec.

(** ** What the quest list shows *)

Module QuestSpec.
Import BadgeGenerator QuestUtils.

(** A quest is listed when it recurs every day, or when its deadline is a
    string that does not sort before [today]; a quest without a deadline
    counts as having the empty string for one. *)
Definition listed (today : pystr) (q : quest) : bool :=
  match quest_deadline q with
  | Some (Some d) => bool_decide (d = u "everyday") || str_ge d today
  | Some None => false
  | None => str_ge [] today
  end.

(** A quest row whose deadline is SQL null. *)
Definition null_deadline (q : quest) : Prop := quest_deadline q = Some None.

(** The clamp of a page number to [1..total_pages]. *)
Definition clamp_page (page total_pages : Z) : Z :=
  Z.max 1 (Z.min page total_pages).

Definition button (label : pystr) (data : pystr) : InlineKeyboardButton :=
  {| text := label; callback_data := data |}.

(** The row that closes the party and the category keyboards. *)
Definition skip_row (data : string) : list InlineKeyboardButton :=
  [button (u "Skip") (u data)].

End QuestSpec.

(** ** What the category list offers *)

Module IconCatalogSpec.
Import IconProvider IconCatalog Bot.

(** A category on offer is a key of [ICON_CATEGORIES] other than
    ["default"], shown under its key, with a file of its own name, and its
    button comes back to the icon branch with that key. *)
Definition offered (cat : category_info) : Prop :=
  info_name cat = info_id cat
  /\ info_id cat <> u "default"
  /\ ICON_CATEGORIES !! info_id cat
     = Some {| description := info_description cat; filename := None |}
  /\ handle_callback_branch (u "icon_" ++ info_id cat) = Icon (info_id cat).

End IconCatalogSpec.

(** ** What the leaderboard counts *)

Module LeaderboardSpec.
Import BadgeGenerator DbUtils Leaderboard.

(** The points of a quest id in the rows of the quests query: of several
    rows with one id the last one counts; [None] is an id without a row,
    [Some None] a row whose points are null. *)
Fixpoint points_of (rows : list quest_row) (quest_id : quest_id_t)
  : option (option Z) :=
  match rows with
  | [] => None
  | r :: rest =>
      match points_of rest quest_id with
      | Some p => Some p
      | None => if decide (row_id r = quest_id) then Some (row_points r) else None
      end
  end.

(** The approved submissions of a user that count: those of a quest that
    has a row. *)
Definition counted (rows : list quest_row) (user_id : Z)
    (submissions : list submission) : list submission :=
  List.filter
    (fun s => bool_decide (submission_user_id s = user_id)
              && bool_decide (is_Some (points_of rows (submission_quest_id s))))
    submissions.

(** The sum of the points of the quests of some submissions *)
Definition total (rows : list quest_row) (submissions : list submission) : Z :=
  foldr (fun s acc =>
           default 0 (mjoin (points_of rows (submission_quest_id s))) + acc)
    0 submissions.

End LeaderboardSpec.

(** * Proofs *)

(** ** A small program logic for heap invariants

    The rules of [Spec.inv] for an invariant [I] that comes with the
    references [good] that may be updated under it, and with what it lets one
    observe ([obs]) of an object read through a reference. *)

Module HeapLogic.

Section Invariant.

Context (env : Env).
Variable I : heap -> Prop.
Variable good : loc -> Prop.
Variable obs : loc -> image -> Prop.

Hypothesis I_alloc : forall h im, I h -> I (h ++ [im]) /\ good (length h).
Hypothesis I_update : forall h l im md sz ps,
  good l -> I h -> h !! l = Some im ->
  I (<[l := {| im_mode := md; im_size := sz; im_data := im_data im ++ ps |}]> h).
Hypothesis I_obs : forall h l im, I h -> h !! l = Some im -> obs l im.

Local Abbreviation inv := (Spec.inv I).

Lemma inv_ret {A} (a : A) (P : A -> Prop) : P a -> inv (ret a) P.
Proof. intros Ha h Hh; split; [done|]. cbn. by intros ? [= <-]. Qed.

Lemma inv_conseq {A} (c : M A) (P Q : A -> Prop) :
  inv c P -> (forall a, P a -> Q a) -> inv c Q.
Proof. intros Hc HPQ h Hh. destruct (Hc h Hh) as [? HP]. split; auto. Qed.

Lemma inv_bind {A B} (c : M A) (k : A -> M B) (P : A -> Prop) (Q : B -> Prop) :
  inv c P -> (forall a, P a -> inv (k a) Q) -> inv (bind c k) Q.
Proof.
  intros Hc Hk h Hh. unfold bind.
  destruct (Hc h Hh) as [HI HP].
  destruct (c h) as [[a|e] h']; cbn in *.
  - apply (Hk a); auto.
  - split; [done|]. discriminate.
Qed.

Lemma inv_lift {A} (c : Exc A) : inv (lift c) (fun _ => True).
Proof. intros h Hh; split; done. Qed.

Lemma inv_check f : inv (check f) (fun _ => True).
Proof. intros h Hh. unfold check. destruct f; split; done. Qed.

Lemma inv_raise {A} e (P : A -> Prop) : inv (raise e) P.
Proof. intros h Hh; split; [done|]. discriminate. Qed.

Lemma inv_alloc im : inv (alloc im) good.
Proof.
  intros h Hh. destruct (I_alloc h im Hh) as [? ?].
  split; [done|]. cbn. by intros ? [= <-].
Qed.

Lemma inv_deref l : inv (deref l) (obs l).
Proof.
  intros h Hh. unfold deref. destruct (h !! l) as [im|] eqn:E; cbn.
  - split; [done|]. intros ? [= <-]. eauto.
  - split; [done|]. discriminate.
Qed.

Lemma inv_update l md sz ps :
  good l ->
  inv (update l (fun im => {| im_mode := md im; im_size := sz im;
                              im_data := im_data im ++ ps |}))
      (fun _ => True).
Proof.
  intros Hl h Hh. unfold update. destruct (h !! l) as [im|] eqn:E; cbn.
  - split; [|done]. by apply I_update.
  - split; done.
Qed.

Lemma inv_try_except {A} (c : M A) handler (P : A -> Prop) :
  inv c P -> (forall e, inv (handler e) P) -> inv (try_except c handler) P.
Proof.
  intros Hc Hh h HI. unfold try_except.
  destruct (Hc h HI) as [HI' HP].
  destruct (c h) as [[a|e] h']; cbn in *.
  - split; [done|]. intros ? [= <-]. auto.
  - by apply Hh.
Qed.

Lemma inv_try_except_IOError {A} (c : M A) handler (P : A -> Prop) :
  inv c P -> inv handler P -> inv (try_except_IOError c handler) P.
Proof.
  intros Hc Hh h HI. unfold try_except_IOError.
  destruct (Hc h HI) as [HI' HP].
  destruct (c h) as [[a|[]] h']; cbn in *; auto.
  all: split; [done|discriminate].
Qed.

(** The Pillow operations. *)

Lemma inv_truetype path size :
  inv (ImageFont_truetype env path size) (fun _ => True).
Proof.
  unfold ImageFont_truetype.
  eapply inv_bind; [apply inv_check|]. intros _ _. by apply inv_ret.
Qed.

Lemma inv_draw_text badge xy text f :
  good badge -> inv (draw_text env badge xy text f) (fun _ => True).
Proof.
  intros Hb. unfold draw_text.
  eapply inv_bind; [apply inv_check|]. intros _ _.
  by apply (inv_update badge im_mode im_size).
Qed.

Lemma inv_paste badge src xy :
  good badge -> inv (paste env badge src xy) (fun _ => True).
Proof.
  intros Hb. unfold paste.
  eapply inv_bind; [apply inv_check|]. intros _ _.
  by apply (inv_update badge im_mode im_size).
Qed.

Lemma inv_convert l m : inv (convert env l m) good.
Proof.
  unfold convert.
  eapply inv_bind; [apply inv_deref|]. intros im _.
  eapply inv_bind; [apply inv_check|]. intros _ _.
  apply inv_alloc.
Qed.

Lemma inv_copy l : inv (copy l) good.
Proof.
  unfold copy. eapply inv_bind; [apply inv_deref|]. intros im _.
  apply inv_alloc.
Qed.

Lemma inv_thumbnail l box :
  good l -> inv (thumbnail env l box) (fun _ => True).
Proof.
  intros Hl. unfold thumbnail.
  eapply inv_bind; [apply inv_deref|]. intros im _.
  eapply inv_bind; [apply inv_lift|]. intros size _.
  by apply (inv_update l im_mode (fun _ => size)).
Qed.

(** The phases of [generate_quest_badge]. *)

Import BadgeGenerator.

Lemma inv_draw_lines badge x y pitch f lines :
  good badge -> inv (draw_lines env badge x y pitch f lines) (fun _ => True).
Proof.
  intros Hb. revert y. induction lines as [|line rest IH]; intros y; cbn.
  - by apply inv_ret.
  - eapply inv_bind; [by apply inv_draw_text|]. intros _ _. apply IH.
Qed.

Lemma inv_draw_action_lines badge x y pitch f lines :
  good badge -> inv (draw_action_lines env badge x y pitch f lines) (fun _ => True).
Proof.
  intros Hb. revert y. induction lines as [|line rest IH]; intros y; cbn.
  - by apply inv_ret.
  - eapply inv_bind; [by apply inv_draw_text|]. intros _ _. apply IH.
Qed.

Lemma inv_draw_header badge fs display_id :
  good badge -> inv (draw_header env badge fs display_id) (fun _ => True).
Proof.
  intros Hb. unfold draw_header.
  eapply inv_bind; [by apply inv_draw_text|]. intros _ _.
  eapply inv_bind; [apply inv_lift|]. intros w _.
  by apply inv_draw_text.
Qed.

Lemma inv_draw_title badge f title :
  good badge -> inv (draw_title env badge f title) (fun _ => True).
Proof.
  intros Hb. unfold draw_title.
  eapply inv_bind; [apply inv_lift|]. intros w _.
  destruct (Qgtb _ _).
  - eapply inv_bind; [apply inv_lift|]. intros lines _.
    eapply inv_bind; [by apply inv_draw_lines|]. intros y _.
    by apply inv_ret.
  - eapply inv_bind; [by apply inv_draw_text|]. intros _ _.
    by apply inv_ret.
Qed.

Lemma inv_draw_description badge f description desc_y :
  good badge ->
  inv (draw_description env badge f description desc_y) (fun _ => True).
Proof. intros Hb. unfold draw_description. by apply inv_draw_lines. Qed.

Lemma inv_draw_action badge f action action_x info_y off maxw :
  good badge ->
  inv (draw_action env badge f action action_x info_y off maxw) (fun _ => True).
Proof.
  intros Hb. unfold draw_action.
  eapply inv_bind; [apply inv_lift|]. intros w _.
  destruct (Qgtb _ _).
  - eapply inv_bind; [apply inv_lift|]. intros lines _.
    eapply inv_bind; [by apply inv_draw_action_lines|]. intros y _.
    by apply inv_ret.
  - eapply inv_bind; [by apply inv_draw_text|]. intros _ _.
    by apply inv_ret.
Qed.

Lemma inv_draw_info badge fs action deadline info_y points :
  good badge ->
  inv (draw_info env badge fs action deadline info_y points) (fun _ => True).
Proof.
  intros Hb. unfold draw_info.
  eapply inv_bind; [by apply inv_draw_text|]. intros _ _.
  eapply inv_bind; [apply inv_lift|]. intros aw _.
  eapply inv_bind; [apply inv_lift|]. intros hb _.
  eapply inv_bind; [apply inv_lift|]. intros bb _.
  eapply inv_bind; [apply inv_lift|]. intros p _.
  eapply inv_bind; [by apply inv_draw_action|]. intros dy _.
  eapply inv_bind; [by apply inv_draw_text|]. intros _ _.
  eapply inv_bind; [apply inv_lift|]. intros dw _.
  eapply inv_bind; [apply inv_lift|]. intros hb' _.
  eapply inv_bind; [apply inv_lift|]. intros bb' _.
  eapply inv_bind; [by apply inv_draw_text|]. intros _ _.
  by apply inv_ret.
Qed.

Lemma inv_draw_button badge fs p :
  good badge -> inv (draw_button env badge fs p) (fun _ => True).
Proof.
  intros Hb. unfold draw_button.
  eapply inv_bind; [apply inv_check|]. intros _ _.
  eapply inv_bind; [by apply inv_paste|]. intros _ _.
  by apply inv_paste.
Qed.

(** The icon is read; what is resized is the copy, a new object. *)
Lemma inv_place_icon badge p icon_image :
  good badge -> inv (place_icon env badge p icon_image) (fun _ => True).
Proof.
  intros Hb. unfold place_icon. destruct icon_image as [icon|].
  2: by apply inv_ret.
  apply inv_try_except.
  2: { intros _. by apply inv_ret. }
  eapply inv_bind; [apply inv_deref|]. intros im _.
  eapply inv_bind with (P := fun _ => True).
  { destruct (negb _).
    - eapply inv_conseq; [apply inv_convert|done].
    - by apply inv_ret. }
  intros icon' _.
  eapply inv_bind; [apply inv_copy|]. intros icon_resized Hr.
  eapply inv_bind; [by apply inv_thumbnail|]. intros _ _.
  eapply inv_bind; [apply inv_deref|]. intros src _.
  by apply inv_paste.
Qed.

Lemma inv_store_badge badge quest_id :
  inv (store_badge env badge quest_id)
      (fun r => forall b, r = Some b -> obs badge b).
Proof.
  unfold store_badge.
  destruct (supabase_client env) as [client|].
  2: { by apply inv_ret. }
  destruct (truthy quest_id).
  2: { by apply inv_ret. }
  apply inv_try_except.
  2: { intros _. by apply inv_ret. }
  eapply inv_bind; [apply inv_deref|]. intros im Him.
  eapply inv_bind; [apply inv_check|]. intros _ _.
  eapply inv_bind; [apply inv_check|]. intros _ _.
  apply inv_ret. by intros b [= <-].
Qed.

Lemma inv_finalize badge : inv (finalize env badge) (obs badge).
Proof.
  unfold finalize.
  eapply inv_bind; [apply inv_deref|]. intros im Him.
  eapply inv_bind; [apply inv_check|]. intros _ _.
  by apply inv_ret.
Qed.

Lemma inv_render_content badge fs title description action deadline quest_id
    points icon_image :
  good badge ->
  inv (render_content env badge fs title description action deadline quest_id
         points icon_image)
      (obs badge).
Proof.
  intros Hb. unfold render_content.
  eapply inv_bind; [by apply inv_draw_title|]. intros y1 _.
  eapply inv_bind; [by apply inv_draw_description|]. intros y2 _.
  eapply inv_bind; [by apply inv_draw_info|]. intros p _.
  eapply inv_bind; [by apply inv_draw_button|]. intros _ _.
  eapply inv_bind; [by apply inv_place_icon|]. intros _ _.
  eapply inv_bind; [apply inv_store_badge|]. intros [b|] Hs.
  - apply inv_ret. by apply Hs.
  - apply inv_finalize.
Qed.

Lemma inv_render badge fs title description action deadline quest_id
    display_id points icon_image :
  good badge ->
  inv (render env badge fs title description action deadline quest_id
         display_id points icon_image)
      (obs badge).
Proof.
  intros Hb. unfold render.
  eapply inv_bind; [by apply inv_draw_header|]. intros _ _.
  by apply inv_render_content.
Qed.

Lemma inv_load_fonts : inv (load_fonts env) (fun _ => True).
Proof.
  unfold load_fonts.
  do 6 (eapply inv_bind; [apply inv_truetype|]; intros ? _).
  by apply inv_ret.
Qed.

Lemma inv_generate_quest_badge title description action deadline quest_id
    points icon_image :
  inv (generate_quest_badge env title description action deadline quest_id
         points icon_image)
      (fun _ => True).
Proof.
  unfold generate_quest_badge. apply inv_try_except.
  2: { intros _. by apply inv_ret. }
  unfold generate_body, create_premium_badge.
  eapply inv_bind.
  { eapply inv_bind; [apply inv_check|]. intros _ _. apply inv_alloc. }
  intros badge Hb.
  eapply inv_bind with (P := fun _ => True).
  { apply inv_try_except_IOError; [|by apply inv_ret].
    eapply inv_bind; [apply inv_load_fonts|]. intros fs _. by apply inv_ret. }
  intros [fs|] _; [|by apply inv_ret].
  eapply inv_bind; [by apply inv_render|]. intros b _.
  by apply inv_ret.
Qed.

End Invariant.
End HeapLogic.

Module FrameProofs.
Import BadgeGenerator Spec HeapLogic.

Lemma unchanged_length h0 h : unchanged h0 h -> (length h0 <= length h)%nat.
Proof.
  unfold unchanged. intros E. apply (f_equal length) in E.
  rewrite length_take in E. lia.
Qed.

Lemma unchanged_alloc h0 h im :
  unchanged h0 h -> unchanged h0 (h ++ [im]) /\ (length h0 <= length h)%nat.
Proof.
  intros E. pose proof (unchanged_length _ _ E). split; [|done].
  unfold unchanged in *. by rewrite take_app_le.
Qed.

Lemma unchanged_update h0 h l (im : image) md sz ps :
  (length h0 <= l)%nat -> unchanged h0 h -> h !! l = Some im ->
  unchanged h0
    (<[l := {| im_mode := md; im_size := sz; im_data := im_data im ++ ps |}]> h).
Proof.
  intros Hl E _. unfold unchanged in *.
  etrans; [by apply take_insert_ge|done].
Qed.

Lemma generate_quest_badge_unchanged env title description action deadline
    quest_id points icon_image (h : list image) :
  unchanged h
    (generate_quest_badge env title description action deadline quest_id points
       icon_image h).2.
Proof.
  eapply (inv_generate_quest_badge env (unchanged h)
            (fun l => (length h <= l)%nat) (fun _ _ => True)).
  - intros h' im. apply unchanged_alloc.
  - intros h' l im md sz ps. apply unchanged_update.
  - done.
  - unfold unchanged. apply firstn_all.
Qed.

(** C10 -- [generate_quest_badge] does not mutate any image object that
    existed before the call: whatever the inputs, the environment and the
    outcome (a buffer or [None]), the heap after the call starts with the heap
    before it, object by object, with mode, size and pixel data unchanged.
    This covers the image passed as [icon_image] and every image the icon
    cache refers to; the objects the call creates (the badge, the converted
    icon, the copy that is resized) come after them. *)
Theorem generate_quest_badge_keeps_objects env title description action deadline
    quest_id points icon_image (h : list image) :
  take (length h)
    (generate_quest_badge env title description action deadline quest_id points
       icon_image h).2 = h.
Proof. apply generate_quest_badge_unchanged. Qed.

(** With an RGB icon, as the sample call has it, the icon object is the same
    after the call, and the call has created three objects after it. *)
Example generate_quest_badge_keeps_sample_icon :
  let h' := (generate_quest_badge Sample.env (u "Zo Zo") (u "ZO ZO ZO")
               (u "Photo") (u "ZO O Zo Z") (QInt 209) 111 (Some 0%nat)
               [Sample.icon]).2 in
  h' !! 0%nat = Some Sample.icon /\ length h' = 4%nat.
Proof. vm_compute. split; reflexivity. Qed.

End FrameProofs.

Module TagProofs.
Import BadgeGenerator Spec HeapLogic.


(** Loading the fonts touches no object; on success the fonts are the six
    of [loaded_fonts], and it fails exactly when one of the files does. *)
Lemma load_fonts_result env h :
  (load_fonts env h = (Ok loaded_fonts, h)
   /\ Forall (fun ps => font_fault env ps.1 ps.2 = None) required_fonts)
  \/ exists e ps, load_fonts env h = (Raise e, h)
       /\ ps ∈ required_fonts /\ font_fault env ps.1 ps.2 = Some e.
Proof.
  unfold load_fonts, ImageFont_truetype, bind, check, ret, required_fonts.
  repeat match goal with
  | |- context [font_fault env ?p ?s] =>
      let E := fresh "E" in
      destruct (font_fault env p s) as [e|] eqn:E;
      [ right; exists e, (p, s); split; [done|];
        split; [set_solver | done] | ]
  end.
  left. split; [done|]. repeat constructor; done.
Qed.




End TagProofs.

(** ** The outer [try] of [generate_quest_badge] *)

Module ErrorProofs.
Import BadgeGenerator TagProofs.

Lemma try_except_ret_total {A} (c : M A) (a0 : A) h :
  exists r, (try_except c (fun _ => ret a0) h).1 = Ok r.
Proof.
  unfold try_except, ret. destruct (c h) as [[a|e] h']; cbn; eauto.
Qed.

(** When a font file cannot be loaded, the body of the [try] either returns
    [None] (an [IOError], caught at the font block) or raises. *)
Lemma generate_body_fonts_missing env title description action deadline
    quest_id display_id points icon_image h :
  (exists ps, ps ∈ required_fonts /\ is_Some (font_fault env ps.1 ps.2)) ->
  let r := (generate_body env title description action deadline quest_id
              display_id points icon_image h).1 in
  r = Ok None \/ exists e, r = Raise e.
Proof.
  intros (ps & Hin & He). cbn zeta.
  unfold generate_body, create_premium_badge, try_except_IOError, bind, check,
    alloc.
  destruct (card_fault env _ _ _); cbn; [eauto|].
  match goal with |- context [load_fonts env ?h0] =>
    destruct (load_fonts_result env h0) as [[_ Hall]|(e & ps' & Hl & _)]
  end.
  - exfalso. rewrite Forall_forall in Hall. specialize (Hall ps Hin).
    rewrite Hall in He. by destruct He.
  - rewrite Hl. destruct e; cbn; eauto.
Qed.

(** C1 -- [generate_quest_badge] never lets an exception reach its caller.
    For every input, every heap and every behaviour of the libraries it
    calls, the call returns; whenever the body of its [try] raises, what it
    returns is [None]; and when one of the six required fonts cannot be
    loaded, it returns [None]. *)
Theorem generate_quest_badge_never_raises env title description action
    deadline quest_id points icon_image h :
  let call := generate_quest_badge env title description action deadline
                quest_id points icon_image h in
  (exists r, call.1 = Ok r)
  /\ (forall e,
        (generate_body env title description action deadline quest_id
           (display_id env quest_id) points icon_image h).1 = Raise e ->
        call.1 = Ok None)
  /\ ((exists ps, ps ∈ required_fonts /\ is_Some (font_fault env ps.1 ps.2)) ->
      call.1 = Ok None).
Proof.
  cbn zeta. unfold generate_quest_badge. split; [|split].
  - apply try_except_ret_total.
  - intros e He. unfold try_except.
    destruct (generate_body _ _ _ _ _ _ _ _ _ h) as [[r|e'] h']; cbn in *;
      [discriminate|done].
  - intros Hf. unfold try_except.
    pose proof (generate_body_fonts_missing env title description action
      deadline quest_id (display_id env quest_id) points icon_image h Hf) as Hb.
    cbn zeta in Hb.
    destruct (generate_body _ _ _ _ _ _ _ _ _ h) as [[r|e'] h']; cbn in *.
    + destruct Hb as [Hb|[e Hb]]; [done|discriminate].
    + done.
Qed.

(** With no font file to open, the sample call returns [None]. *)
Lemma generate_quest_badge_never_raises_witness :
  (exists ps, ps ∈ required_fonts
     /\ is_Some (font_fault Sample.env_no_fonts ps.1 ps.2))
  /\ (generate_quest_badge Sample.env_no_fonts (u "Meet Samurai")
        (u "Take a selfie with samurai at Zo House.")
        (u "Photo on the telegram group") (u "2025-05-04") (QInt 1) 420 None
        []).1 = Ok None.
Proof.
  assert (H : exists ps, ps ∈ required_fonts
     /\ is_Some (font_fault Sample.env_no_fonts ps.1 ps.2)).
  { exists (u "fonts/Montserrat-Bold.ttf", 50). split.
    - apply list_elem_of_here.
    - exists IOError. reflexivity. }
  split; [exact H|].
  exact (proj2 (proj2 (generate_quest_badge_never_raises Sample.env_no_fonts
    (u "Meet Samurai") (u "Take a selfie with samurai at Zo House.")
    (u "Photo on the telegram group") (u "2025-05-04") (QInt 1) 420 None []))
    H).
Defined.

(** With the fonts in place, the same call returns a buffer. *)
Example generate_quest_badge_sample :
  exists buffer,
    (generate_quest_badge Sample.env (u "Meet Samurai")
       (u "Take a selfie with samurai at Zo House.")
       (u "Photo on the telegram group") (u "2025-05-04") (QInt 1) 420 None
       []).1 = Ok (Some buffer).
Proof. eexists. vm_compute. reflexivity. Qed.

End ErrorProofs.

(** ** The quest-id tag *)

Module DisplayIdProofs.
Import BadgeGenerator TagProofs.

Lemma digits_isdigit d : forallb isdigit (digits d) = true.
Proof. induction d; cbn; auto. Qed.

(** Zero padding never shortens: the width is three or the width of the
    plain numeral, whichever is larger. *)
Lemma format_03d_length n :
  length (format_03d n) = Nat.max 3 (length (str n)).
Proof.
  unfold format_03d, str. destruct (Z.to_int n) as [d|d].
  - rewrite length_app, length_replicate. lia.
  - rewrite !length_cons, length_app, length_replicate. lia.
Qed.

Lemma format_03d_isdigit n :
  0 <= n -> forallb isdigit (format_03d n) = true.
Proof.
  intros Hn. destruct n as [|p|p]; [reflexivity| |lia].
  unfold format_03d. cbn [Z.to_int].
  rewrite forallb_app, digits_isdigit, andb_true_r.
  induction (3 - length (digits (Pos.to_uint p)))%nat; cbn; auto.
Qed.

(** Checking a property of every number below one thousand by running it. *)
Lemma below_1000 (P : Z -> bool) :
  forallb (fun k => P (Z.of_nat k)) (seq 0 1000) = true ->
  forall n, 0 <= n < 1000 -> P n = true.
Proof.
  intros H n Hn. rewrite forallb_forall in H.
  specialize (H (Z.to_nat n)). rewrite Z2Nat.id in H by lia.
  apply H, in_seq. lia.
Qed.

Lemma str_short n : 0 <= n < 1000 -> (length (str n) <= 3)%nat.
Proof.
  intros Hn. apply Nat.leb_le.
  revert n Hn. apply (below_1000 (fun n => (length (str n) <=? 3)%nat)).
  vm_compute. reflexivity.
Qed.

Lemma format_03d_three_digits n :
  0 <= n < 1000 ->
  length (format_03d n) = 3%nat /\ forallb isdigit (format_03d n) = true.
Proof.
  intros Hn. split.
  - rewrite format_03d_length. pose proof (str_short n Hn). lia.
  - apply format_03d_isdigit. lia.
Qed.






End DisplayIdProofs.

(** ** What the drawing loops leave on the badge *)

Module LayoutLemmas.
Import BadgeGenerator Spec.

Lemma with_layers_nil im : with_layers im [] = im.
Proof. destruct im. unfold with_layers. cbn. by rewrite app_nil_r. Qed.

Lemma with_layers_app im ps qs :
  with_layers (with_layers im ps) qs = with_layers im (ps ++ qs).
Proof. unfold with_layers. cbn. by rewrite app_assoc. Qed.

Lemma draw_text_spec env badge xy text f h h' im :
  draw_text env badge xy text f h = (Ok tt, h') ->
  h !! badge = Some im ->
  h' = <[badge := with_layers im [PText xy text f]]> h.
Proof.
  unfold draw_text, bind, check, update. intros E Him.
  destruct (text_fault env xy text f); [discriminate|].
  rewrite Him in E. by injection E as <-.
Qed.

Lemma draw_text_lookup env badge xy text f h h' im :
  draw_text env badge xy text f h = (Ok tt, h') ->
  h !! badge = Some im ->
  h' !! badge = Some (with_layers im [PText xy text f]).
Proof.
  intros E Him. rewrite (draw_text_spec _ _ _ _ _ _ _ _ E Him).
  apply list_lookup_insert_eq. by eapply lookup_lt_Some.
Qed.

Lemma line_layers_cons x y pitch f line rest :
  line_layers x y pitch f (line :: rest)
  = PText (inject_Z x, inject_Z y) line f :: line_layers x (y + pitch) pitch f rest.
Proof.
  unfold line_layers. cbn. f_equal.
  - by rewrite Z.mul_0_r, Z.add_0_r.
  - apply imap_ext. intros i l _. cbn. do 3 f_equal. lia.
Qed.

(** A loop of [draw_lines] that completes has drawn every line, line [i] at
    height [y + pitch * i], and returns [y + pitch * (number of lines)]. *)
Lemma draw_lines_spec env badge x pitch f lines : forall y h y' h' im,
  draw_lines env badge x y pitch f lines h = (Ok y', h') ->
  h !! badge = Some im ->
  y' = y + pitch * Z.of_nat (length lines)
  /\ h' !! badge = Some (with_layers im (line_layers x y pitch f lines)).
Proof.
  induction lines as [|line rest IH]; intros y h y' h' im E Him.
  - cbn in E. injection E as <- <-. split; [cbn; lia|].
    by rewrite with_layers_nil.
  - cbn [draw_lines] in E. unfold bind at 1 in E.
    destruct (draw_text env badge _ line f h) as [[[]|e] h1] eqn:E1;
      [|discriminate].
    pose proof (draw_text_lookup _ _ _ _ _ _ _ _ E1 Him) as Him1.
    destruct (IH _ _ _ _ _ E Him1) as [-> Hl]. split.
    + cbn [length]. lia.
    + rewrite Hl, with_layers_app, line_layers_cons. done.
Qed.

(** [sep.join] of a list extended by one word. *)
Lemma join_snoc sep ws w :
  ws <> [] -> join sep (ws ++ [w]) = join sep ws ++ sep ++ w.
Proof.
  induction ws as [|a ws IH]; [done|]. intros _.
  destruct ws as [|b ws]; [done|].
  change (join sep ((a :: b :: ws) ++ [w]))
    with (a ++ sep ++ join sep ((b :: ws) ++ [w])).
  rewrite IH by done. cbn [join]. by rewrite <- !app_assoc.
Qed.

End LayoutLemmas.

(** ** The title block *)

Module TitleProofs.
Import BadgeGenerator Spec LayoutLemmas.

Section WithEnv.

Context (env : Env) (f : font).

Local Abbreviation fits := (Spec.fits env f).
Local Abbreviation overflows := (Spec.overflows env f).
Local Abbreviation lines_ok := (Spec.lines_ok env f).
Local Abbreviation maximal := (Spec.maximal env f).

Lemma maximal_cons g w g' tl :
  overflows (join (u " ") (g ++ [w])) ->
  maximal ((w :: g') :: tl) ->
  maximal (g :: (w :: g') :: tl).
Proof.
  intros Ho Hm [|i] g1 w1 g1' H1 H2; cbn in *.
  - by simplify_eq.
  - by eapply Hm.
Qed.

Lemma maximal_single g : maximal [g].
Proof. intros [|i] g1 w1 g1' H1 H2; cbn in *; done. Qed.

Lemma maximal_take n gs : maximal gs -> maximal (take n gs).
Proof.
  intros Hm i g w g' H1 H2.
  apply lookup_take_Some in H1 as [H1 _].
  apply lookup_take_Some in H2 as [H2 _].
  by eapply Hm.
Qed.

(** The loop of lines 287-295, on groups of words: started with the words
    [cw] on the current line, it returns the lines of a greedy grouping of
    [cw ++ words]. *)
Lemma title_wrap_spec words : forall lines cw L,
  cw <> [] ->
  (length cw = 1%nat \/ fits (join (u " ") cw)) ->
  title_wrap env f words lines (join (u " ") cw) = Ok L ->
  exists ext tl,
    L = lines ++ map (join (u " ")) ((cw ++ ext) :: tl)
    /\ (cw ++ ext) ++ concat tl = cw ++ words
    /\ lines_ok ((cw ++ ext) :: tl)
    /\ maximal ((cw ++ ext) :: tl).
Proof.
  induction words as [|word rest IH]; intros lines cw L Hne Hcw E.
  - cbn in E. injection E as <-. exists [], [].
    rewrite !app_nil_r. repeat split; [|apply maximal_single].
    by constructor.
  - cbn [title_wrap] in E.
    destruct (textlength env f (join (u " ") cw ++ u " " ++ word)) as [w|e] eqn:Ew;
      [|discriminate].
    cbn [ebind] in E.
    destruct (Qle_bool w (inject_Z title_max_width)) eqn:Hw.
    + rewrite <- join_snoc in E, Ew by done.
      destruct (IH lines (cw ++ [word]) L) as (ext & tl & HL & Hc & Hok & Hm);
        [by destruct cw | right; by exists w | done |].
      exists (word :: ext), tl.
      rewrite <- !app_assoc in HL, Hc, Hok, Hm. cbn [app] in HL, Hc, Hok, Hm.
      split; [done|]. split; [|done].
      rewrite <- !app_assoc in Hc. rewrite <- app_assoc. exact Hc.
    + change word with (join (u " ") [word]) in E.
      destruct (IH (lines ++ [join (u " ") cw]) [word] L)
        as (ext & tl & HL & Hc & Hok & Hm); [done|by left|done|].
      exists [], ((word :: ext) :: tl). rewrite app_nil_r.
      repeat split.
      * rewrite HL, <- app_assoc. done.
      * cbn in Hc |- *. by rewrite Hc.
      * constructor; [done|]. exact Hok.
      * apply maximal_cons; [|exact Hm].
        rewrite join_snoc by done. by exists w.
Qed.

Lemma concat_take_prefix {A} n (gs : list (list A)) :
  concat (take n gs) `prefix_of` concat gs.
Proof.
  rewrite <- (take_drop n gs) at 2. rewrite concat_app. by eexists.
Qed.

(** Lines 283-296 on groups of words. *)
Lemma title_lines_spec words L :
  title_lines env f words = Ok L ->
  exists gs,
    L = map (join (u " ")) gs
    /\ concat gs `prefix_of` words
    /\ (length gs <= 2)%nat
    /\ (concat gs = words \/ length gs = 2%nat)
    /\ lines_ok gs
    /\ maximal gs.
Proof.
  unfold title_lines. destruct words as [|w0 rest]; [discriminate|].
  cbn [ebind tail].
  destruct (title_wrap env f rest [] w0) as [L0|e] eqn:E; [|discriminate].
  cbn [ebind]. intros [= <-].
  change w0 with (join (u " ") [w0]) in E.
  destruct (title_wrap_spec rest [] [w0] L0) as (ext & tl & HL & Hc & Hok & Hm);
    [done|by left|done|].
  cbn [app] in HL, Hc, Hok, Hm.
  exists (take 2 ((w0 :: ext) :: tl)). repeat split.
  - by rewrite HL, firstn_map.
  - cbn [app] in Hc. rewrite <- Hc.
    apply (concat_take_prefix 2 ((w0 :: ext) :: tl)).
  - rewrite length_take. lia.
  - destruct (decide (length ((w0 :: ext) :: tl) <= 2)%nat) as [Hle|Hgt].
    + left. rewrite take_ge by done. exact Hc.
    + right. rewrite length_take. lia.
  - by apply Forall_take.
  - by apply maximal_take.
Qed.

End WithEnv.

(** C3, as the code has it -- a title block that is drawn shows words of the
    first three whitespace-separated words of the title only, in order, on
    at most two lines (a third line is dropped); when the three words
    together fit [width - 300] they form one line, otherwise they are wrapped
    greedily; each line fits that limit or is a single word, and a line
    starts where its first word no longer fitted behind the line before;
    line [i] is drawn at [(40, 160 + (font size - 5) * i)]. *)
Theorem draw_title_layout env badge f title h im desc_y h' :
  draw_title env badge f title h = (Ok desc_y, h') ->
  h !! badge = Some im ->
  exists gs : list (list (list N)),
    concat gs `prefix_of` take 3 (split title)
    /\ (length gs <= 2)%nat
    /\ (concat gs = take 3 (split title) \/ length gs = 2%nat)
    /\ lines_ok env f gs
    /\ maximal env f gs
    /\ h' !! badge =
         Some (with_layers im
                 (line_layers 40 160 (font_size f - 5) f (map (join (u " ")) gs)))
    /\ ((fits env f (join (u " ") (take 3 (split title)))
         /\ gs = [take 3 (split title)] /\ desc_y = 230)
        \/ (overflows env f (join (u " ") (take 3 (split title)))
            /\ desc_y = 160 + (font_size f - 5) * Z.of_nat (length gs) + 40)).
Proof.
  unfold draw_title, title_words. intros E Him.
  unfold bind at 1, lift in E.
  destruct (textlength env f (join (u " ") (take 3 (split title)))) as [w|e] eqn:Ew;
    [|discriminate].
  unfold Qgtb in E.
  destruct (Qle_bool w (inject_Z title_max_width)) eqn:Hw; cbn [negb] in E.
  - (* one line *)
    unfold bind, ret in E.
    destruct (draw_text env badge _ _ f h) as [[[]|e] h1] eqn:E1; [|discriminate].
    injection E as <- <-.
    exists [take 3 (split title)]. cbn [concat length map]. rewrite app_nil_r.
    split_and!.
    + done.
    + lia.
    + by left.
    + constructor; [|done]. right. by exists w.
    + apply maximal_single.
    + rewrite (draw_text_lookup _ _ _ _ _ _ _ _ E1 Him).
      unfold line_layers. cbn [imap]. by rewrite Z.mul_0_r, Z.add_0_r.
    + left. split_and!; [by exists w|done|done].
  - (* wrapped *)
    unfold bind at 1, lift in E.
    destruct (title_lines env f (take 3 (split title))) as [L|e] eqn:EL;
      [|discriminate].
    unfold bind, ret in E.
    destruct (draw_lines env badge 40 160 (font_size f - 5) f L h)
      as [[y|e] h1] eqn:Ed; [|discriminate].
    injection E as <- <-.
    destruct (title_lines_spec env f _ _ EL) as (gs & -> & Hp & Hlen & Hall & Hok & Hm).
    destruct (draw_lines_spec _ _ _ _ _ _ _ _ _ _ _ Ed Him) as [-> Hl].
    exists gs. split_and!; try done.
    right. split; [by exists w|]. by rewrite length_map.
Qed.

(** The title "Meet The Supercalifragilistic Samurai" on the sample face
    (30 pixels a character at 50 points): "Meet The" and, 45 pixels below,
    "Supercalifragilistic"; "Samurai" is the fourth word and is not laid
    out. *)
Lemma draw_title_layout_witness :
  exists h' gs,
    draw_title Sample.env 0%nat (title_font loaded_fonts)
      (u "Meet The Supercalifragilistic Samurai") [Sample.card] = (Ok 290, h')
    /\ (length gs <= 2)%nat
    /\ lines_ok Sample.env (title_font loaded_fonts) gs
    /\ h' !! 0%nat =
         Some (with_layers Sample.card
                 (line_layers 40 160 45 (title_font loaded_fonts)
                    (map (join (u " ")) gs))).
Proof.
  destruct (draw_title Sample.env 0%nat (title_font loaded_fonts)
      (u "Meet The Supercalifragilistic Samurai") [Sample.card])
    as [r h'] eqn:E.
  assert (r = Ok 290) as ->.
  { apply (f_equal fst) in E. vm_compute in E. symmetry. exact E. }
  destruct (draw_title_layout _ _ _ _ _ Sample.card _ _ E eq_refl)
    as (gs & Hp & Hlen & Hall & Hok & Hm & Hl & Hd).
  exists h', gs. split_and!; [reflexivity|exact Hlen|exact Hok|exact Hl].
Defined.

(** C3, as stated, fails -- the second line of that title is drawn although
    it does not fit the limit: it measures 600 pixels against 500. *)
Lemma title_line_exceeds_limit :
  title_lines Sample.env (title_font loaded_fonts)
    (title_words (u "Meet The Supercalifragilistic Samurai"))
  = Ok [u "Meet The"; u "Supercalifragilistic"]
  /\ textlength Sample.env (title_font loaded_fonts) (u "Supercalifragilistic")
     = Ok (6000 # 10)
  /\ Qgtb (6000 # 10) (inject_Z title_max_width) = true
  /\ exists b,
       (generate_quest_badge Sample.env
          (u "Meet The Supercalifragilistic Samurai")
          (u "Take a selfie with samurai at Zo House.")
          (u "Photo on the telegram group") (u "2025-05-04") (QInt 1) 420 None
          []).1 = Ok (Some b)
       /\ im_data b !! 4%nat =
            Some (PText (inject_Z 40, inject_Z 205) (u "Supercalifragilistic")
                    (title_font loaded_fonts)).
Proof.
  split; [vm_compute; reflexivity|].
  split; [vm_compute; reflexivity|].
  split; [vm_compute; reflexivity|].
  eexists. split; vm_compute; reflexivity.
Qed.

End TitleProofs.

(** ** The description block *)

Module DescriptionProofs.
Import BadgeGenerator Spec LayoutLemmas.

(** C4 -- a description of more than ten words is rendered as its first ten
    words joined by single spaces and followed by "...", one of ten words or
    fewer is taken as it is; the text is wrapped by [textwrap.wrap] at 28
    characters, with no text measurement involved; line [i] of the result is
    drawn at [(40, desc_y + 35 * i)] and the cursor ends 35 pixels further
    for every line. *)
Theorem draw_description_layout env badge f description desc_y h im y' h' :
  draw_description env badge f description desc_y h = (Ok y', h') ->
  h !! badge = Some im ->
  exists text,
    (((10 < length (split description))%nat
      /\ text = join (u " ") (take 10 (split description)) ++ u "...")
     \/ ((length (split description) <= 10)%nat /\ text = description))
    /\ h' !! badge =
         Some (with_layers im
                 (line_layers 40 desc_y 35 f (textwrap_wrap env text 28)))
    /\ y' = desc_y + 35 * Z.of_nat (length (textwrap_wrap env text 28)).
Proof.
  unfold draw_description. intros E Him.
  destruct (draw_lines_spec _ _ _ _ _ _ _ _ _ _ _ E Him) as [-> Hl].
  exists (truncate_description description). split_and!; [|done|done].
  unfold truncate_description.
  destruct (10 <? length (split description))%nat eqn:Hlen.
  - left. apply Nat.ltb_lt in Hlen. done.
  - right. apply Nat.ltb_ge in Hlen. done.
Qed.

(** An eleven-word description: ten words and the ellipsis, on two lines. *)
Lemma draw_description_layout_witness :
  exists h',
    draw_description Sample.env 0%nat (body_font loaded_fonts)
      (u "one two three four five six seven eight nine ten eleven") 230
      [Sample.card] = (Ok 300, h')
    /\ h' !! 0%nat =
         Some (with_layers Sample.card
                 (line_layers 40 230 35 (body_font loaded_fonts)
                    [u "one two three four five six"; u "seven eight nine ten..."])).
Proof.
  destruct (draw_description Sample.env 0%nat (body_font loaded_fonts)
      (u "one two three four five six seven eight nine ten eleven") 230
      [Sample.card]) as [r h'] eqn:E.
  assert (r = Ok 300) as ->.
  { apply (f_equal fst) in E. vm_compute in E. symmetry. exact E. }
  destruct (draw_description_layout _ _ _ _ _ _ Sample.card _ _ E eq_refl)
    as (text & [[_ ->]|[Hlen _]] & Hl & _).
  - exists h'. split; [reflexivity|]. exact Hl.
  - exfalso. vm_compute in Hlen. lia.
Defined.

End DescriptionProofs.

(** ** The points pill *)

Module PillProofs.
Import BadgeGenerator.

(** The decimal rendering of a non-negative integer consists of digits. *)
Lemma str_isdigit n : 0 <= n -> forallb isdigit (str n) = true.
Proof.
  intros Hn. unfold str. destruct n as [|p|p]; [reflexivity| |lia].
  cbn [Z.to_int]. apply DisplayIdProofs.digits_isdigit.
Qed.

(** C5, as the code has it -- the pill is as wide as the measured text of
    [str(points)] plus 80 pixels, and 70 pixels high. On a face whose digits
    all advance by the same positive amount [adv], the rendering of a
    non-negative [points] with fewer digits gives a strictly narrower pill. *)
Theorem points_pill_width env f :
  (forall points p,
     points_pill env f points = Ok p ->
     textlength env f (str points) = Ok (points_width p)
     /\ button_width p = (points_width p + 80)%Q
     /\ button_height p = 70)
  /\ (forall adv points1 points2,
        (forall s, forallb isdigit s = true ->
                   exists w, textlength env f s = Ok w
                             /\ (w == adv * inject_Z (Z.of_nat (length s)))%Q) ->
        (0 < adv)%Q ->
        0 <= points1 -> 0 <= points2 ->
        (length (str points1) < length (str points2))%nat ->
        exists p1 p2,
          points_pill env f points1 = Ok p1
          /\ points_pill env f points2 = Ok p2
          /\ (button_width p1 < button_width p2)%Q).
Proof.
  split.
  - intros points p. unfold points_pill.
    destruct (textlength env f (str points)) as [w|e]; [|discriminate].
    cbn. intros [= <-]. done.
  - intros adv points1 points2 Htab Hadv H1 H2 Hlen.
    unfold points_pill.
    destruct (Htab (str points1) (str_isdigit _ H1)) as (w1 & -> & Hw1).
    destruct (Htab (str points2) (str_isdigit _ H2)) as (w2 & -> & Hw2).
    cbn [ebind].
    eexists _, _. split_and!; [reflexivity|reflexivity|]. cbn [button_width].
    rewrite Hw1, Hw2.
    apply Qplus_lt_le_compat; [|apply Qle_refl].
    apply Qmult_lt_l; [done|].
    rewrite <- Zlt_Qlt. lia.
Qed.

(** On the monospaced sample face, 9 points give a narrower pill than 999. *)
Lemma points_pill_width_witness :
  exists p1 p2,
    points_pill Sample.env (points_font loaded_fonts) 9 = Ok p1
    /\ points_pill Sample.env (points_font loaded_fonts) 999 = Ok p2
    /\ (button_width p1 < button_width p2)%Q.
Proof.
  apply (proj2 (points_pill_width Sample.env (points_font loaded_fonts)) 48%Q).
  - intros s _. eexists. split; [reflexivity|].
    unfold Sample.monospaced, Qeq, Qmult, inject_Z. cbn. lia.
  - reflexivity.
  - lia.
  - lia.
  - vm_compute. lia.
Defined.

(** C5, as stated, fails -- on a face with proportional figures (the digit
    one narrower than the eight), 88 points render with fewer digits than 111
    and yet give the wider pill. *)
Lemma fewer_digits_wider_pill :
  (length (str 88) < length (str 111))%nat
  /\ exists p1 p2,
       points_pill Sample.env_proportional (points_font loaded_fonts) 88 = Ok p1
       /\ points_pill Sample.env_proportional (points_font loaded_fonts) 111 = Ok p2
       /\ (button_width p2 < button_width p1)%Q.
Proof.
  split; [vm_compute; lia|].
  eexists _, _. split_and!; [vm_compute; reflexivity..|].
  vm_compute. reflexivity.
Qed.

End PillProofs.

(** ** The action and deadline rows *)

Module ActionProofs.
Import BadgeGenerator Spec LayoutLemmas.





(** C6, evaluated -- the action "Post Supercalifragilisticexpialidocious"
    against a 420-point pill on the sample face. The second word alone is
    wider than the room left of the pill, and it is drawn in full on a line of
    its own, not cut to ten characters and an ellipsis. Only a first word that
    is too wide is cut, and then every word after it is dropped. *)
Theorem wrap_action_keeps_long_word :
  wrap_action Sample.env (body_font loaded_fonts) (2866 # 10)
    (u "Post Supercalifragilisticexpialidocious")
  = Ok [u "Post"; u "Supercalifragilisticexpialidocious"]
  /\ (exists w,
        textlength Sample.env (body_font loaded_fonts)
          (u "Supercalifragilisticexpialidocious") = Ok w
        /\ Qgtb w (2866 # 10) = true)
  /\ (exists b xy,
        (generate_quest_badge Sample.env (u "Zo Zo") (u "ZO ZO ZO")
           (u "Post Supercalifragilisticexpialidocious") (u "ZO O Zo Z")
           (QInt 209) 420 None []).1 = Ok (Some b)
        /\ im_data b !! 7%nat
           = Some (PText xy (u "Supercalifragilisticexpialidocious")
                     (body_font loaded_fonts)))
  /\ wrap_action Sample.env (body_font loaded_fonts) (2866 # 10)
       (u "Supercalifragilisticexpialidocious now")
     = Ok [u "Supercalif..."].
Proof.
  split; [vm_compute; reflexivity|].
  split; [eexists; split; vm_compute; reflexivity|].
  split; [eexists _, _; split; vm_compute; reflexivity|].
  vm_compute; reflexivity.
Qed.

End ActionProofs.

(** ** The icon cache *)

Module IconProofs.
Import IconProvider Spec.

Lemma default_is_category : ICON_CATEGORIES !! u "default" = Some default_config.
Proof. vm_compute. reflexivity. Qed.

Lemma known_default : known (u "default") = true.
Proof.
  unfold known. apply bool_decide_eq_true. rewrite default_is_category. eauto.
Qed.

Lemma is_default_default : is_default (u "default") = true.
Proof. unfold is_default. by apply bool_decide_eq_true. Qed.

Lemma known_lookup category :
  known category = true -> exists config, ICON_CATEGORIES !! category = Some config.
Proof. unfold known. intros H. apply bool_decide_eq_true in H. exact H. Qed.

Section WithEnv.

Context (env : Env) (ICONS_DIR : list N).

Local Abbreviation outcome := (Spec.outcome env ICONS_DIR).

(** A load that succeeds found the file readable, created the file image and
    its RGBA conversion, and returns the latter; no other object changes. *)
Lemma load_icon_ok filepath h0 icon h' :
  load_icon env filepath h0 = (Ok icon, h') ->
  exists file_im im,
    h' = h0 ++ [file_im; im] /\ icon = S (length h0) /\ loaded_from filepath im
    /\ (exists m size, image_open env filepath = Ok (m, size)).
Proof.
  unfold load_icon, Image_open, convert, bind, lift, check, alloc, deref.
  destruct (image_open env filepath) as [[m size]|e]; [|discriminate].
  rewrite lookup_app_r by done. rewrite Nat.sub_diag. cbn [lookup list_lookup].
  destruct (convert_fault env _ _); [discriminate|].
  intros [= <- <-]. eexists _, _. split_and!.
  - by rewrite <- app_assoc.
  - rewrite length_app. cbn. lia.
  - by split.
  - eauto.
Qed.

(** A load that fails leaves every existing object as it was. *)
Lemma load_icon_raise filepath h0 e h' :
  load_icon env filepath h0 = (Raise e, h') -> h0 `prefix_of` h'.
Proof.
  unfold load_icon, Image_open, convert, bind, lift, check, alloc, deref.
  destruct (image_open env filepath) as [[m size]|e0].
  - rewrite lookup_app_r by done. rewrite Nat.sub_diag. cbn [lookup list_lookup].
    destruct (convert_fault env _ _); [|discriminate].
    intros [= <- <-]. by eexists.
  - intros [= <- <-]. done.
Qed.

Lemma outcome_later st h1 r st' :
  objects st `prefix_of` h1 ->
  outcome {| ICON_CACHE := ICON_CACHE st; objects := h1 |} r st' ->
  outcome st r st'.
Proof.
  intros Hp Ho. inversion Ho; subst; cbn [ICON_CACHE objects] in *.
  - eapply outcome_hit; [done|]. by etrans.
  - apply outcome_fail. by etrans.
  - apply (outcome_load env ICONS_DIR st key config icon h0 h'); [done|done|by etrans|done|done].
Qed.

Lemma state_eta st : {| ICON_CACHE := ICON_CACHE st; objects := objects st |} = st.
Proof. by destruct st. Qed.

Lemma outcome_hit_same st key icon :
  ICON_CACHE st !! key = Some icon -> outcome st (Ok (Some icon)) st.
Proof.
  intros H. pose proof (outcome_hit env ICONS_DIR st key icon (objects st) H) as Ho.
  rewrite state_eta in Ho. by apply Ho.
Qed.

Lemma outcome_fail_same st : outcome st (Ok None) st.
Proof.
  pose proof (outcome_fail env ICONS_DIR st (objects st)) as Ho.
  rewrite state_eta in Ho. by apply Ho.
Qed.

(** The call for ["default"] does not recurse. *)
Lemma body_default_outcome self st :
  outcome st (get_icon_by_category_body env ICONS_DIR self (u "default") st).1
             (get_icon_by_category_body env ICONS_DIR self (u "default") st).2.
Proof.
  unfold get_icon_by_category_body.
  rewrite known_default, default_is_category, is_default_default.
  destruct (ICON_CACHE st !! u "default") as [icon|] eqn:Ec; cbn.
  { by eapply outcome_hit_same. }
  destruct (path_exists env _) eqn:Ep; cbn.
  2: { apply outcome_fail_same. }
  destruct (load_icon env _ (objects st)) as [[icon|e] h] eqn:El; cbn.
  - by eapply outcome_load.
  - apply outcome_fail. by eapply load_icon_raise.
Qed.

(** The body only ever calls itself for ["default"]. *)
Lemma body_ext self1 self2 :
  (forall st, self1 (u "default") st = self2 (u "default") st) ->
  forall category st,
    get_icon_by_category_body env ICONS_DIR self1 category st
    = get_icon_by_category_body env ICONS_DIR self2 category st.
Proof.
  intros H category st. unfold get_icon_by_category_body.
  destruct (ICON_CACHE st !! _); [done|].
  destruct (ICON_CATEGORIES !! _); [|done].
  destruct (path_exists env _); cbn [negb].
  - destruct (load_icon env _ (objects st)) as [[icon|e] h]; [done|].
    destruct (is_default _); [done|]. apply H.
  - destruct (is_default _); [done|]. rewrite H.
    destruct (self2 (u "default") st) as [[r|e] st1]; [done|]. apply H.
Qed.

(** The two levels written out in [get_icon_by_category] satisfy the
    recursive equation of the source function. *)
Lemma get_icon_by_category_unfold category st :
  get_icon_by_category env ICONS_DIR category st
  = get_icon_by_category_body env ICONS_DIR
      (get_icon_by_category env ICONS_DIR) category st.
Proof.
  unfold get_icon_by_category at 1. apply body_ext. intros st0.
  unfold get_icon_by_category. symmetry.
  unfold get_icon_by_category_body at 1 2.
  rewrite known_default, default_is_category, is_default_default.
  reflexivity.
Qed.

Lemma get_icon_by_category_outcome category st :
  outcome st (get_icon_by_category env ICONS_DIR category st).1
             (get_icon_by_category env ICONS_DIR category st).2.
Proof.
  pose (self := get_icon_by_category_body env ICONS_DIR
                  (fun _ st => (Raise (OtherException "RecursionError"), st))).
  change (get_icon_by_category env ICONS_DIR category st)
    with (get_icon_by_category_body env ICONS_DIR self category st).
  assert (Hself : forall st0, outcome st0 (self (u "default") st0).1
                                       (self (u "default") st0).2)
    by (intros; apply body_default_outcome).
  destruct (decide ((if known category then category else u "default")
                    = u "default")) as [Hd|Hd].
  { (* the call is, in effect, the call for "default" *)
    assert (get_icon_by_category_body env ICONS_DIR self category st
            = get_icon_by_category_body env ICONS_DIR self (u "default") st) as ->.
    { unfold get_icon_by_category_body. by rewrite Hd, known_default. }
    apply body_default_outcome. }
  unfold get_icon_by_category_body.
  destruct (known category) eqn:Hk; [|done].
  assert (is_default category = false) as -> by (by apply bool_decide_eq_false).
  destruct (known_lookup _ Hk) as [config Hc]. rewrite Hc.
  destruct (ICON_CACHE st !! category) as [icon|] eqn:Ec; cbn.
  { by eapply outcome_hit_same. }
  destruct (path_exists env _) eqn:Ep; cbn.
  2: { specialize (Hself st).
       destruct (self (u "default") st) as [[r|e] st1] eqn:Es; cbn in *; [done|].
       inversion Hself. }
  destruct (load_icon env _ (objects st)) as [[icon|e] h] eqn:El; cbn.
  - by apply (outcome_load env ICONS_DIR st category config icon (objects st) h).
  - apply (outcome_later st h); [by eapply load_icon_raise|]. apply Hself.
Qed.

End WithEnv.

Section Cache.

Context (ICONS_DIR : list N).

Local Abbreviation cache_ok := (Spec.cache_ok ICONS_DIR).
Local Abbreviation reachable := (Spec.reachable ICONS_DIR).

Lemma cache_ok_later cache h h' :
  cache_ok {| ICON_CACHE := cache; objects := h |} ->
  h `prefix_of` h' ->
  cache_ok {| ICON_CACHE := cache; objects := h' |}.
Proof.
  intros Hok Hp key icon Hk. destruct (Hok key icon Hk) as (config & im & ? & Hl & ?).
  exists config, im. split_and!; [done| |done].
  cbn in *. by eapply prefix_lookup_Some.
Qed.

Lemma cache_ok_outcome env st r st' :
  cache_ok st -> outcome env ICONS_DIR st r st' -> cache_ok st'.
Proof.
  intros Hok Ho. rewrite <- (state_eta st) in Hok.
  inversion Ho as [key icon h' Hk Hp|h' Hp|key config icon h0 h' Hc Hk Hp He Hl];
    subst.
  - by eapply cache_ok_later.
  - by eapply cache_ok_later.
  - destruct (load_icon_ok _ _ _ _ _ Hl) as (file_im & im & -> & -> & Him & _).
    intros k i Hki. cbn [ICON_CACHE objects] in *.
    destruct (decide (key = k)) as [->|Hne].
    + rewrite lookup_insert_eq in Hki. injection Hki as <-.
      exists config, im. split_and!; [done| |done].
      rewrite lookup_app_r by lia.
      replace (S (length h0) - length h0)%nat with 1%nat by lia. done.
    + rewrite lookup_insert_ne in Hki by done.
      destruct (Hok k i Hki) as (config' & im' & ? & Hl' & ?).
      exists config', im'. split_and!; [done| |done]. cbn in Hl'.
      apply lookup_app_l_Some. by eapply prefix_lookup_Some.
Qed.

Lemma reachable_cache_ok st : reachable st -> cache_ok st.
Proof.
  induction 1 as [|env category st _ IH|env t d a dl q p i st _ IH].
  - intros key icon Hk. cbn in Hk. by rewrite lookup_empty in Hk.
  - eapply cache_ok_outcome; [exact IH|]. apply get_icon_by_category_outcome.
  - rewrite <- (state_eta st) in IH. eapply cache_ok_later; [exact IH|].
    pose proof (FrameProofs.generate_quest_badge_unchanged env t d a dl q p i
                  (objects st)) as Hu.
    unfold Spec.unchanged in Hu. rewrite <- Hu at 1.
    apply prefix_take.
Qed.

Lemma unknown_lookup category :
  known category = false -> ICON_CATEGORIES !! category = None.
Proof.
  unfold known. intros H. apply bool_decide_eq_false in H.
  by apply eq_None_not_Some.
Qed.

(** An unknown category is handled as ["default"]. *)
Lemma unknown_is_default env category st :
  known category = false ->
  get_icon_by_category env ICONS_DIR category st
  = get_icon_by_category env ICONS_DIR (u "default") st.
Proof.
  intros Hk. unfold get_icon_by_category, get_icon_by_category_body at 1 3.
  by rewrite Hk, known_default.
Qed.

(** C9 -- the icon cache only ever maps keys of [ICON_CATEGORIES] to RGBA
    images decoded from the file of the key: this holds in every reachable
    module state. A call of [get_icon_by_category] returns and never raises;
    it keeps every entry the cache has; an entry it adds is the icon it
    returns, added after the file of that key was found and loaded; a call
    that returns [None] leaves the cache as it was; an unknown category is
    handled as ["default"] and leaves no entry under its own name; and a
    category that is not cached is loaded from the file system again. *)
Theorem icon_cache_invariant :
  (forall st, reachable st -> cache_ok st)
  /\ (forall env category st,
        let r := (get_icon_by_category env ICONS_DIR category st).1 in
        let st' := (get_icon_by_category env ICONS_DIR category st).2 in
        (exists o, r = Ok o)
        /\ (forall key icon,
              ICON_CACHE st !! key = Some icon -> ICON_CACHE st' !! key = Some icon)
        /\ (forall key icon,
              ICON_CACHE st !! key = None -> ICON_CACHE st' !! key = Some icon ->
              r = Ok (Some icon)
              /\ exists config h0,
                   ICON_CATEGORIES !! key = Some config
                   /\ path_exists env (filepath_of ICONS_DIR key config) = true
                   /\ load_icon env (filepath_of ICONS_DIR key config) h0
                      = (Ok icon, objects st'))
        /\ (r = Ok None -> ICON_CACHE st' = ICON_CACHE st)
        /\ (known category = false ->
            get_icon_by_category env ICONS_DIR category st
            = get_icon_by_category env ICONS_DIR (u "default") st
            /\ ICON_CACHE st' !! category = ICON_CACHE st !! category))
  /\ (forall env category config st icon h1,
        ICON_CATEGORIES !! category = Some config ->
        ICON_CACHE st !! category = None ->
        path_exists env (filepath_of ICONS_DIR category config) = true ->
        load_icon env (filepath_of ICONS_DIR category config) (objects st)
        = (Ok icon, h1) ->
        get_icon_by_category env ICONS_DIR category st
        = (Ok (Some icon),
           {| ICON_CACHE := <[category := icon]> (ICON_CACHE st);
              objects := h1 |})).
Proof.
  split_and!.
  - apply reachable_cache_ok.
  - intros env category st r st'.
    pose proof (get_icon_by_category_outcome env ICONS_DIR category st) as Ho.
    fold r st' in Ho. clearbody r st'.
    split_and!.
    + inversion Ho; eauto.
    + intros key icon Hk. inversion Ho as [| |k ? ? ? ? ? Hn]; subst;
        cbn [ICON_CACHE]; try done.
      rewrite lookup_insert_ne; [done|]. intros ->. congruence.
    + intros key icon Hn Hs.
      inversion Ho as [| |k config i h0 h' Hc Hk Hp He Hl]; subst;
        cbn [ICON_CACHE objects] in *; try congruence.
      destruct (decide (k = key)) as [->|Hne].
      * rewrite lookup_insert_eq in Hs. injection Hs as ->.
        split; [done|]. eauto.
      * rewrite lookup_insert_ne in Hs by done. congruence.
    + intros Hr. inversion Ho; subst; cbn [ICON_CACHE]; try done; discriminate.
    + intros Hk. split; [by apply unknown_is_default|].
      inversion Ho as [| |k config i h0 h' Hc]; subst; cbn [ICON_CACHE];
        try done.
      rewrite lookup_insert_ne; [done|]. intros ->.
      rewrite (unknown_lookup _ Hk) in Hc. discriminate.
  - intros env category config st icon h1 Hc Hn He Hl.
    unfold get_icon_by_category, get_icon_by_category_body at 1.
    assert (known category = true) as ->.
    { unfold known. apply bool_decide_eq_true. rewrite Hc. eauto. }
    by rewrite Hn, Hc, He, Hl.
Qed.

End Cache.

(** With no icon file on disk a call for "Sports" returns [None] and caches
    nothing; with the files in place a call for the unknown "zomusic" returns
    the default icon, cached under "default" and not under "zomusic"; the
    state after it is reachable, so its cache is well-formed. *)
Lemma icon_cache_invariant_witness :
  let st1 := (get_icon_by_category Sample.env_no_icons Sample.ICONS_DIR
                (u "Sports") initial_state).2 in
  let st2 := (get_icon_by_category Sample.env Sample.ICONS_DIR (u "zomusic")
                initial_state).2 in
  ICON_CACHE st1 = ICON_CACHE initial_state
  /\ (get_icon_by_category Sample.env Sample.ICONS_DIR (u "zomusic") initial_state
      = get_icon_by_category Sample.env Sample.ICONS_DIR (u "default") initial_state
      /\ ICON_CACHE st2 !! u "zomusic" = None)
  /\ ICON_CACHE st2 !! u "default" = Some 1%nat
  /\ cache_ok Sample.ICONS_DIR st2.
Proof.
  cbn zeta.
  destruct (icon_cache_invariant Sample.ICONS_DIR) as (Hinv & Hstep & Hretry).
  split; [|split; [|split]].
  - destruct (Hstep Sample.env_no_icons (u "Sports") initial_state)
      as (_ & _ & _ & Hnone & _).
    apply Hnone. vm_compute. reflexivity.
  - destruct (Hstep Sample.env (u "zomusic") initial_state)
      as (_ & _ & _ & _ & Hunknown).
    apply Hunknown. vm_compute. reflexivity.
  - vm_compute. reflexivity.
  - apply Hinv. apply reachable_get_icon, reachable_initial.
Defined.

End IconProofs.

(** ** Strings, slices and the stable sort *)

Module PyMoreLemmas.

Lemma str_compare_refl s : str_compare s s = Eq.
Proof. induction s as [|a s IH]; cbn; [done|]. by rewrite N.compare_refl. Qed.

Lemma str_compare_antisym s t : str_compare t s = CompOpp (str_compare s t).
Proof.
  revert t. induction s as [|a s IH]; intros [|b t]; cbn; try done.
  rewrite (N.compare_antisym a b). destruct (a ?= b)%N; cbn; auto.
Qed.

Lemma str_compare_eq s t : str_compare s t = Eq -> s = t.
Proof.
  revert t. induction s as [|a s IH]; intros [|b t]; cbn; try done.
  destruct (a ?= b)%N eqn:E; try done.
  apply N.compare_eq in E as ->. intros H. by rewrite (IH _ H).
Qed.

Lemma str_compare_lt_trans s t r :
  str_compare s t = Lt -> str_compare t r = Lt -> str_compare s r = Lt.
Proof.
  revert t r. induction s as [|a s IH]; intros [|b t] [|c r]; cbn; try done.
  destruct (N.compare_spec a b) as [->| |]; try done.
  - destruct (N.compare_spec b c) as [->| |]; try done. apply IH.
  - destruct (N.compare_spec b c) as [->| |]; try done.
    + intros _ _. destruct (N.compare_spec a c); [lia|done|lia].
    + intros _ _. destruct (N.compare_spec a c); [lia|done|lia].
Qed.

Lemma str_lt_irrefl s : str_lt s s = false.
Proof. unfold str_lt. by rewrite str_compare_refl. Qed.

Lemma str_lt_asym s t : str_lt s t = true -> str_lt t s = false.
Proof.
  unfold str_lt. rewrite (str_compare_antisym s t).
  by destruct (str_compare s t).
Qed.

Lemma str_lt_trans s t r :
  str_lt s t = true -> str_lt t r = true -> str_lt s r = true.
Proof.
  unfold str_lt. intros H1 H2.
  destruct (str_compare s t) eqn:E1; try done.
  destruct (str_compare t r) eqn:E2; try done.
  by rewrite (str_compare_lt_trans _ _ _ E1 E2).
Qed.

(** [s >= t] is a total preorder on strings. *)
Lemma str_ge_total s t : str_ge s t = true \/ str_ge t s = true.
Proof.
  unfold str_ge. destruct (str_lt s t) eqn:E; [right|by left].
  by rewrite (str_lt_asym _ _ E).
Qed.

Lemma str_ge_trans s t r :
  str_ge s t = true -> str_ge t r = true -> str_ge s r = true.
Proof.
  unfold str_ge. rewrite !negb_true_iff. intros H1 H2.
  destruct (str_lt s r) eqn:E; [|done]. exfalso.
  unfold str_lt in H1. destruct (str_compare s t) eqn:C; try done.
  - apply str_compare_eq in C as ->. congruence.
  - assert (str_lt t s = true) as H3
      by (unfold str_lt; by rewrite str_compare_antisym, C).
    pose proof (str_lt_trans _ _ _ H3 E). congruence.
Qed.

(** *** [startswith] and [replace] *)

Lemma startswith_app prefix s : startswith (prefix ++ s) prefix = true.
Proof. induction prefix as [|p prefix IH]; cbn; [done|]. by rewrite N.eqb_refl. Qed.

Lemma startswith_prefix s prefix :
  startswith s prefix = true <-> exists rest, s = prefix ++ rest.
Proof.
  revert s. induction prefix as [|p prefix IH]; intros s; cbn.
  - split; [eauto|done].
  - destruct s as [|c s].
    + split; [done|]. by intros [? ?].
    + rewrite andb_true_iff, N.eqb_eq, IH. split.
      * intros [-> [rest ->]]. eauto.
      * intros [rest [= -> ->]]. eauto.
Qed.

(** Dropping what is left of a matched occurrence. *)
Lemma replace_from_skip old new pre s :
  replace_from old new (length pre) (pre ++ s) = replace_from old new 0 s.
Proof.
  induction pre as [|c pre IH]; cbn; [|done].
  by destruct s.
Qed.

(** Replacing in a string that starts with an occurrence. *)
Lemma replace_prefix old new s :
  old <> [] -> replace old new (old ++ s) = new ++ replace old new s.
Proof.
  intros Hold. unfold replace. destruct old as [|c old]; [done|].
  cbn [app replace_from]. pose proof (startswith_app (c :: old) s) as H.
  cbn [app] in H. rewrite H. f_equal.
  cbn [length]. rewrite Nat.sub_succ, Nat.sub_0_r. apply replace_from_skip.
Qed.

(** *** Slices *)

Lemma slice_take_drop {A} (l : list A) (start stop : Z) :
  0 <= start <= Z.of_nat (length l) -> 0 <= stop <= Z.of_nat (length l) ->
  slice l start stop =
  take (Z.to_nat stop - Z.to_nat start) (drop (Z.to_nat start) l).
Proof.
  intros H1 H2. unfold slice.
  destruct (Z.ltb_spec start 0); [lia|]. destruct (Z.ltb_spec stop 0); [lia|].
  rewrite !Z.min_l by lia. f_equal. lia.
Qed.

(** [l[start:stop]] for indices that are not negative *)
Lemma slice_nonneg {A} (l : list A) (start stop : Z) :
  0 <= start <= stop ->
  slice l start stop =
  take (Z.to_nat (stop - start)) (drop (Z.to_nat start) l).
Proof.
  intros H. unfold slice.
  destruct (Z.ltb_spec start 0); [lia|]. destruct (Z.ltb_spec stop 0); [lia|].
  destruct (Z_le_gt_dec start (Z.of_nat (length l))) as [Hs|Hs].
  - rewrite (Z.min_l start) by lia.
    destruct (Z.min_spec stop (Z.of_nat (length l))) as [[? ->]|[? ->]]; [done|].
    rewrite !firstn_all2; [done| |]; rewrite length_drop; lia.
  - rewrite !drop_ge by lia. by rewrite !take_nil.
Qed.

(** A page of [n] items out of a list. *)
Lemma slice_page {A} (l : list A) (start n : Z) :
  0 <= start <= Z.of_nat (length l) -> 0 <= n ->
  slice l start (Z.min (start + n) (Z.of_nat (length l))) =
  take (Z.to_nat n) (drop (Z.to_nat start) l).
Proof.
  intros H1 H2. rewrite slice_take_drop by lia.
  destruct (Z.min_spec (start + n) (Z.of_nat (length l))) as [[? ->]|[? ->]].
  - f_equal. lia.
  - rewrite Nat2Z.id. rewrite !firstn_all2; [done| |]; rewrite length_drop; lia.
Qed.

(** Cutting a list into consecutive pages of [n] items loses nothing. *)
Lemma pages_concat {A} (n : nat) (k : nat) : forall l : list A,
  (length l <= n * k)%nat ->
  concat (map (fun i => take n (drop (n * i) l)) (seq 0 k)) = l.
Proof.
  induction k as [|k IH]; intros l Hl.
  - destruct l; [done|]. cbn in Hl. lia.
  - cbn [seq map concat]. rewrite Nat.mul_0_r, drop_0.
    rewrite <- seq_shift, map_map.
    transitivity (take n l ++ drop n l); [|apply take_drop]. f_equal.
    etrans; [|apply (IH (drop n l)); rewrite length_drop; lia].
    f_equal. apply map_ext. intros i. rewrite drop_drop. do 2 f_equal. lia.
Qed.

(** *** The stable sort *)

Section Sort.

Context {A K : Type} (key : A -> K) (lt : K -> K -> bool).

Lemma insert_sorted_perm x l : insert_sorted key lt x l ≡ₚ x :: l.
Proof.
  induction l as [|y l IH]; cbn; [done|].
  destruct (lt (key y) (key x)); [|done].
  rewrite IH. apply Permutation_swap.
Qed.

Lemma sort_by_perm l : sort_by key lt l ≡ₚ l.
Proof.
  induction l as [|x l IH]; cbn; [done|].
  by rewrite insert_sorted_perm, IH.
Qed.

Hypothesis lt_asym : forall a b, lt a b = true -> lt b a = false.
Hypothesis lt_trans : forall a b c, lt a b = true -> lt b c = true -> lt a c = true.
Hypothesis ge_trans : forall a b c, lt a b = false -> lt b c = false -> lt a c = false.

(** [a] may stand in front of [b]. *)
Local Abbreviation before := (fun a b => lt (key b) (key a) = false).

Lemma insert_sorted_sorted x l :
  StronglySorted before l -> StronglySorted before (insert_sorted key lt x l).
Proof.
  induction 1 as [|y l Hs IH Hy]; cbn.
  - repeat constructor.
  - destruct (lt (key y) (key x)) eqn:E.
    + constructor; [done|].
      rewrite Forall_forall in Hy |- *. intros z Hz.
      rewrite (insert_sorted_perm x l) in Hz.
      apply elem_of_cons in Hz as [->|Hz]; [by apply lt_asym|by apply Hy].
    + constructor; [by constructor|].
      constructor; [done|].
      rewrite Forall_forall in Hy |- *. intros z Hz.
      eapply ge_trans; [by apply Hy|done].
Qed.

Lemma sort_by_sorted l : StronglySorted before (sort_by key lt l).
Proof.
  induction l as [|x l IH]; cbn; [constructor|].
  by apply insert_sorted_sorted.
Qed.

End Sort.

(** *** Decimal numerals *)

Lemma digits_inj d d' : digits d = digits d' -> d = d'.
Proof.
  revert d'. induction d; intros []; cbn; try done; intros [= H]; f_equal; auto.
Qed.

Lemma digits_no_minus d : contains 45%N (digits d) = false.
Proof. induction d; cbn; auto. Qed.

Lemma str_inj n m : str n = str m -> n = m.
Proof.
  unfold str. intros H.
  rewrite <- (DecimalZ.of_to n), <- (DecimalZ.of_to m).
  destruct (Z.to_int n) as [d|d], (Z.to_int m) as [d'|d'].
  - by rewrite (digits_inj _ _ H).
  - destruct d; discriminate.
  - destruct d'; discriminate.
  - injection H as H. by rewrite (digits_inj _ _ H).
Qed.

End PyMoreLemmas.

(** ** quest_utils.py: the quest list and its pages *)

Module PaginationProofs.
Import BadgeGenerator QuestUtils QuestSpec PyMoreLemmas.

Lemma is_future_ok today q :
  ~ null_deadline q ->
  is_future today q = Ok (listed today q && negb (is_everyday q)).
Proof.
  unfold null_deadline, is_future, listed, is_everyday.
  destruct (quest_deadline q) as [[d|]|]; intros Hq; try done.
  - case_bool_decide as Hd.
    + subst d. by rewrite bool_decide_eq_true_2.
    + rewrite bool_decide_eq_false_2 by congruence. cbn. by rewrite andb_true_r.
  - rewrite bool_decide_eq_false_2 by done. by rewrite andb_true_r.
Qed.

Lemma is_future_null today q : null_deadline q -> is_future today q = Raise TypeError.
Proof. unfold null_deadline, is_future. by intros ->. Qed.

Lemma null_deadline_dec q : {null_deadline q} + {~ null_deadline q}.
Proof. unfold null_deadline. destruct (quest_deadline q) as [[d|]|]; auto. Qed.

Lemma filter_exc_is_future today l :
  Forall (fun q => ~ null_deadline q) l ->
  filter_exc (is_future today) l =
  Ok (List.filter (fun q => listed today q && negb (is_everyday q)) l).
Proof.
  induction 1 as [|q l Hq _ IH]; cbn; [done|].
  rewrite (is_future_ok _ _ Hq), IH. cbn. by destruct (_ && _).
Qed.

Lemma filter_exc_is_future_null today l :
  Exists null_deadline l -> filter_exc (is_future today) l = Raise TypeError.
Proof.
  induction l as [|q l IH]; intros H; [by apply Exists_nil in H|].
  cbn. destruct (null_deadline_dec q) as [Hq|Hq].
  - by rewrite (is_future_null _ _ Hq).
  - rewrite (is_future_ok _ _ Hq). cbn.
    apply Exists_cons in H as [H|H]; [done|]. by rewrite (IH H).
Qed.

Lemma sorted_quests_no_null today all_quests qs :
  sorted_quests today all_quests = Ok qs ->
  Forall (fun q => ~ null_deadline q) all_quests.
Proof.
  unfold sorted_quests. intros H.
  apply Forall_forall. intros q Hq Hn.
  rewrite filter_exc_is_future_null in H; [done|].
  apply Exists_exists. eauto.
Qed.

Lemma everyday_listed today q : is_everyday q = true -> listed today q = true.
Proof.
  unfold is_everyday, listed. intros H. apply bool_decide_eq_true in H.
  rewrite H. by rewrite bool_decide_eq_true_2.
Qed.

Lemma filter_split {A} (p e : A -> bool) (l : list A) :
  (forall x, e x = true -> p x = true) ->
  List.filter p l ≡ₚ
  List.filter (fun x => p x && negb (e x)) l ++ List.filter e l.
Proof.
  intros Hep. induction l as [|x l IH]; cbn; [done|].
  destruct (e x) eqn:E.
  - rewrite (Hep x E). cbn. rewrite IH. apply Permutation_middle.
  - rewrite andb_true_r. destruct (p x); cbn; by rewrite IH.
Qed.

Lemma filter_Forall {A} (p : A -> bool) (l : list A) :
  Forall (fun x => p x = true) (List.filter p l).
Proof.
  apply Forall_forall. intros x Hx. apply list_elem_of_In, filter_In in Hx. tauto.
Qed.

(** X1 -- Which quests the list shows, and in which order. When
    [paginate_quests] gets as far as its sorted list, that list holds
    exactly the rows that recur every day or whose deadline is not before
    today, each as often as the table has it; a row whose deadline has
    passed is not in it. The dated quests come first, in non-decreasing
    order of deadline, and the quests that recur every day follow them in
    the order of the table. *)
Theorem sorted_quests_order today all_quests qs :
  sorted_quests today all_quests = Ok qs ->
  qs ≡ₚ List.filter (listed today) all_quests /\
  exists dated,
    qs = dated ++ List.filter is_everyday all_quests /\
    Forall (fun q => is_everyday q = false) dated /\
    StronglySorted
      (fun a b => str_lt (deadline_key b) (deadline_key a) = false) dated.
Proof.
  intros H. pose proof (sorted_quests_no_null _ _ _ H) as Hn.
  unfold sorted_quests in H. rewrite (filter_exc_is_future _ _ Hn) in H.
  cbn in H. injection H as <-.
  set (dated := List.filter _ all_quests).
  split; [|exists (sort_by deadline_key str_lt dated); split_and!].
  - rewrite sort_by_perm.
    symmetry. apply filter_split. apply everyday_listed.
  - done.
  - apply Forall_forall. intros q Hq. rewrite sort_by_perm in Hq.
    apply list_elem_of_In, filter_In in Hq as [_ Hq].
    apply andb_true_iff in Hq as [_ Hq]. by apply negb_true_iff.
  - apply sort_by_sorted.
    + apply str_lt_asym.
    + intros a b c Hab Hbc.
      pose proof (str_ge_trans a b c) as T. unfold str_ge in T.
      rewrite Hab, Hbc in T. specialize (T eq_refl eq_refl).
      by apply negb_true_iff in T.
Qed.

Lemma sorted_quests_order_witness :
  exists qs,
    sorted_quests SampleQuests.today SampleQuests.all_quests = Ok qs /\
    map quest_id qs = [QInt 4; QInt 5; QInt 7; QInt 1; QInt 2; QInt 6] /\
    qs ≡ₚ List.filter (listed SampleQuests.today) SampleQuests.all_quests.
Proof.
  eexists. split; [vm_compute; reflexivity|]. split; [reflexivity|].
  apply (sorted_quests_order SampleQuests.today SampleQuests.all_quests).
  vm_compute. reflexivity.
Defined.

(** *** Pages *)

Lemma paginate_quests_unfold today all_quests page user_id qs :
  sorted_quests today all_quests = Ok qs ->
  paginate_quests today all_quests page user_id =
  let n := Z.of_nat (length qs) in
  let tp := (n + 2) / 3 in
  let p := if page <? 1 then 1
           else if (page >? tp) && (tp >? 0) then tp else page in
  let page_quests :=
    if n >? 0 then slice qs ((p - 1) * 3) (Z.min ((p - 1) * 3 + 3) n) else [] in
  Ok (page_quests, quest_mapping_from 1 page_quests ∅,
      {| current_page := p; total_pages := tp;
         has_prev := p >? 1; has_next := p <? tp |}, tp).
Proof.
  intros H. unfold paginate_quests, QUESTS_PER_PAGE. rewrite H. cbn [ebind].
  replace (Z.of_nat (length qs) + 3 - 1) with (Z.of_nat (length qs) + 2) by lia.
  reflexivity.
Qed.

Ltac cases :=
  repeat match goal with
  | |- context [?a <? ?b] => destruct (Z.ltb_spec a b)
  | |- context [?a >? ?b] => rewrite (Z.gtb_ltb a b)
  | H : context [?a <? ?b] |- _ => destruct (Z.ltb_spec a b)
  | H : context [?a >? ?b] |- _ => rewrite (Z.gtb_ltb a b) in H
  end; cbn [andb orb negb] in *.

(** The page [p] of a list with enough items. *)
Lemma page_slice {A} (qs : list A) (p : Z) :
  1 <= p <= (Z.of_nat (length qs) + 2) / 3 ->
  slice qs ((p - 1) * 3) (Z.min ((p - 1) * 3 + 3) (Z.of_nat (length qs))) =
  take 3 (drop (3 * Z.to_nat (p - 1)) qs)
  /\ (3 * Z.to_nat (p - 1) < length qs)%nat.
Proof.
  intros Hp.
  assert (3 * (p - 1) < Z.of_nat (length qs)).
  { pose proof (Z.mul_div_le (Z.of_nat (length qs) + 2) 3). lia. }
  split; [|lia].
  rewrite slice_page by lia. do 2 f_equal. lia.
Qed.

(** X2 -- The pages cut the sorted list without loss or overlap. Read in
    order, the pages 1..total_pages that [paginate_quests] returns are the
    sorted quest list: every listed quest is on exactly one page, at its
    place in the order. Every page holds between one and three quests, and
    each call reports the same number of pages, [ceil(total / 3)]. *)
Theorem paginate_quests_pages today all_quests user_id qs :
  sorted_quests today all_quests = Ok qs ->
  exists pages : list (list quest),
    concat pages = qs /\
    Z.of_nat (length pages) = (Z.of_nat (length qs) + 2) / 3 /\
    forall (i : nat) page_quests,
      pages !! i = Some page_quests ->
      (1 <= length page_quests <= 3)%nat /\
      exists quest_mapping pagination_info,
        paginate_quests today all_quests (Z.of_nat i + 1) user_id =
        Ok (page_quests, quest_mapping, pagination_info,
            Z.of_nat (length pages)).
Proof.
  intros H.
  set (n := Z.of_nat (length qs)). set (tp := (n + 2) / 3).
  assert (Htp : 0 <= tp) by (apply Z.div_pos; lia).
  assert (Hn : n <= 3 * tp).
  { pose proof (Z.mul_succ_div_gt (n + 2) 3). lia. }
  exists (map (fun i => take 3 (drop (3 * i) qs)) (seq 0 (Z.to_nat tp))).
  rewrite length_map, length_seq.
  split_and!.
  - apply pages_concat. lia.
  - lia.
  - intros i page_quests Hi.
    rewrite list_lookup_fmap in Hi.
    destruct (seq 0 (Z.to_nat tp) !! i) as [j|] eqn:Ej; [|done].
    apply lookup_seq in Ej as [-> Hlt]. cbn in Hi. injection Hi as <-.
    assert (Hp : 1 <= Z.of_nat i + 1 <= (Z.of_nat (length qs) + 2) / 3)
      by (fold n; fold tp; lia).
    destruct (page_slice qs _ Hp) as [Hs Hlen].
    replace (Z.to_nat (Z.of_nat i + 1 - 1)) with i in Hs, Hlen by lia.
    split.
    + rewrite length_take, length_drop. lia.
    + rewrite (paginate_quests_unfold _ _ _ _ _ H). cbv zeta.
      fold n. fold tp. rewrite Z2Nat.id by done.
      assert (Hc : (if Z.of_nat i + 1 <? 1 then 1
                    else if (Z.of_nat i + 1 >? tp) && (tp >? 0) then tp
                         else Z.of_nat i + 1) = Z.of_nat i + 1)
        by (cases; lia).
      rewrite Hc.
      assert (Hpos : (n >? 0) = true) by (apply Z.gtb_lt; lia).
      rewrite Hpos. unfold n at 1. rewrite Hs. eauto.
Qed.

Lemma paginate_quests_pages_witness :
  exists pages : list (list quest),
    concat pages = [SampleQuests.row 4 "Poker final" "2025-05-10";
                    SampleQuests.row 5 "Beach cleanup" "2025-05-20";
                    SampleQuests.row 7 "Founders dinner" "2025-05-20";
                    SampleQuests.row 1 "Sunrise run" "2025-06-01";
                    SampleQuests.row 2 "Share a meal" "everyday";
                    SampleQuests.row 6 "Say Zo Zo" "everyday"] /\
    length pages = 2%nat.
Proof.
  destruct (paginate_quests_pages SampleQuests.today SampleQuests.all_quests 7
              [SampleQuests.row 4 "Poker final" "2025-05-10";
               SampleQuests.row 5 "Beach cleanup" "2025-05-20";
               SampleQuests.row 7 "Founders dinner" "2025-05-20";
               SampleQuests.row 1 "Sunrise run" "2025-06-01";
               SampleQuests.row 2 "Share a meal" "everyday";
               SampleQuests.row 6 "Say Zo Zo" "everyday"])
    as (pages & Hc & Hl & _).
  - vm_compute. reflexivity.
  - exists pages. split; [exact Hc|]. apply Nat2Z.inj. rewrite Hl. reflexivity.
Defined.

(** X3 -- Page numbers out of range are clamped, as long as there is a
    page. When at least one quest is listed, the page that is returned is
    [page] clamped to 1..total_pages, and asking for that page directly
    gives the same answer, so that every page number gives a page that
    exists. *)
Theorem paginate_quests_clamps today all_quests page user_id
    page_quests quest_mapping info tp :
  paginate_quests today all_quests page user_id =
    Ok (page_quests, quest_mapping, info, tp) ->
  0 < tp ->
  current_page info = clamp_page page tp /\
  total_pages info = tp /\
  page_quests <> [] /\
  paginate_quests today all_quests (current_page info) user_id =
    Ok (page_quests, quest_mapping, info, tp).
Proof.
  unfold paginate_quests at 1. intros H Htp.
  destruct (sorted_quests today all_quests) as [qs|e] eqn:E; [|done].
  pose proof (paginate_quests_unfold today all_quests page user_id qs E) as H1.
  unfold paginate_quests at 1 in H1. rewrite E in H1. rewrite H1 in H.
  cbv zeta in H. injection H as <- <- <- <-.
  cbn [current_page total_pages].
  set (n := Z.of_nat (length qs)) in *. set (tp := (n + 2) / 3) in *.
  set (p := if page <? 1 then 1 else _).
  assert (Hp : p = clamp_page page tp).
  { unfold p, clamp_page. cases; lia. }
  assert (Hr : 1 <= p <= tp) by (rewrite Hp; unfold clamp_page; lia).
  assert (Hpp : (if p <? 1 then 1
                 else if (p >? tp) && (tp >? 0) then tp else p) = p)
    by (cases; lia).
  split_and!; [done|done| |].
  - assert (Hpos : (n >? 0) = true).
    { apply Z.gtb_lt. unfold tp in Htp.
      destruct (Z.ltb_spec 0 n); [done|].
      assert (n = 0) as -> by lia. done. }
    rewrite Hpos. destruct (page_slice qs p Hr) as [Hs Hlt].
    fold n in Hs. rewrite Hs.
    intros Hnil. apply (f_equal length) in Hnil.
    rewrite length_take, length_drop in Hnil. cbn [length] in Hnil. lia.
  - rewrite (paginate_quests_unfold _ _ _ _ _ E). cbv zeta.
    fold n. fold tp. by rewrite Hpp.
Qed.

Lemma paginate_quests_clamps_witness :
  exists page_quests quest_mapping info,
    paginate_quests SampleQuests.today SampleQuests.all_quests 9 7 =
      Ok (page_quests, quest_mapping, info, 2) /\
    current_page info = 2 /\
    paginate_quests SampleQuests.today SampleQuests.all_quests 2 7 =
      Ok (page_quests, quest_mapping, info, 2).
Proof.
  destruct (paginate_quests SampleQuests.today SampleQuests.all_quests 9 7)
    as [[[[pq m] info] tp]|e] eqn:E.
  2: { apply (f_equal (fun r => match r with Ok _ => true | Raise _ => false end)) in E.
       vm_compute in E. discriminate. }
  assert (tp = 2) as ->.
  { apply (f_equal (fun r => match r with Ok (_, _, _, tp) => tp | _ => 0 end)) in E.
    vm_compute in E. congruence. }
  exists pq, m, info.
  destruct (paginate_quests_clamps _ _ _ _ _ _ _ _ E) as (Hc & _ & _ & Hp);
    [lia|].
  assert (current_page info = 2) as Hc2 by (rewrite Hc; reflexivity).
  rewrite Hc2 in Hp. auto.
Defined.

(** *** The display numbers *)

Lemma quest_mapping_from_lookup page_quests : forall i0 m0 i,
  quest_mapping_from i0 page_quests m0 !! i =
  if (i0 <=? i) && (i <? i0 + Z.of_nat (length page_quests))
  then quest_id <$> page_quests !! Z.to_nat (i - i0)
  else m0 !! i.
Proof.
  induction page_quests as [|q rest IH]; intros i0 m0 i.
  - cbn [quest_mapping_from length].
    destruct (Z.leb_spec i0 i); cbn [andb]; [|done].
    destruct (Z.ltb_spec i (i0 + Z.of_nat 0)); [lia|done].
  - cbn [quest_mapping_from length]. rewrite IH, Nat2Z.inj_succ.
    destruct (Z.leb_spec (i0 + 1) i), (Z.leb_spec i0 i),
      (Z.ltb_spec i (i0 + 1 + Z.of_nat (length rest))),
      (Z.ltb_spec i (i0 + Z.succ (Z.of_nat (length rest)))); cbn [andb]; try lia.
    + replace (Z.to_nat (i - i0)) with (S (Z.to_nat (i - (i0 + 1)))) by lia.
      done.
    + rewrite lookup_insert_ne by lia. done.
    + assert (i = i0) as -> by lia. rewrite lookup_insert_eq.
      by rewrite Z.sub_diag.
    + rewrite lookup_insert_ne by lia. done.
Qed.

(** X4 -- The numbers that select a quest. The mapping returned with a
    page sends the display number [i] to the id of the [i]-th quest of that
    page, counting from 1, and has no other entry: no number selects a
    quest of another page or a quest that is not listed. *)
Theorem paginate_quests_mapping today all_quests page user_id
    page_quests quest_mapping info tp :
  paginate_quests today all_quests page user_id =
    Ok (page_quests, quest_mapping, info, tp) ->
  forall i : Z,
    quest_mapping !! i =
    if 1 <=? i then quest_id <$> page_quests !! Z.to_nat (i - 1) else None.
Proof.
  unfold paginate_quests. intros H i.
  destruct (sorted_quests today all_quests) as [qs|e]; [|done].
  cbn [ebind] in H. injection H as <- <- _ _.
  rewrite quest_mapping_from_lookup, lookup_empty.
  match goal with |- context [length ?l] => set (pq := l) end.
  destruct (Z.leb_spec 1 i); cbn; [|done].
  destruct (Z.ltb_spec i (1 + Z.of_nat (length pq))); [done|].
  symmetry. rewrite lookup_ge_None_2; [done|lia].
Qed.

Lemma paginate_quests_mapping_witness :
  exists page_quests quest_mapping info,
    paginate_quests SampleQuests.today SampleQuests.all_quests 2 7 =
      Ok (page_quests, quest_mapping, info, 2) /\
    quest_mapping !! 1 = Some (QInt 1) /\
    quest_mapping !! 3 = Some (QInt 6) /\
    quest_mapping !! 4 = None.
Proof.
  destruct (paginate_quests SampleQuests.today SampleQuests.all_quests 2 7)
    as [[[[pq m] info] tp]|e] eqn:E.
  2: { apply (f_equal (fun r => match r with Ok _ => true | Raise _ => false end)) in E.
       vm_compute in E. discriminate. }
  assert (tp = 2) as ->.
  { apply (f_equal (fun r => match r with Ok (_, _, _, tp) => tp | _ => 0 end)) in E.
    vm_compute in E. congruence. }
  assert (pq = [SampleQuests.row 1 "Sunrise run" "2025-06-01";
                SampleQuests.row 2 "Share a meal" "everyday";
                SampleQuests.row 6 "Say Zo Zo" "everyday"]) as Hpq.
  { apply (f_equal (fun r => match r with Ok (pq, _, _, _) => pq | _ => [] end)) in E.
    vm_compute in E. rewrite <- E. vm_compute. reflexivity. }
  exists pq, m, info. split; [done|].
  pose proof (paginate_quests_mapping _ _ _ _ _ _ _ _ E) as Hm.
  rewrite (Hm 1), (Hm 3), (Hm 4), Hpq. cbn. auto.
Defined.

(** X5 -- A null deadline stops the list. If one row of the quest table has
    its deadline set to null, the comparison with today's date raises
    [TypeError] and [paginate_quests] raises it for every page; if no row
    has, [paginate_quests] returns for every page number. *)
Theorem paginate_quests_null_deadline today all_quests page user_id :
  (Exists null_deadline all_quests ->
   paginate_quests today all_quests page user_id = Raise TypeError) /\
  (Forall (fun q => ~ null_deadline q) all_quests ->
   exists r, paginate_quests today all_quests page user_id = Ok r).
Proof.
  unfold paginate_quests, sorted_quests. split; intros H.
  - by rewrite (filter_exc_is_future_null _ _ H).
  - rewrite (filter_exc_is_future _ _ H). cbn. eauto.
Qed.

Lemma paginate_quests_null_deadline_witness :
  paginate_quests SampleQuests.today
    ({| quest_id := QInt 8; quest_title := u "Draft";
        quest_deadline := Some None |} :: SampleQuests.all_quests) 1 1 =
  Raise TypeError
  /\ exists r,
       paginate_quests SampleQuests.today SampleQuests.all_quests 1 1 = Ok r.
Proof.
  split.
  - apply (paginate_quests_null_deadline SampleQuests.today).
    apply Exists_cons_hd. reflexivity.
  - apply (paginate_quests_null_deadline SampleQuests.today).
    repeat constructor; discriminate.
Defined.

(** *** The navigation buttons *)

(** X6 -- With no quest to list, a page number of two or more is kept as it
    is: the answer has no quests and no pages, but reports that there is a
    previous page, and the keyboard built from it offers a button back to
    page [page - 1]. *)
Theorem paginate_quests_empty_list today all_quests page user_id :
  sorted_quests today all_quests = Ok [] ->
  2 <= page ->
  exists info,
    paginate_quests today all_quests page user_id = Ok ([], ∅, info, 0) /\
    current_page info = page /\ has_prev info = true /\ has_next info = false /\
    create_quest_pagination_keyboard info =
      Some [[button LEFT (u "questpage_" ++ str (page - 1))]].
Proof.
  intros H Hp. rewrite (paginate_quests_unfold _ _ _ _ _ H). cbv zeta.
  cbn [length Z.of_nat]. change ((0 + 2) / 3) with 0.
  change (0 >? 0) with false. rewrite andb_false_r.
  destruct (Z.ltb_spec page 1); [lia|].
  eexists. split; [reflexivity|].
  cbn [current_page has_prev has_next].
  assert (H1 : (page >? 1) = true) by (apply Z.gtb_lt; lia).
  assert (H2 : (page <? 0) = false) by (apply Z.ltb_ge; lia).
  split_and!; try done.
  unfold create_quest_pagination_keyboard. cbn [current_page has_prev has_next].
  change ((Z.of_nat 0 + 2) / 3) with 0. by rewrite H1, H2.
Qed.

Lemma paginate_quests_empty_list_witness :
  exists info,
    paginate_quests SampleQuests.today [SampleQuests.row 3 "Opening night" "2025-05-01"]
      5 7 = Ok ([], ∅, info, 0) /\
    create_quest_pagination_keyboard info =
      Some [[button LEFT (u "questpage_4")]].
Proof.
  destruct (paginate_quests_empty_list SampleQuests.today
              [SampleQuests.row 3 "Opening night" "2025-05-01"] 5 7)
    as (info & H1 & _ & _ & _ & H2).
  - vm_compute. reflexivity.
  - lia.
  - exists info. split; [exact H1|]. rewrite H2. reflexivity.
Defined.

(** X7 -- With at least one quest listed, the navigation stays inside the
    list: the keyboard built from the answer of [paginate_quests] is absent
    exactly when there is a single page, and each of its buttons asks for
    the page before or after the current one, a page between 1 and
    total_pages. *)
Theorem quest_navigation_in_range today all_quests page user_id
    page_quests quest_mapping info tp :
  paginate_quests today all_quests page user_id =
    Ok (page_quests, quest_mapping, info, tp) ->
  0 < tp ->
  match create_quest_pagination_keyboard info with
  | None => tp = 1
  | Some keyboard =>
      1 < tp /\
      forall row b, row ∈ keyboard -> b ∈ row ->
        exists k, callback_data b = u "questpage_" ++ str k /\
                  1 <= k <= tp /\
                  (k = current_page info - 1 \/ k = current_page info + 1)
  end.
Proof.
  unfold paginate_quests. intros H Htp.
  destruct (sorted_quests today all_quests) as [qs|e]; [|done].
  cbn [ebind] in H. injection H as _ _ <- <-.
  unfold QUESTS_PER_PAGE in *.
  set (tp := (Z.of_nat (length qs) + 3 - 1) / 3) in *.
  set (p := if page <? 1 then 1 else _).
  assert (Hr : 1 <= p <= tp) by (unfold p; cases; lia).
  unfold create_quest_pagination_keyboard. cbn [current_page has_prev has_next].
  rewrite (Z.gtb_ltb p 1).
  destruct (Z.ltb_spec 1 p), (Z.ltb_spec p tp); cbn [app].
  - split; [lia|]. intros row b Hrow Hb.
    apply list_elem_of_singleton in Hrow as ->.
    apply elem_of_cons in Hb as [->|Hb];
      [|apply list_elem_of_singleton in Hb as ->]; cbn.
    + exists (p - 1). split_and!; [done|lia|lia|by left].
    + exists (p + 1). split_and!; [done|lia|lia|by right].
  - split; [lia|]. intros row b Hrow Hb.
    apply list_elem_of_singleton in Hrow as ->.
    apply list_elem_of_singleton in Hb as ->. cbn.
    exists (p - 1). split_and!; [done|lia|lia|by left].
  - split; [lia|]. intros row b Hrow Hb.
    apply list_elem_of_singleton in Hrow as ->.
    apply list_elem_of_singleton in Hb as ->. cbn.
    exists (p + 1). split_and!; [done|lia|lia|by right].
  - lia.
Qed.

Lemma quest_navigation_in_range_witness :
  exists page_quests quest_mapping info,
    paginate_quests SampleQuests.today SampleQuests.all_quests 1 7 =
      Ok (page_quests, quest_mapping, info, 2) /\
    create_quest_pagination_keyboard info <> None.
Proof.
  destruct (paginate_quests SampleQuests.today SampleQuests.all_quests 1 7)
    as [[[[pq m] info] tp]|e] eqn:E.
  2: { apply (f_equal (fun r => match r with Ok _ => true | Raise _ => false end)) in E.
       vm_compute in E. discriminate. }
  assert (tp = 2) as ->.
  { apply (f_equal (fun r => match r with Ok (_, _, _, tp) => tp | _ => 0 end)) in E.
    vm_compute in E. congruence. }
  exists pq, m, info. split; [done|].
  pose proof (quest_navigation_in_range _ _ _ _ _ _ _ _ E) as H.
  destruct (create_quest_pagination_keyboard info); [done|].
  specialize (H ltac:(lia)). lia.
Defined.

End PaginationProofs.

(** ** quest_utils.py: the selection keyboards and the quest keyword *)

Module KeyboardProofs.
Import BadgeGenerator QuestUtils QuestSpec PyMoreLemmas.

Lemma slice_whole {A} (l : list A) (n : Z) :
  Z.of_nat (length l) <= n ->
  slice l 0 (Z.min (0 + n) (Z.of_nat (length l))) = l.
Proof.
  intros H. rewrite slice_page by lia. cbn [Z.to_nat drop].
  apply firstn_all2. lia.
Qed.

(** Up to four categories fit on the one page there is: every page number
    shows all of them, without a navigation row. *)
Lemma category_keyboard_one_page categories page :
  (1 <= length categories <= 4)%nat ->
  category_keyboard categories page =
  item_rows (u "category_") categories ++ [skip_row "category_skip"].
Proof.
  intros Hlen. unfold category_keyboard, ITEMS_PER_PAGE.
  set (n := Z.of_nat (length categories)).
  assert (Htp : (n + 4 - 1) / 4 = 1)
    by (symmetry; apply (Z.div_unique _ 4 1 (n - 1)); lia).
  rewrite Htp.
  assert (Hp : (if page <? 1 then 1
                else if (page >? 1) && (1 >? 0) then 1 else page) = 1).
  { destruct (Z.ltb_spec page 1); [done|]. rewrite (Z.gtb_ltb page 1).
    destruct (Z.ltb_spec 1 page); cbn; lia. }
  rewrite Hp.
  assert (Hpos : (n >? 0) = true) by (apply Z.gtb_lt; lia).
  rewrite Hpos. change ((1 - 1) * 4) with 0.
  unfold n. rewrite slice_whole by lia. reflexivity.
Qed.

(** Without categories there is no page; a page number above 1 is kept and
    gets a button back. *)
Lemma category_keyboard_empty page :
  category_keyboard [] page =
  (if 1 <? page
   then [[button LEFT (u "categorypage_" ++ str (page - 1))]]
   else [])
  ++ [skip_row "category_skip"].
Proof.
  unfold category_keyboard, ITEMS_PER_PAGE.
  change (Z.of_nat (@length (list N) [])) with 0.
  change ((0 + 4 - 1) / 4) with 0. change (0 >? 0) with false.
  rewrite andb_false_r. cbn [item_rows map app].
  unfold nav_rows.
  destruct (Z.ltb_spec page 1).
  - destruct (Z.ltb_spec 1 page); [lia|]. reflexivity.
  - rewrite (Z.gtb_ltb page 1).
    destruct (Z.ltb_spec 1 page), (Z.ltb_spec page 0); try lia; reflexivity.
Qed.

Lemma CATEGORY_TYPES_length party_name categories :
  CATEGORY_TYPES !! party_name = Some categories -> length categories = 3%nat.
Proof.
  unfold CATEGORY_TYPES. intros H.
  apply elem_of_list_to_map_2 in H.
  repeat (apply elem_of_cons in H as [[= _ ->]|H]; [reflexivity|]).
  by apply elem_of_nil in H.
Qed.

(** X8 -- The category keyboard for every party name and page number. For
    one of the four parties it shows that party's three categories, one
    button each with the data ["category_<name>"], then the Skip row, and
    never a navigation row, whatever page is asked for. For a name that
    is not a party it shows the Skip row alone, except that a page number
    above 1 is kept and puts a button back to [page - 1] in front of it. *)
Theorem create_paginated_category_keyboard_rows party_name page :
  create_paginated_category_keyboard party_name page =
  match CATEGORY_TYPES !! party_name with
  | Some categories =>
      item_rows (u "category_") categories ++ [skip_row "category_skip"]
  | None =>
      (if 1 <? page
       then [[button LEFT (u "categorypage_" ++ str (page - 1))]]
       else [])
      ++ [skip_row "category_skip"]
  end.
Proof.
  unfold create_paginated_category_keyboard.
  destruct (CATEGORY_TYPES !! party_name) as [categories|] eqn:E;
    cbn [default from_option id].
  - apply category_keyboard_one_page.
    rewrite (CATEGORY_TYPES_length _ _ E). lia.
  - apply category_keyboard_empty.
Qed.

(** X9 -- The party keyboard does not depend on the page number: every
    call shows the four parties, one button each with the data
    ["party_<name>"], followed by the Skip row; a navigation row never
    appears. *)
Theorem create_paginated_party_keyboard_rows page :
  create_paginated_party_keyboard page =
  item_rows (u "party_") PARTY_NAMES ++ [skip_row "party_skip"].
Proof.
  unfold create_paginated_party_keyboard, ITEMS_PER_PAGE.
  change ((Z.of_nat (length PARTY_NAMES) + 4 - 1) / 4) with 1.
  assert (Hp : (if page <? 1 then 1 else if page >? 1 then 1 else page) = 1).
  { destruct (Z.ltb_spec page 1); [done|]. rewrite (Z.gtb_ltb page 1).
    destruct (Z.ltb_spec 1 page); lia. }
  rewrite Hp. reflexivity.
Qed.

(** *** The quest keyword *)

Lemma title_hash_range s : 0 <= title_hash s < 1000.
Proof.
  unfold title_hash.
  assert (G : forall acc, 0 <= acc < 1000 ->
    0 <= fold_left (fun h c => (h * 31 + Z.of_N c) mod 1000) s acc < 1000).
  { induction s as [|c s IH]; intros acc Hacc; cbn; [done|].
    apply IH. apply Z.mod_pos_bound. lia. }
  apply G. lia.
Qed.

(** X10 -- A quest keyword is always ["zozozo"] followed by exactly three
    decimal digits, nine characters in all, whatever the title is (the
    empty title gives ["zozozo000"]); at most one thousand different
    keywords exist. *)
Theorem create_quest_keyword_shape (lower : list N -> list N) title :
  exists n,
    0 <= n < 1000 /\
    create_quest_keyword lower title = u "zozozo" ++ format_03d n /\
    length (format_03d n) = 3%nat /\
    forallb isdigit (format_03d n) = true /\
    length (create_quest_keyword lower title) = 9%nat.
Proof.
  unfold create_quest_keyword.
  set (n := title_hash _). exists n.
  pose proof (title_hash_range (replace (u " ") (u "_") (lower title))) as Hn.
  fold n in Hn.
  destruct (DisplayIdProofs.format_03d_three_digits n Hn) as [Hl Hd].
  split_and!; [lia|lia|done|done|done|].
  rewrite length_app, Hl. reflexivity.
Qed.

End KeyboardProofs.

(** ** zo_quest_bot.py: group ids *)

Module GroupIdProofs.
Import Bot PyMoreLemmas.

Lemma digits_nonempty_pos p : digits (Pos.to_uint p) <> [].
Proof.
  intros H. pose proof (DecimalPos.Unsigned.to_uint_nonnil p) as Hn.
  destruct (Pos.to_uint p); try done.
Qed.

(** The numeral of a non-negative number: digits only, at least one. *)
Lemma str_nonneg n :
  0 <= n ->
  exists c s, str n = c :: s /\ isdigit c = true /\ forallb isdigit s = true.
Proof.
  intros Hn. pose proof (PillProofs.str_isdigit n Hn) as Hd.
  destruct (str n) as [|c s] eqn:E.
  - exfalso. unfold str in E. destruct n as [|p|p]; [done| |lia].
    cbn in E. by apply (digits_nonempty_pos p).
  - cbn in Hd. apply andb_true_iff in Hd as [? ?]. eauto.
Qed.

Lemma str_neg n : n < 0 -> str n = 45%N :: str (- n).
Proof. destruct n as [|p|p]; try lia. reflexivity. Qed.

Lemma isdigit_not c x : isdigit c = true -> isdigit x = false -> (c =? x)%N = false.
Proof.
  intros Hc Hx. destruct (N.eqb_spec c x) as [->|]; [congruence|done].
Qed.

(** A string that starts with a digit does not start with a prefix that
    starts otherwise. *)
Lemma startswith_digit c s prefix :
  isdigit c = true ->
  match prefix with x :: _ => isdigit x = false | [] => False end ->
  startswith (c :: s) prefix = false.
Proof.
  intros Hc Hx. destruct prefix as [|x prefix]; [done|].
  cbn. by rewrite (isdigit_not c x).
Qed.

Lemma forallb_isdigit_contains s x :
  forallb isdigit s = true -> isdigit x = false -> contains x s = false.
Proof.
  intros Hs Hx. unfold contains. induction s as [|c s IH]; cbn in *; [done|].
  apply andb_true_iff in Hs as [Hc Hs]. rewrite (IH Hs), orb_false_r.
  rewrite N.eqb_sym. by apply isdigit_not.
Qed.

(** Replacing a character that does not occur changes nothing. *)
Lemma replace_absent c new s :
  contains c s = false -> replace [c] new s = s.
Proof.
  unfold replace, contains. induction s as [|x s IH]; cbn; [done|].
  intros H. apply orb_false_iff in H as [Hx Hs].
  rewrite N.eqb_sym in Hx. rewrite Hx. cbn. by rewrite IH.
Qed.

Lemma replace_head c s : replace [c] [] (c :: s) = replace [c] [] s.
Proof. unfold replace. cbn. by rewrite N.eqb_refl. Qed.

(** *** [normalize_group_id] *)

Lemma normalize_nonneg n : 0 <= n -> normalize_group_id (Str (str n)) = str n.
Proof.
  intros Hn. destruct (str_nonneg n Hn) as (c & s & E & Hc & _).
  unfold normalize_group_id, strip_prefix. cbn [str_of fold_left]. rewrite E.
  rewrite (startswith_digit c s (u "chat")) by (done || reflexivity).
  rewrite (startswith_digit c s (u "supergroup")) by (done || reflexivity).
  rewrite (startswith_digit c s (u "-100")) by (done || reflexivity).
  rewrite (startswith_digit c s (u "-")) by (done || reflexivity).
  reflexivity.
Qed.

Lemma normalize_minus s :
  normalize_group_id (Str (45%N :: s)) =
  if startswith (45%N :: s) (u "-100") then 45%N :: s else u "-100" ++ s.
Proof.
  unfold normalize_group_id, strip_prefix. cbn [str_of fold_left].
  change (startswith (45%N :: s) (u "chat")) with false. cbn iota.
  change (startswith (45%N :: s) (u "supergroup")) with false. cbn iota.
  destruct (startswith (45%N :: s) (u "-100")) eqn:E; [done|].
  change (startswith (45%N :: s) (u "-")) with true. cbn [negb drop].
  reflexivity.
Qed.

Lemma normalize_str_of group_id :
  normalize_group_id group_id = normalize_group_id (Str (str_of group_id)).
Proof. reflexivity. Qed.

(** X11 -- [normalize_group_id] on integer ids. A non-negative id is
    returned as its numeral. A negative id always comes back starting with
    ["-100"]: unchanged if its numeral starts that way already, and with
    ["100"] put between the sign and the digits otherwise. Normalizing
    the result again changes nothing. *)
Theorem normalize_group_id_int n :
  normalize_group_id (Int n) =
    (if 0 <=? n then str n
     else if startswith (str n) (u "-100") then str n
     else u "-100" ++ str (- n))
  /\ (n < 0 -> startswith (normalize_group_id (Int n)) (u "-100") = true)
  /\ normalize_group_id (Str (normalize_group_id (Int n))) =
     normalize_group_id (Int n).
Proof.
  rewrite (normalize_str_of (Int n)). cbn [str_of].
  destruct (Z.leb_spec 0 n) as [Hn|Hn].
  - rewrite (normalize_nonneg n Hn). split_and!; [done|lia|].
    by apply normalize_nonneg.
  - rewrite (str_neg n Hn), normalize_minus.
    destruct (startswith (45%N :: str (- n)) (u "-100")) eqn:E.
    + split_and!; [done|done|]. by rewrite normalize_minus, E.
    + split_and!; [done| |].
      * intros _. apply (startswith_app (u "-100")).
      * change (u "-100" ++ str (- n)) with (45%N :: (u "100" ++ str (- n))).
        rewrite normalize_minus.
        change (45%N :: (u "100" ++ str (- n))) with (u "-100" ++ str (- n)).
        by rewrite startswith_app.
Qed.

Lemma normalize_group_id_int_witness :
  normalize_group_id (Int (-5)) = u "-1005"
  /\ startswith (normalize_group_id (Int (-5))) (u "-100") = true.
Proof.
  destruct (normalize_group_id_int (-5)) as (H1 & H2 & _).
  split; [exact H1|apply H2; lia].
Defined.

(** X12 -- The group test of [handle_submission] is the comparison of the
    normalized ids: the second comparison, of the plain strings, never
    changes the outcome. So a submission is handled exactly when the chat
    id and PUBLIC_GROUP_ID normalize to the same string, which identifies a
    negative id with its ["-100"] form: chat [-n] passes for the group
    ["-100n"]. *)
Theorem in_public_group_normalized chat_id PUBLIC_GROUP_ID :
  (in_public_group chat_id PUBLIC_GROUP_ID = true <->
   normalize_group_id chat_id = normalize_group_id PUBLIC_GROUP_ID)
  /\ forall n, 0 < n -> startswith (str n) (u "100") = false ->
       in_public_group (Int (- n)) (Str (u "-100" ++ str n)) = true.
Proof.
  assert (G : forall a b, in_public_group a b = true <->
                          normalize_group_id a = normalize_group_id b).
  { intros a b. unfold in_public_group.
    rewrite negb_true_iff, andb_false_iff, !negb_false_iff, !bool_decide_eq_true.
    split; [|by left].
    intros [H|H]; [done|].
    by rewrite (normalize_str_of a), (normalize_str_of b), H. }
  split; [apply G|].
  intros n Hn Hs. apply G.
  rewrite (normalize_str_of (Int _)). cbn [str_of].
  rewrite (str_neg (- n)) by lia. rewrite Z.opp_involutive.
  rewrite normalize_minus.
  change (startswith (45%N :: str n) (u "-100"))
    with ((45 =? 45)%N && startswith (str n) (u "100")).
  rewrite Hs. cbn [andb N.eqb Pos.eqb].
  change (u "-100" ++ str n) with (45%N :: (u "100" ++ str n)).
  rewrite normalize_minus.
  change (45%N :: (u "100" ++ str n)) with (u "-100" ++ str n).
  by rewrite startswith_app.
Qed.

Lemma in_public_group_normalized_witness :
  in_public_group (Int (-5)) (Str (u "-1005")) = true.
Proof.
  apply (proj2 (in_public_group_normalized (Int 0) (Int 0)) 5); [lia|reflexivity].
Defined.

(** *** The admin test of [new_quest] *)

Lemma lstrip_digit c s : isdigit c = true -> lstrip 45%N (c :: s) = c :: s.
Proof. intros Hc. cbn. by rewrite (isdigit_not c 45%N). Qed.

(** The four formats of an integer id, written with the numeral [d] of its
    absolute value. *)
Lemma get_normalized_chat_id_int n :
  let d := str (Z.abs n) in
  get_normalized_chat_id (Int n) =
  if 0 <=? n then [d; d; d; u "-" ++ d]
  else [u "-" ++ d; d; d; u "-" ++ d].
Proof.
  cbv zeta. unfold get_normalized_chat_id. cbn [str_of].
  destruct (Z.leb_spec 0 n) as [Hn|Hn].
  - rewrite Z.abs_eq by done.
    destruct (str_nonneg n Hn) as (c & s & E & Hc & Hs). rewrite E.
    change (u "-") with [45%N]. rewrite replace_absent.
    2: { apply forallb_isdigit_contains; [|done]. cbn. by rewrite Hc, Hs. }
    by rewrite lstrip_digit.
  - rewrite Z.abs_neq by lia. rewrite (str_neg n Hn).
    destruct (str_nonneg (- n) ltac:(lia)) as (c & s & E & Hc & Hs). rewrite E.
    change (u "-") with [45%N]. rewrite replace_head.
    rewrite replace_absent.
    2: { apply forallb_isdigit_contains; [|done]. cbn. by rewrite Hc, Hs. }
    cbn [lstrip N.eqb Pos.eqb]. rewrite (isdigit_not c 45%N) by done.
    reflexivity.
Qed.

Lemma str_abs_no_sign n s : str (Z.abs n) <> 45%N :: s.
Proof.
  destruct (str_nonneg (Z.abs n) ltac:(lia)) as (c & s' & E & Hc & _).
  rewrite E. intros [= -> _]. done.
Qed.

(** X13 -- The admin test of [new_quest] ignores the sign of the id. For
    an integer chat id and an ADMIN_GROUP_ID that is the numeral of an
    integer, the test passes exactly when the two have the same absolute
    value: the chat [n] is taken for the admin group [-n]. *)
Theorem is_admin_ignores_sign n m :
  is_admin (Int n) (Str (str m)) = true <-> Z.abs n = Z.abs m.
Proof.
  assert (Hm : get_normalized_chat_id (Str (str m)) =
               get_normalized_chat_id (Int m)) by reflexivity.
  unfold is_admin. rewrite Hm, !get_normalized_chat_id_int.
  set (dn := str (Z.abs n)). set (dm := str (Z.abs m)).
  assert (Hd : dn = dm <-> Z.abs n = Z.abs m).
  { split; [apply str_inj|]. unfold dn, dm. by intros ->. }
  assert (Hx : forall s, [45%N] ++ dn <> dm /\ dn <> [45%N] ++ s).
  { intros s. split.
    - intros H. symmetry in H. by apply str_abs_no_sign in H.
    - apply str_abs_no_sign. }
  rewrite <- Hd. rewrite existsb_exists. change (u "-") with [45%N].
  split.
  - intros (cf & Hcf & Hin). apply bool_decide_eq_true in Hin.
    assert (Hcf' : cf = dn \/ cf = [45%N] ++ dn).
    { destruct (0 <=? n); cbn [In] in Hcf;
        destruct Hcf as [<-|[<-|[<-|[<-|[]]]]]; auto. }
    assert (Hin' : cf = dm \/ cf = [45%N] ++ dm).
    { destruct (0 <=? m); rewrite !elem_of_cons, elem_of_nil in Hin;
        destruct Hin as [->|[->|[->|[->|[]]]]]; auto. }
    destruct Hcf' as [->| ->], Hin' as [H|H].
    + done.
    + by apply (Hx dm) in H.
    + by apply (Hx dm) in H.
    + by injection H.
  - intros <-. exists dn. split.
    + destruct (0 <=? n); cbn; auto.
    + apply bool_decide_eq_true.
      destruct (0 <=? m); rewrite !elem_of_cons; auto.
Qed.

(** X14 -- The two admin tests do not agree. A chat that passes the test
    of [tripper_info], which compares the numeral of the chat id with
    ADMIN_GROUP_ID, passes the test of [new_quest] as well; but the test of
    [tripper_info] tells a chat id from its negative, which the test of
    [new_quest] does not: for an id [n] other than 0 and the admin group
    [-n], [new_quest] is open and [tripper_info] is not. *)
Theorem tripper_test_is_stricter n ADMIN_GROUP_ID :
  (tripper_allowed n ADMIN_GROUP_ID = true ->
   is_admin (Int n) (Str ADMIN_GROUP_ID) = true)
  /\ (forall m, tripper_allowed n (str m) = true <-> n = m)
  /\ (n <> 0 ->
      is_admin (Int n) (Str (str (- n))) = true
      /\ tripper_allowed n (str (- n)) = false).
Proof.
  unfold tripper_allowed. split_and!.
  - intros H. apply bool_decide_eq_true in H. subst ADMIN_GROUP_ID.
    unfold is_admin, get_normalized_chat_id. cbn [str_of existsb].
    rewrite bool_decide_eq_true_2; [done|]. apply elem_of_cons. by left.
  - intros m. rewrite bool_decide_eq_true. split; [apply str_inj|by intros ->].
  - intros Hn. split.
    + assert (Hm : get_normalized_chat_id (Str (str (- n))) =
                   get_normalized_chat_id (Int (- n))) by reflexivity.
      unfold is_admin. rewrite Hm, !get_normalized_chat_id_int, Z.abs_opp.
      apply existsb_exists. exists (str (Z.abs n)). split.
      * destruct (0 <=? n); cbn; auto.
      * apply bool_decide_eq_true.
        destruct (0 <=? - n); rewrite !elem_of_cons; auto.
    + apply bool_decide_eq_false. intros H. apply str_inj in H. lia.
Qed.

Lemma tripper_test_is_stricter_witness :
  is_admin (Int (-1001234)) (Str (u "-1001234")) = true
  /\ is_admin (Int 1001234) (Str (u "-1001234")) = true
  /\ tripper_allowed 1001234 (u "-1001234") = false.
Proof.
  split.
  - by apply (tripper_test_is_stricter (-1001234) (u "-1001234")).
  - by apply (tripper_test_is_stricter 1001234 (u "-1001234")).
Defined.

End GroupIdProofs.

(** ** zo_quest_bot.py: the keyword in a caption, and callback data *)

Module KeywordProofs.
Import QuestUtils QuestSpec Bot PyMoreLemmas.

Section Match.

Context (lower : list N -> list N) (isdecimal : N -> bool).
Hypothesis ascii_digits : forall c, isdigit c = true -> isdecimal c = true.

Lemma decimal_run_digits d post :
  forallb isdigit d = true ->
  match post with c :: _ => isdecimal c = false | [] => True end ->
  decimal_run isdecimal (d ++ post) = length d.
Proof.
  intros Hd Hpost. induction d as [|c d IH]; cbn.
  - destruct post as [|c post]; [done|]. cbn. by rewrite Hpost.
  - cbn in Hd. apply andb_true_iff in Hd as [Hc Hd].
    rewrite (ascii_digits c Hc). by rewrite IH.
Qed.

(** The first pattern at the start of a keyword that is followed by
    something other than a digit. *)
Lemma pattern_at_keyword d post :
  length d = 3%nat -> forallb isdigit d = true ->
  match post with c :: _ => isdecimal c = false | [] => True end ->
  match_literal (u "zozozo") (match_decimals isdecimal)
    (u "zozozo" ++ d ++ post) = Some 9%nat.
Proof.
  intros Hl Hd Hpost. unfold match_literal, match_decimals.
  rewrite startswith_app.
  rewrite drop_app_length.
  rewrite (decimal_run_digits d post Hd Hpost), Hl. reflexivity.
Qed.

(** No pattern matches where the string does not start with a [z]. *)
Lemma pattern_needs_z rest c s :
  (c =? 122)%N = false ->
  match_literal (u "zozozo") rest (c :: s) = None.
Proof.
  intros Hc. unfold match_literal.
  change (startswith (c :: s) (u "zozozo"))
    with ((c =? 122)%N && startswith s (u "ozozo")).
  by rewrite Hc.
Qed.

Lemma search_keyword pre d post :
  contains 122%N pre = false ->
  length d = 3%nat -> forallb isdigit d = true ->
  match post with c :: _ => isdecimal c = false | [] => True end ->
  search (match_literal (u "zozozo") (match_decimals isdecimal))
    (pre ++ u "zozozo" ++ d ++ post) = Some (u "zozozo" ++ d).
Proof.
  intros Hpre Hl Hd Hpost. induction pre as [|c pre IH].
  - cbn [app]. destruct (u "zozozo" ++ d ++ post) as [|x s] eqn:E; [done|].
    cbn [search]. rewrite <- E, (pattern_at_keyword d post Hl Hd Hpost).
    f_equal. rewrite app_assoc.
    apply take_app_length'. rewrite length_app, Hl. reflexivity.
  - unfold contains in Hpre. cbn [existsb] in Hpre.
    apply orb_false_iff in Hpre as [Hc Hpre]. rewrite N.eqb_sym in Hc.
    cbn [app search]. rewrite (pattern_needs_z _ c _ Hc). by apply IH.
Qed.

Lemma keyword_clean x d :
  forallb isdigit d = true -> isdigit x = false ->
  contains x (u "zozozo") = false ->
  replace [x] [] (u "zozozo" ++ d) = u "zozozo" ++ d.
Proof.
  intros Hd Hx Hz. apply GroupIdProofs.replace_absent.
  unfold contains in *. rewrite existsb_app, Hz. cbn.
  by apply GroupIdProofs.forallb_isdigit_contains.
Qed.

(** X15 -- A keyword made by [create_quest_keyword] is found again in a
    submission. If the lower-cased caption contains the keyword of a
    title, with no letter [z] before it and no digit right after it, then
    [handle_submission] looks the quest up with exactly that keyword: the
    first of its three patterns matches it and the clean-up leaves it as it
    is. *)
Theorem keyword_found_in_caption title caption pre post :
  lower caption = pre ++ create_quest_keyword lower title ++ post ->
  contains 122%N pre = false ->
  match post with c :: _ => isdecimal c = false | [] => True end ->
  cleaned_keyword lower isdecimal caption =
  Some (create_quest_keyword lower title).
Proof.
  intros Hcap Hpre Hpost. unfold cleaned_keyword. rewrite Hcap.
  unfold create_quest_keyword.
  set (n := title_hash _).
  pose proof (KeyboardProofs.title_hash_range
                (replace (u " ") (u "_") (lower title))) as Hn. fold n in Hn.
  destruct (DisplayIdProofs.format_03d_three_digits n Hn) as [Hl Hd].
  set (d := format_03d n) in *.
  unfold keyword_patterns. cbn [first_match].
  rewrite <- app_assoc.
  rewrite (search_keyword pre d post Hpre Hl Hd Hpost).
  change (u " ") with [32%N]. change (u "-") with [45%N].
  change (u "_") with [95%N].
  by rewrite !keyword_clean.
Qed.

End Match.

Lemma keyword_found_in_caption_witness :
  cleaned_keyword SampleQuests.ascii_lower isdigit
    (u "Done! ZOZOZO" ++ format_03d
       (title_hash (replace (u " ") (u "_") (u "say zo zo"))) ++ u " :)") =
  Some (create_quest_keyword SampleQuests.ascii_lower (u "Say Zo Zo")).
Proof.
  apply (keyword_found_in_caption SampleQuests.ascii_lower isdigit
           (fun c H => H) (u "Say Zo Zo") _ (u "done! ") (u " :)")).
  - vm_compute. reflexivity.
  - reflexivity.
  - reflexivity.
Defined.

(** *** Callback data *)

Lemma party_keyboard_eq page :
  create_paginated_party_keyboard page =
  item_rows (u "party_") PARTY_NAMES ++ [skip_row "party_skip"].
Proof.
  unfold create_paginated_party_keyboard, ITEMS_PER_PAGE.
  change ((Z.of_nat (length PARTY_NAMES) + 4 - 1) / 4) with 1.
  assert (Hp : (if page <? 1 then 1 else if page >? 1 then 1 else page) = 1).
  { destruct (Z.ltb_spec page 1); [done|]. rewrite (Z.gtb_ltb page 1).
    destruct (Z.ltb_spec 1 page); lia. }
  rewrite Hp. reflexivity.
Qed.

(** X16 -- Every button of the party and category keyboards comes back
    to the branch of [handle_callback] that is meant for it, with the value
    it stands for: a party or category button gives the name on its label,
    the Skip button gives ["skip"], and the back button of the category
    keyboard goes to the page branch. No name of the two tables is changed
    by the removal of the prefix, and none is taken for a page request. *)
Theorem keyboard_buttons_decode party_name page :
  Forall (Forall (fun b =>
    handle_callback_branch (callback_data b) =
    Party (if bool_decide (text b = u "Skip") then u "skip" else text b)))
    (create_paginated_party_keyboard page)
  /\
  Forall (Forall (fun b =>
    handle_callback_branch (callback_data b) =
    if bool_decide (text b = LEFT) then CategoryPage
    else Category (if bool_decide (text b = u "Skip") then u "skip"
                   else text b)))
    (create_paginated_category_keyboard party_name page).
Proof.
  split.
  - rewrite party_keyboard_eq. repeat constructor.
  - unfold create_paginated_category_keyboard.
    destruct (CATEGORY_TYPES !! party_name) as [categories|] eqn:E;
      cbn [default from_option id].
    + pose proof (KeyboardProofs.CATEGORY_TYPES_length _ _ E) as Hl.
      rewrite KeyboardProofs.category_keyboard_one_page by lia. clear Hl.
      unfold CATEGORY_TYPES in E. apply elem_of_list_to_map_2 in E.
      repeat (apply elem_of_cons in E as [[= _ ->]|E];
              [repeat constructor|]).
      by apply elem_of_nil in E.
    + rewrite KeyboardProofs.category_keyboard_empty.
      destruct (1 <? page); repeat constructor.
Qed.

End KeywordProofs.

(** ** icon_provider.py: what a caller can rely on *)

Module IconCallProofs.
Import IconProvider Spec IconProofs.

Section WithEnv.

Context (env : Env) (ICONS_DIR : list N).

Local Abbreviation get := (get_icon_by_category env ICONS_DIR).
Local Abbreviation default_path :=
  (filepath_of ICONS_DIR (u "default") default_config).

(** Whether a load fails, and how, does not depend on the objects there
    are: it is decided by the file and by the conversion of its image. *)
Lemma load_icon_raise_again filepath h e h' h2 :
  load_icon env filepath h = (Raise e, h') ->
  exists h2', load_icon env filepath h2 = (Raise e, h2') /\ h2 `prefix_of` h2'.
Proof.
  unfold load_icon, Image_open, convert, bind, lift, check, alloc, deref.
  destruct (image_open env filepath) as [[m size]|e0].
  - rewrite !lookup_app_r by done. rewrite !Nat.sub_diag. cbn [lookup list_lookup].
    destruct (convert_fault env _ _); [|discriminate].
    intros [= <- <-]. eexists. split; [done|]. by eexists.
  - intros [= <- <-]. eauto.
Qed.

(** The four ways a call for ["default"] can go. *)
Inductive default_case (st : state) : Exc (option nat) * state -> Prop :=
| default_hit icon :
    ICON_CACHE st !! u "default" = Some icon ->
    default_case st (Ok (Some icon), st)
| default_missing :
    ICON_CACHE st !! u "default" = None ->
    path_exists env default_path = false ->
    default_case st (Ok None, st)
| default_loaded icon h :
    ICON_CACHE st !! u "default" = None ->
    path_exists env default_path = true ->
    load_icon env default_path (objects st) = (Ok icon, h) ->
    default_case st
      (Ok (Some icon),
       {| ICON_CACHE := <[u "default" := icon]> (ICON_CACHE st); objects := h |})
| default_failed e h :
    ICON_CACHE st !! u "default" = None ->
    path_exists env default_path = true ->
    load_icon env default_path (objects st) = (Raise e, h) ->
    default_case st (Ok None, {| ICON_CACHE := ICON_CACHE st; objects := h |}).

Lemma get_default_case st : default_case st (get (u "default") st).
Proof.
  unfold get_icon_by_category, get_icon_by_category_body at 1.
  rewrite known_default, default_is_category, is_default_default.
  destruct (ICON_CACHE st !! u "default") as [icon|] eqn:Ec.
  { by apply default_hit. }
  destruct (path_exists env _) eqn:Ep; cbn [negb].
  2: { by apply default_missing. }
  destruct (load_icon env _ (objects st)) as [[icon|e] h] eqn:El.
  - by apply default_loaded.
  - by eapply default_failed.
Qed.

(** The ways a call for a category of its own can go: the last two hand
    over to the call for ["default"]. *)
Inductive known_case (category : list N) (config : category_config)
    (st : state) : Exc (option nat) * state -> Prop :=
| known_hit icon :
    ICON_CACHE st !! category = Some icon ->
    known_case category config st (Ok (Some icon), st)
| known_loaded icon h :
    ICON_CACHE st !! category = None ->
    path_exists env (filepath_of ICONS_DIR category config) = true ->
    load_icon env (filepath_of ICONS_DIR category config) (objects st)
      = (Ok icon, h) ->
    known_case category config st
      (Ok (Some icon),
       {| ICON_CACHE := <[category := icon]> (ICON_CACHE st); objects := h |})
| known_missing :
    ICON_CACHE st !! category = None ->
    path_exists env (filepath_of ICONS_DIR category config) = false ->
    known_case category config st (get (u "default") st)
| known_failed e h :
    ICON_CACHE st !! category = None ->
    path_exists env (filepath_of ICONS_DIR category config) = true ->
    load_icon env (filepath_of ICONS_DIR category config) (objects st)
      = (Raise e, h) ->
    known_case category config st
      (get (u "default") {| ICON_CACHE := ICON_CACHE st; objects := h |}).

Lemma get_known_case category config st :
  ICON_CATEGORIES !! category = Some config ->
  category <> u "default" ->
  known_case category config st (get category st).
Proof.
  intros Hc Hd. rewrite get_icon_by_category_unfold.
  unfold get_icon_by_category_body.
  assert (known category = true) as ->.
  { unfold known. apply bool_decide_eq_true. rewrite Hc. eauto. }
  assert (is_default category = false) as ->
    by (by apply bool_decide_eq_false).
  rewrite Hc.
  destruct (ICON_CACHE st !! category) as [icon|] eqn:Ec.
  { by apply known_hit. }
  destruct (path_exists env _) eqn:Ep; cbn [negb].
  - destruct (load_icon env _ (objects st)) as [[icon|e] h] eqn:El.
    + by apply known_loaded.
    + by eapply known_failed.
  - pose proof (get_default_case st) as Hdef.
    pose proof (known_missing category config st Ec Ep) as Hk.
    destruct (get (u "default") st) as [[r|e] st1]; [done|]. inversion Hdef.
Qed.

(** A call for ["default"] that returns [None] leaves the cache alone, and
    so does every later call for ["default"], in whatever state of the
    objects, as long as the cache has no entry for it. *)
Lemma default_none st st' :
  get (u "default") st = (Ok None, st') ->
  ICON_CACHE st' = ICON_CACHE st /\
  ICON_CACHE st !! u "default" = None /\
  forall st2, ICON_CACHE st2 !! u "default" = None ->
    exists st2', get (u "default") st2 = (Ok None, st2')
                 /\ ICON_CACHE st2' = ICON_CACHE st2.
Proof.
  intros H. pose proof (get_default_case st) as Hc. rewrite H in Hc.
  inversion Hc as [| Ec Ep | | e h Ec Ep El]; subst.
  - split_and!; [done|done|]. intros st2 E2.
    pose proof (get_default_case st2) as H2.
    inversion H2 as [icon E|E Ep' Heq|icon h E Ep' El' Heq|e h E Ep' El' Heq];
      try congruence.
    by exists st2.
  - split_and!; [done|done|]. intros st2 E2.
    pose proof (get_default_case st2) as H2.
    destruct (load_icon_raise_again _ _ _ _ (objects st2) El) as (h2 & El2 & _).
    inversion H2 as [icon E|E Ep' Heq|icon h' E Ep' El' Heq|e' h' E Ep' El' Heq];
      try congruence.
    by eexists.
Qed.

(** X17 -- Asking again does not help. When [get_icon_by_category] returns
    [None], the cache has no icon for ["default"] and is left as it was,
    and the call for ["default"] that both callers make next returns [None]
    as well, with the cache still unchanged: with the same files, a missing
    icon stays missing, and the callers' fallback never finds one. *)
Theorem icon_none_retry_is_none category st st' :
  get category st = (Ok None, st') ->
  ICON_CACHE st' = ICON_CACHE st /\
  ICON_CACHE st !! u "default" = None /\
  exists st'', get (u "default") st' = (Ok None, st'')
               /\ ICON_CACHE st'' = ICON_CACHE st.
Proof.
  intros H.
  assert (G : forall st1, ICON_CACHE st1 = ICON_CACHE st ->
                get (u "default") st1 = (Ok None, st') ->
                ICON_CACHE st' = ICON_CACHE st /\
                ICON_CACHE st !! u "default" = None /\
                exists st'', get (u "default") st' = (Ok None, st'')
                             /\ ICON_CACHE st'' = ICON_CACHE st).
  { intros st1 E1 H1. destruct (default_none _ _ H1) as (Hc & Hn & Hagain).
    rewrite E1 in Hc, Hn. split_and!; [done|done|].
    destruct (Hagain st') as (st'' & H2 & Hc2); [by rewrite Hc|].
    exists st''. split; [done|]. by rewrite Hc2. }
  destruct (known category) eqn:Hk.
  2: { rewrite unknown_is_default in H by done. by apply (G st). }
  destruct (decide (category = u "default")) as [->|Hd]; [by apply (G st)|].
  destruct (known_lookup _ Hk) as [config Hc].
  pose proof (get_known_case category config st Hc Hd) as Hcase.
  rewrite H in Hcase.
  inversion Hcase as [| |Ec Ep Heq|e h Ec Ep El Heq].
  - by apply (G st).
  - by apply (G {| ICON_CACHE := ICON_CACHE st; objects := h |}).
Qed.






End WithEnv.

Lemma icon_none_retry_is_none_witness :
  exists st' st'',
    get_icon_by_category Sample.env_no_icons Sample.ICONS_DIR (u "Music")
      initial_state = (Ok None, st') /\
    get_icon_by_category Sample.env_no_icons Sample.ICONS_DIR (u "default")
      st' = (Ok None, st'').
Proof.
  destruct (get_icon_by_category Sample.env_no_icons Sample.ICONS_DIR
              (u "Music") initial_state) as [r st'] eqn:E.
  assert (r = Ok None) as ->
    by (apply (f_equal fst) in E; vm_compute in E; congruence).
  destruct (icon_none_retry_is_none Sample.env_no_icons Sample.ICONS_DIR
              (u "Music") initial_state st' E)
    as (_ & _ & st'' & H & _).
  exists st', st''. split; [reflexivity|exact H].
Defined.


End IconCallProofs.

(** ** icon_provider.py: the categories on offer *)

Module IconCatalogProofs.
Import IconProvider IconCatalog IconCatalogSpec QuestUtils Bot Spec IconProofs
  PyMoreLemmas.

Lemma ICON_CATEGORIES_from_items :
  ICON_CATEGORIES = list_to_map ICON_CATEGORIES_items.
Proof. reflexivity. Qed.

Lemma get_all_categories_offered : Forall offered get_all_categories.
Proof.
  unfold get_all_categories.
  match goal with |- Forall _ ?l => set (cats := l) end.
  vm_compute in cats. subst cats.
  repeat constructor; try (vm_compute; discriminate).
Qed.

Lemma get_all_categories_sorted :
  StronglySorted (fun a b => str_lt (info_name a) (info_name b) = true)
    get_all_categories.
Proof.
  unfold get_all_categories.
  match goal with |- StronglySorted _ ?l => set (cats := l) end.
  vm_compute in cats. subst cats.
  repeat constructor.
Qed.

Lemma get_all_categories_complete key config :
  ICON_CATEGORIES !! key = Some config ->
  key <> u "default" ->
  key ∈ map info_id get_all_categories.
Proof.
  rewrite ICON_CATEGORIES_from_items. intros H Hd.
  apply elem_of_list_to_map_2 in H. unfold ICON_CATEGORIES_items in H.
  apply list_elem_of_In.
  repeat (apply elem_of_cons in H as [[= -> _]|H];
          [vm_compute; tauto|]).
  by apply elem_of_nil in H.
Qed.

(** A category on offer that is not cached is read from the file of its
    own name. *)
Lemma offered_loads_own_file env ICONS_DIR st cat icon h :
  offered cat ->
  ICON_CACHE st !! info_id cat = None ->
  path_exists env (icon_path ICONS_DIR (info_id cat)) = true ->
  load_icon env (icon_path ICONS_DIR (info_id cat)) (objects st)
    = (Ok icon, h) ->
  get_icon_by_category env ICONS_DIR (info_id cat) st =
  (Ok (Some icon),
   {| ICON_CACHE := <[info_id cat := icon]> (ICON_CACHE st); objects := h |}).
Proof.
  intros (_ & Hd & Hc & _) Ec Ep El.
  pose proof (IconCallProofs.get_known_case env ICONS_DIR _ _ st Hc Hd) as Hk.
  remember (get_icon_by_category env ICONS_DIR (info_id cat) st) as r eqn:Er.
  change (icon_path ICONS_DIR (info_id cat))
    with (filepath_of ICONS_DIR (info_id cat)
            {| description := info_description cat; filename := None |})
    in Ep, El.
  destruct Hk as [icon' Ec'|icon' h' Ec' Ep' El'|Ec' Ep'|e h' Ec' Ep' El'];
    try congruence.
Qed.

(** X19 -- The categories that quest creation offers. Every entry of
    [get_all_categories] is a key of [ICON_CATEGORIES] other than
    ["default"], shown under its own key; the list is in strictly
    ascending order of name, so no category is offered twice, and every
    key but ["default"] is in it. The button of a category comes back to
    the icon branch of [handle_callback] with its key unchanged, and a
    category that is not cached yet is read from the file
    [ICONS_DIR/<key>.png] and cached under its key. *)
Theorem offered_categories :
  Forall offered get_all_categories
  /\ StronglySorted (fun a b => str_lt (info_name a) (info_name b) = true)
       get_all_categories
  /\ (forall key config,
        ICON_CATEGORIES !! key = Some config -> key <> u "default" ->
        key ∈ map info_id get_all_categories)
  /\ (forall env ICONS_DIR st cat icon h,
        cat ∈ get_all_categories ->
        ICON_CACHE st !! info_id cat = None ->
        path_exists env (icon_path ICONS_DIR (info_id cat)) = true ->
        load_icon env (icon_path ICONS_DIR (info_id cat)) (objects st)
          = (Ok icon, h) ->
        get_icon_by_category env ICONS_DIR (info_id cat) st =
        (Ok (Some icon),
         {| ICON_CACHE := <[info_id cat := icon]> (ICON_CACHE st);
            objects := h |})).
Proof.
  split_and!.
  - apply get_all_categories_offered.
  - apply get_all_categories_sorted.
  - apply get_all_categories_complete.
  - intros env ICONS_DIR st cat icon h Hcat.
    apply offered_loads_own_file.
    pose proof get_all_categories_offered as Ho.
    rewrite Forall_forall in Ho. by apply Ho.
Qed.

Lemma offered_categories_witness :
  let music := {| info_id := u "Music"; info_name := u "Music";
                  info_description := u "Music";
                  info_symbol := [128444; 65039]%N |} in
  u "Music" ∈ map info_id get_all_categories /\
  exists st',
    get_icon_by_category Sample.env Sample.ICONS_DIR (info_id music)
      initial_state = (Ok (Some 1%nat), st').
Proof.
  intros music.
  destruct offered_categories as (_ & _ & Hcomplete & Hload).
  split.
  - apply (Hcomplete (u "Music") {| description := u "Music"; filename := None |}).
    + vm_compute. reflexivity.
    + discriminate.
  - eexists.
    apply (Hload Sample.env Sample.ICONS_DIR initial_state music 1%nat).
    + apply list_elem_of_In. vm_compute. tauto.
    + reflexivity.
    + reflexivity.
    + vm_compute. reflexivity.
Defined.

End IconCatalogProofs.

(** ** badge_utils.py *)

Module BadgeUtilsProofs.
Import BadgeGenerator IconProvider BadgeUtils Spec IconProofs.

Section WithEnv.

Context (env : Env) (ICONS_DIR : list N).
Context (insert_fault : list N -> image -> option exn).

(** One call of [get_icon_by_category] keeps the objects and the cache
    entries there are. *)
Lemma outcome_extends st r st' :
  outcome env ICONS_DIR st r st' ->
  objects st `prefix_of` objects st' /\ ICON_CACHE st ⊆ ICON_CACHE st'
  /\ exists icon, r = Ok icon.
Proof.
  intros Ho.
  inversion Ho as [key icon h' Hk Hp|h' Hp|key config icon h0 h' Hc Hk Hp He Hl];
    subst; cbn [ICON_CACHE objects].
  - eauto.
  - eauto.
  - destruct (load_icon_ok _ _ _ _ _ Hl) as (file_im & im & -> & _).
    split_and!; [|by apply insert_subseteq|eauto].
    etrans; [exact Hp|]. by eexists.
Qed.

Lemma get_icon_extends category st :
  exists icon st1,
    get_icon_by_category env ICONS_DIR category st = (Ok icon, st1)
    /\ objects st `prefix_of` objects st1
    /\ ICON_CACHE st ⊆ ICON_CACHE st1
    /\ (reachable ICONS_DIR st -> reachable ICONS_DIR st1).
Proof.
  pose proof (get_icon_by_category_outcome env ICONS_DIR category st) as Ho.
  pose proof (reachable_get_icon ICONS_DIR env category st) as Hr.
  destruct (get_icon_by_category env ICONS_DIR category st) as [r st1].
  cbn [fst snd] in *.
  destruct (outcome_extends _ _ _ Ho) as (Hp & Hc & icon & ->).
  eauto 10.
Qed.

Lemma load_icon_for_extends icon_category st :
  exists icon st1,
    load_icon_for env ICONS_DIR icon_category st = (Ok icon, st1)
    /\ objects st `prefix_of` objects st1
    /\ ICON_CACHE st ⊆ ICON_CACHE st1
    /\ (reachable ICONS_DIR st -> reachable ICONS_DIR st1).
Proof.
  unfold load_icon_for.
  destruct icon_category as [category|]; [|by eauto 10].
  destruct (nonempty category); [|by eauto 10].
  destruct (get_icon_extends category st) as (icon & st1 & -> & Hp & Hc & Hr).
  destruct icon as [icon|]; [by eauto 10|].
  destruct (get_icon_extends (u "default") st1)
    as (icon' & st2 & -> & Hp' & Hc' & Hr').
  exists icon', st2. split_and!; [done| | |auto].
  - by etrans.
  - by etrans.
Qed.

(** What the body does to the world, whatever it returns. *)
Lemma generate_and_store_body_icons quest_data icon_category quest_id w :
  exists icon st1,
    load_icon_for env ICONS_DIR icon_category (icons w) = (Ok icon, st1) /\
    icons (generate_and_store_body env ICONS_DIR insert_fault quest_data
             icon_category quest_id w).2 =
    {| ICON_CACHE := ICON_CACHE st1;
       objects :=
         (generate_quest_badge env
            (default [] (data_title quest_data))
            (default [] (data_description quest_data))
            (default [] (data_validation_type quest_data))
            (default [] (data_deadline quest_data))
            (badge_quest_id env quest_data quest_id)
            (default 0 (data_points quest_data)) icon (objects st1)).2 |}.
Proof.
  unfold generate_and_store_body.
  destruct (load_icon_for_extends icon_category (icons w))
    as (icon & st1 & E & _).
  exists icon, st1. split; [done|]. rewrite E.
  destruct (generate_quest_badge _ _ _ _ _ _ _ _ _) as [[[b|]|e] h]; done.
Qed.

Lemma generate_and_store_badge_world quest_data icon_category quest_id w :
  (generate_and_store_badge env ICONS_DIR insert_fault quest_data
     icon_category quest_id w).2 =
  (generate_and_store_body env ICONS_DIR insert_fault quest_data
     icon_category quest_id w).2
  /\ exists b,
       (generate_and_store_badge env ICONS_DIR insert_fault quest_data
          icon_category quest_id w).1 = Ok b.
Proof.
  unfold generate_and_store_badge.
  destruct (generate_and_store_body _ _ _ _ _ _ _) as [[b|e] w']; eauto.
Qed.

(** X20 -- [generate_and_store_badge] always returns, a badge or [None],
    and is safe for the icon cache. Every image object that existed before
    the call is unchanged after it, every cache entry is kept, and if the
    module state could be reached by calls of icon_provider and
    badge_generator, so can the state after the call: the cache still maps
    keys of [ICON_CATEGORIES] to RGBA images read from their files. *)
Theorem generate_and_store_badge_keeps_cache quest_data icon_category
    quest_id w :
  let r := generate_and_store_badge env ICONS_DIR insert_fault quest_data
             icon_category quest_id w in
  (exists b, r.1 = Ok b)
  /\ unchanged (objects (icons w)) (objects (icons r.2))
  /\ ICON_CACHE (icons w) ⊆ ICON_CACHE (icons r.2)
  /\ (reachable ICONS_DIR (icons w) ->
      reachable ICONS_DIR (icons r.2) /\ cache_ok ICONS_DIR (icons r.2)).
Proof.
  cbv zeta.
  destruct (generate_and_store_badge_world quest_data icon_category quest_id w)
    as [-> Hb].
  destruct (generate_and_store_body_icons quest_data icon_category quest_id w)
    as (icon & st1 & El & ->).
  destruct (load_icon_for_extends icon_category (icons w))
    as (icon' & st1' & El' & Hp & Hc & Hr).
  rewrite El in El'. injection El' as <- <-.
  cbn [ICON_CACHE objects].
  set (g := generate_quest_badge _ _ _ _ _ _ _ _ _).
  pose proof (FrameProofs.generate_quest_badge_unchanged env
    (default [] (data_title quest_data))
    (default [] (data_description quest_data))
    (default [] (data_validation_type quest_data))
    (default [] (data_deadline quest_data))
    (badge_quest_id env quest_data quest_id)
    (default 0 (data_points quest_data)) icon (objects st1)) as Hu.
  fold g in Hu.
  split_and!; [done| |done|].
  - unfold unchanged in *. destruct Hp as [k Hk].
    transitivity (take (length (objects (icons w)))
                    (take (length (objects st1)) g.2)).
    { rewrite take_take. f_equal. rewrite Hk, length_app. lia. }
    rewrite Hu, Hk. apply take_app_length.
  - intros Hw. specialize (Hr Hw).
    assert (Hreach : reachable ICONS_DIR
                       {| ICON_CACHE := ICON_CACHE st1; objects := g.2 |})
      by (by apply reachable_badge).
    split; [done|]. by apply reachable_cache_ok.
Qed.



End WithEnv.


Lemma generate_and_store_badge_keeps_cache_witness :
  cache_ok Sample.ICONS_DIR
    (icons (generate_and_store_badge Sample.env Sample.ICONS_DIR
              (fun _ _ => None)
              {| data_title := Some (u "Zo Zo");
                 data_description := Some (u "ZO ZO ZO");
                 data_validation_type := Some (u "Photo");
                 data_deadline := Some (u "everyday");
                 data_points := Some 111 |}
              (Some (u "Music")) (Some (QInt 7))
              {| icons := initial_state; badge_images := [] |}).2).
Proof.
  destruct (generate_and_store_badge_keeps_cache Sample.env Sample.ICONS_DIR
              (fun _ _ => None)
              {| data_title := Some (u "Zo Zo");
                 data_description := Some (u "ZO ZO ZO");
                 data_validation_type := Some (u "Photo");
                 data_deadline := Some (u "everyday");
                 data_points := Some 111 |}
              (Some (u "Music")) (Some (QInt 7))
              {| icons := initial_state; badge_images := [] |})
    as (_ & _ & _ & H).
  apply H. apply reachable_initial.
Defined.

End BadgeUtilsProofs.

(** ** badge_generator.py: the bands of the border gradient *)

Module GradientProofs.
Import BadgeGenerator Gradient.

(** The float products are quarters of integers: their integer parts are
    quotients. *)
Lemma int_of_quarters (height i : Z) :
  0 <= height -> 0 <= i ->
  int_of_float (inject_Z i * segment_height height) = (i * height) / 4.
Proof.
  intros Hh Hi. unfold int_of_float, segment_height, num_segments.
  assert (E : (inject_Z i * (inject_Z height / inject_Z 4) == (i * height) # 4)%Q).
  { unfold Qeq, Qmult, Qdiv, Qinv, inject_Z. cbn. lia. }
  assert (Hpos : Qle_bool 0 (inject_Z i * (inject_Z height / inject_Z 4)) = true).
  { apply Qle_bool_iff. rewrite E. unfold Qle. cbn. nia. }
  rewrite Hpos. rewrite (Qfloor_comp _ _ E). reflexivity.
Qed.

Lemma top_quotient height i :
  0 <= height -> 0 <= i -> top height i = (i * height) / 4.
Proof. apply int_of_quarters. Qed.

Lemma bottom_quotient height i :
  0 <= height -> 0 <= i -> bottom height i = ((i + 1) * height) / 4.
Proof. intros Hh Hi. apply int_of_quarters; lia. Qed.

(** X22 -- The four bands of the border gradient tile the card. For a
    card of positive height, the first band starts at row 0, each band ends
    on the row where the next one starts, and the last one ends at
    [height]; the bands differ in height by at most one row. Every row of
    the card gets the colour of exactly one band, the one whose start is
    the last at or above the row: no row of the border is left without a
    colour, and the row that two bands share takes the colour of the lower
    band. *)
Theorem gradient_bands_tile height :
  0 < height ->
  top height 0 = 0
  /\ bottom height 3 = height
  /\ (forall i, 0 <= i -> bottom height i = top height (i + 1))
  /\ (forall i, 0 <= i < 4 ->
        height / 4 <= top height (i + 1) - top height i <= height / 4 + 1)
  /\ (forall y, 0 <= y < height ->
        exists i, segment_of_row height y = Some i
                  /\ 0 <= i < 4
                  /\ top height i <= y < top height (i + 1)).
Proof.
  intros Hh.
  assert (T : forall i, 0 <= i -> top height i = (i * height) / 4)
    by (intros; apply top_quotient; lia).
  assert (B : forall i, 0 <= i -> bottom height i = ((i + 1) * height) / 4)
    by (intros; apply bottom_quotient; lia).
  split_and!.
  - rewrite T by lia. reflexivity.
  - rewrite B by lia. change (3 + 1) with 4. rewrite Z.mul_comm.
    apply Z.div_mul. lia.
  - intros i Hi. rewrite B, T by lia. reflexivity.
  - intros i Hi. rewrite !T by lia.
    pose proof (Z.div_mod (i * height) 4 ltac:(lia)).
    pose proof (Z.div_mod ((i + 1) * height) 4 ltac:(lia)).
    pose proof (Z.div_mod height 4 ltac:(lia)).
    pose proof (Z.mod_pos_bound (i * height) 4 ltac:(lia)).
    pose proof (Z.mod_pos_bound ((i + 1) * height) 4 ltac:(lia)).
    pose proof (Z.mod_pos_bound height 4 ltac:(lia)).
    lia.
  - intros y Hy. unfold segment_of_row, num_segments.
    change (Z.to_nat 4) with 4%nat. cbn [segment_of_row_from].
    change (0 + 1) with 1. change (1 + 1) with 2. change (2 + 1) with 3.
    rewrite !T, !B by lia.
    change (0 + 1) with 1. change (1 + 1) with 2. change (2 + 1) with 3.
    change (3 + 1) with 4.
    pose proof (Z.div_mod (1 * height) 4 ltac:(lia)).
    pose proof (Z.div_mod (2 * height) 4 ltac:(lia)).
    pose proof (Z.div_mod (3 * height) 4 ltac:(lia)).
    pose proof (Z.div_mod (4 * height) 4 ltac:(lia)).
    pose proof (Z.mod_pos_bound (1 * height) 4 ltac:(lia)).
    pose proof (Z.mod_pos_bound (2 * height) 4 ltac:(lia)).
    pose proof (Z.mod_pos_bound (3 * height) 4 ltac:(lia)).
    pose proof (Z.mod_pos_bound (4 * height) 4 ltac:(lia)).
    change (0 * height / 4) with 0.
    set (t1 := 1 * height / 4) in *. set (t2 := 2 * height / 4) in *.
    set (t3 := 3 * height / 4) in *. set (t4 := 4 * height / 4) in *.
    destruct (Z.leb_spec t3 y), (Z.leb_spec y t4); cbn [andb]; try lia.
    { exists 3. rewrite !T by lia. change (3 + 1) with 4.
      fold t3. fold t4. split_and!; try done; lia. }
    destruct (Z.leb_spec t2 y), (Z.leb_spec y t3); cbn [andb]; try lia.
    { exists 2. rewrite !T by lia. change (2 + 1) with 3.
      fold t2. fold t3. split_and!; try done; lia. }
    destruct (Z.leb_spec t1 y), (Z.leb_spec y t2); cbn [andb]; try lia.
    { exists 1. rewrite !T by lia. change (1 + 1) with 2.
      fold t1. fold t2. split_and!; try done; lia. }
    destruct (Z.leb_spec 0 y), (Z.leb_spec y t1); cbn [andb]; try lia.
    exists 0. rewrite !T by lia. change (0 + 1) with 1.
    change (0 * height / 4) with 0. fold t1. split_and!; try done; lia.
Qed.

Lemma gradient_bands_tile_witness :
  top 500 0 = 0 /\ bottom 500 3 = 500 /\
  segment_of_row 500 125 = Some 1.
Proof.
  destruct (gradient_bands_tile 500) as (H1 & H2 & _); [lia|].
  split; [exact H1|]. split; [exact H2|]. vm_compute. reflexivity.
Defined.

End GradientProofs.

(** ** db_utils.py: a query that fails *)

Module DbUtilsProofs.
Import BadgeGenerator QuestUtils DbUtils.

Lemma fetch_active_quests_fails c e :
  select_active_quests c = Raise e ->
  fetch_active_quests (Some c) = Raise (OtherException "AttributeError").
Proof. unfold fetch_active_quests. by intros ->. Qed.

Lemma fetch_approved_submissions_fails c e :
  select_approved_submissions c = Raise e ->
  fetch_approved_submissions (Some c) = Raise (OtherException "AttributeError").
Proof. unfold fetch_approved_submissions. by intros ->. Qed.

Lemma fetch_user_fails c user_id e :
  select_user c user_id = Raise e ->
  fetch_user (Some c) user_id = Raise (OtherException "AttributeError").
Proof. unfold fetch_user. by intros ->. Qed.

(** X23 -- A query that fails does not give the documented "nothing
    found". When the query of [fetch_user], [fetch_active_quests] or
    [fetch_approved_submissions] raises, [safe_supabase_call] returns the
    fallback dict, and reading [.data] off that dict raises
    [AttributeError]: the function raises instead of returning [None] or
    [[]], and so does [paginate_quests] for every page. [create_user],
    whose fallback is [None], returns [None]. *)
Theorem query_error_escapes (c : client) :
  (forall user_id e,
     select_user c user_id = Raise e ->
     fetch_user (Some c) user_id = Raise (OtherException "AttributeError"))
  /\ (forall e,
        select_active_quests c = Raise e ->
        fetch_active_quests (Some c) = Raise (OtherException "AttributeError")
        /\ forall today page user_id,
             paginate_quests_call (Some c) today page user_id =
             Raise (OtherException "AttributeError"))
  /\ (forall e,
        select_approved_submissions c = Raise e ->
        fetch_approved_submissions (Some c) =
        Raise (OtherException "AttributeError"))
  /\ (forall now user_id username first_name last_name e,
        insert_user c
          {| data_id := user_id; data_username := username;
             data_first_name := first_name; data_last_name := last_name;
             data_total_points := 0; data_joined_at := now |} = Raise e ->
        create_user (Some c) now user_id username first_name last_name =
        Ok None).
Proof.
  split_and!.
  - apply fetch_user_fails.
  - intros e H. split; [by eapply fetch_active_quests_fails|].
    intros today page user_id. unfold paginate_quests_call.
    by rewrite (fetch_active_quests_fails _ _ H).
  - apply fetch_approved_submissions_fails.
  - intros now user_id username first_name last_name e H.
    unfold create_user. by rewrite H.
Qed.

Lemma query_error_escapes_witness :
  fetch_user (Some SampleDb.failing) 1 = Raise (OtherException "AttributeError")
  /\ paginate_quests_call (Some SampleDb.failing) SampleQuests.today 1 1 =
     Raise (OtherException "AttributeError")
  /\ fetch_approved_submissions (Some SampleDb.failing) =
     Raise (OtherException "AttributeError")
  /\ create_user (Some SampleDb.failing) (u "2025-05-10T12:00:00") 1
       (Some (u "ann")) None None = Ok None.
Proof.
  destruct (query_error_escapes SampleDb.failing) as (Hu & Hq & Hs & Hc).
  split_and!.
  - by apply (Hu 1 (OtherException "APIError")).
  - by apply (Hq (OtherException "APIError")).
  - by apply (Hs (OtherException "APIError")).
  - by apply (Hc _ _ _ _ _ (OtherException "APIError")).
Defined.

(** X24 -- What [fetch_quest] finds. It returns a quest exactly when the
    query that decides returned rows, and then the first of them: the query
    by id when an id is given that is not [0] or empty, whatever the keyword
    is, and otherwise the query by keyword, when that is not empty. A query
    that fails, an id [0] without a keyword and a missing client all give
    [None]; no exception leaves the function. *)
Theorem fetch_quest_found supabase_client quest_id keyword quest :
  fetch_quest supabase_client quest_id keyword = Some quest <->
  exists c,
    supabase_client = Some c
    /\ ((exists q rows,
           quest_id = Some q /\ truthy q = true
           /\ select_quest_by_id c q = Ok (quest :: rows))
        \/ (exists k rows,
              from_option truthy false quest_id = false
              /\ keyword = Some k /\ k <> []
              /\ select_quest_by_keyword c k = Ok (quest :: rows))).
Proof.
  unfold fetch_quest. destruct supabase_client as [c|].
  2:{ split; [done|]. by intros (c & ? & _). }
  split.
  - intros H. exists c. split; [done|].
    destruct quest_id as [q|]; [destruct (truthy q) eqn:Eq|].
    + left. destruct (select_quest_by_id c q) as [[|q0 rows]|e] eqn:Es;
        try done.
      cbn in H. injection H as ->. by exists q, rows.
    + right. destruct keyword as [[|a k]|]; try done. cbn [nonempty] in H.
      destruct (select_quest_by_keyword c (a :: k)) as [[|q0 rows]|e] eqn:Es;
        try done.
      cbn in H. injection H as ->. by exists (a :: k), rows.
    + right. destruct keyword as [[|a k]|]; try done. cbn [nonempty] in H.
      destruct (select_quest_by_keyword c (a :: k)) as [[|q0 rows]|e] eqn:Es;
        try done.
      cbn in H. injection H as ->. by exists (a :: k), rows.
  - intros (c' & [= <-] & [(q & rows & -> & Hq & Hs)|(k & rows & Hq & -> & Hk & Hs)]).
    + rewrite Hq, Hs. by destruct keyword as [[|? ?]|].
    + destruct k as [|a k]; [done|]. cbn [nonempty]. rewrite Hs.
      destruct quest_id as [q|]; [|done]. cbn in Hq. by rewrite Hq.
Qed.

End DbUtilsProofs.

(** ** zo_quest_bot.py: the leaderboard *)

Module LeaderboardProofs.
Import BadgeGenerator QuestUtils DbUtils Leaderboard LeaderboardSpec.
Import PyMoreLemmas.

Section Dict.

Context {K V : Type} `{EqDecision K}.
Implicit Types (d : list (K * V)).

Lemma dict_get_set k k' v d :
  dict_get k' (dict_set k v d) =
  if decide (k = k') then Some v else dict_get k' d.
Proof.
  induction d as [|[k0 v0] d IH]; cbn.
  - destruct (decide (k = k')); [done|done].
  - destruct (decide (k0 = k)) as [->|Hk]; cbn.
    + destruct (decide (k = k')); [done|done].
    + rewrite IH. destruct (decide (k0 = k')) as [->|]; [|done].
      by rewrite decide_False.
Qed.

Lemma dict_get_None k d : dict_get k d = None <-> k ∉ d.*1.
Proof.
  induction d as [|[k0 v0] d IH]; cbn.
  - split; [intros _; apply not_elem_of_nil|done].
  - rewrite not_elem_of_cons. destruct (decide (k0 = k)) as [->|Hk].
    + split; [done|]. by intros [? _].
    + rewrite IH. split; [by split|tauto].
Qed.

Lemma dict_get_elem_of k v d : dict_get k d = Some v -> (k, v) ∈ d.
Proof.
  induction d as [|[k0 v0] d IH]; cbn; [done|].
  destruct (decide (k0 = k)) as [->|Hk].
  - intros [= ->]. apply elem_of_cons. by left.
  - intros H. apply elem_of_cons. right. by apply IH.
Qed.

Lemma elem_of_dict_get k v d : NoDup d.*1 -> (k, v) ∈ d -> dict_get k d = Some v.
Proof.
  induction d as [|[k0 v0] d IH]; cbn; intros Hd Hk.
  - by apply elem_of_nil in Hk.
  - apply NoDup_cons in Hd as [H0 Hd].
    apply elem_of_cons in Hk as [[= -> ->]|Hk].
    + by rewrite decide_True.
    + rewrite decide_False; [by apply IH|].
      intros ->. apply H0. apply list_elem_of_fmap. by exists (k, v).
Qed.

Lemma dict_set_keys k v d :
  (dict_set k v d).*1 = if decide (k ∈ d.*1) then d.*1 else d.*1 ++ [k].
Proof.
  induction d as [|[k0 v0] d IH]; cbn.
  - rewrite decide_False; [done|apply not_elem_of_nil].
  - destruct (decide (k0 = k)) as [->|Hk]; cbn.
    + rewrite decide_True; [done|]. apply elem_of_cons. by left.
    + rewrite IH. destruct (decide (k ∈ d.*1)) as [Hd|Hd].
      * rewrite decide_True; [done|]. apply elem_of_cons. by right.
      * rewrite decide_False; [done|]. rewrite not_elem_of_cons. split; [done|done].
Qed.

Lemma dict_set_NoDup k v d : NoDup d.*1 -> NoDup (dict_set k v d).*1.
Proof.
  intros Hd. rewrite dict_set_keys. destruct (decide (k ∈ d.*1)); [done|].
  apply NoDup_app. split_and!; [done| |apply NoDup_singleton].
  intros x Hx Hk. apply list_elem_of_singleton in Hk as ->. done.
Qed.

End Dict.


(** *** The points of a quest *)

Lemma quest_points_get rows d quest_id :
  dict_get quest_id
    (fold_left (fun d quest => dict_set (row_id quest) (row_points quest) d)
       rows d) =
  match points_of rows quest_id with
  | Some p => Some p
  | None => dict_get quest_id d
  end.
Proof.
  revert d. induction rows as [|r rows IH]; intros d; cbn; [done|].
  rewrite IH. destruct (points_of rows quest_id); [done|].
  rewrite dict_get_set. by destruct (decide (row_id r = quest_id)).
Qed.

Lemma counted_cons rows user_id s submissions :
  counted rows user_id (s :: submissions) =
  counted rows user_id [s] ++ counted rows user_id submissions.
Proof. unfold counted. cbn. by destruct (_ && _). Qed.

Lemma total_app rows l1 l2 :
  total rows (l1 ++ l2) = total rows l1 + total rows l2.
Proof.
  unfold total. induction l1 as [|s l1 IH]; cbn; [done|].
  rewrite IH. lia.
Qed.

Lemma counted_one rows user_id s :
  counted rows user_id [s] =
  if decide (submission_user_id s = user_id
             /\ is_Some (points_of rows (submission_quest_id s)))
  then [s] else [].
Proof.
  unfold counted. cbn.
  destruct (decide _) as [[H1 H2]|H].
  - by rewrite !bool_decide_eq_true_2.
  - destruct (bool_decide_reflect (submission_user_id s = user_id)); [|done].
    rewrite bool_decide_eq_false_2; [done|tauto].
Qed.

(** *** The loop over the submissions *)

Section Loop.

Context (rows : list quest_row).
Context (quest_points : list (quest_id_t * option Z))
        (quest_titles : list (quest_id_t * option pystr)).
Hypothesis quest_points_rows :
  forall quest_id, dict_get quest_id quest_points = points_of rows quest_id.

(** The two dicts have the same keys, each once. *)
Local Abbreviation consistent t :=
  (NoDup (user_points t).*1
   /\ forall user_id,
        dict_get user_id (user_points t) = None <->
        dict_get user_id (user_completed_quests t) = None).

Lemma count_submission_null t s :
  points_of rows (submission_quest_id s) = Some None ->
  count_submission quest_points quest_titles t s = Raise TypeError.
Proof.
  intros Hp. unfold count_submission. rewrite quest_points_rows, Hp.
  destruct (dict_get (submission_user_id s) (user_points t)) eqn:E.
  - unfold getitem. by rewrite E.
  - unfold getitem. rewrite dict_get_set, decide_True by done. done.
Qed.

Lemma count_submission_spec t s t' :
  count_submission quest_points quest_titles t s = Ok t' ->
  consistent t ->
  consistent t'
  /\ points_of rows (submission_quest_id s) <> Some None
  /\ user_ids t' = set_add (submission_user_id s) (user_ids t)
  /\ forall user_id,
       let mine := counted rows user_id [s] in
       default 0 (dict_get user_id (user_points t')) =
       default 0 (dict_get user_id (user_points t)) + total rows mine
       /\ length (default [] (dict_get user_id (user_completed_quests t'))) =
          (length (default [] (dict_get user_id (user_completed_quests t)))
           + length mine)%nat
       /\ (dict_get user_id (user_points t') = None <->
           dict_get user_id (user_points t) = None /\ mine = []).
Proof.
  intros H [Hnd Hk].
  destruct (points_of rows (submission_quest_id s)) as [[p|]|] eqn:Hp.
  2:{ rewrite (count_submission_null _ _ Hp) in H. done. }
  2:{ unfold count_submission in H. rewrite quest_points_rows, Hp in H.
      injection H as <-. cbn [user_points user_completed_quests user_ids].
      split_and!; try done.
      intros user_id. rewrite counted_one, Hp.
      rewrite decide_False by (intros [_ [? ?]]; done).
      cbn. split_and!; [lia|lia|tauto]. }
  unfold count_submission in H. rewrite quest_points_rows, Hp in H.
  set (uid := submission_user_id s) in *.
  assert (Hmine : forall user_id,
    counted rows user_id [s] = if decide (uid = user_id) then [s] else []).
  { intros user_id. rewrite counted_one. fold uid. rewrite Hp.
    destruct (decide (uid = user_id)).
    - by rewrite decide_True.
    - rewrite decide_False; [done|tauto]. }
  assert (Htot : total rows [s] = p).
  { unfold total. cbn. rewrite Hp. cbn. lia. }
  destruct (dict_get uid (user_points t)) as [z|] eqn:E.
  - unfold getitem in H. rewrite E in H. cbn in H.
    destruct (dict_get uid (user_completed_quests t)) as [l|] eqn:E';
      [|apply Hk in E'; congruence].
    cbn in H. injection H as <-. cbn [user_points user_completed_quests user_ids].
    split_and!; [by apply dict_set_NoDup| |done|done|].
    + intros user_id. rewrite !dict_get_set.
      destruct (decide (uid = user_id)); [done|apply Hk].
    + intros user_id. rewrite Hmine, !dict_get_set.
      destruct (decide (uid = user_id)) as [<-|].
      * rewrite E, E', Htot. cbn. rewrite length_app. cbn.
        split_and!; [lia|lia|]. split; [done|]. by intros [_ ?].
      * cbn. split_and!; [lia|lia|tauto].
  - unfold getitem in H. rewrite !dict_get_set, !decide_True in H by done.
    cbn in H. injection H as <-. cbn [user_points user_completed_quests user_ids].
    assert (E' : dict_get uid (user_completed_quests t) = None) by by apply Hk.
    split_and!; [by do 2 apply dict_set_NoDup| |done|done|].
    + intros user_id. rewrite !dict_get_set.
      destruct (decide (uid = user_id)); [done|apply Hk].
    + intros user_id. rewrite Hmine, !dict_get_set.
      destruct (decide (uid = user_id)) as [<-|].
      * rewrite E, E', Htot. cbn.
        split_and!; [lia|lia|]. split; [done|]. by intros [_ ?].
      * cbn. split_and!; [lia|lia|tauto].
Qed.

Lemma count_submissions_spec submissions : forall t t',
  count_submissions quest_points quest_titles t submissions = Ok t' ->
  consistent t ->
  consistent t'
  /\ Forall (fun s => points_of rows (submission_quest_id s) <> Some None)
       submissions
  /\ (forall user_id,
        user_id ∈ user_ids t' <->
        user_id ∈ user_ids t \/ user_id ∈ map submission_user_id submissions)
  /\ forall user_id,
       let mine := counted rows user_id submissions in
       default 0 (dict_get user_id (user_points t')) =
       default 0 (dict_get user_id (user_points t)) + total rows mine
       /\ length (default [] (dict_get user_id (user_completed_quests t'))) =
          (length (default [] (dict_get user_id (user_completed_quests t)))
           + length mine)%nat
       /\ (dict_get user_id (user_points t') = None <->
           dict_get user_id (user_points t) = None /\ mine = []).
Proof.
  induction submissions as [|s submissions IH]; intros t t' H Ht.
  - cbn in H. injection H as <-. split_and!; [apply Ht|apply Ht|done| |].
    + intros user_id. cbn. rewrite elem_of_nil. tauto.
    + intros user_id. cbn. split_and!; [lia|lia|tauto].
  - cbn in H.
    destruct (count_submission quest_points quest_titles t s) as [t1|e] eqn:E1;
      [|done].
    cbn in H.
    destruct (count_submission_spec _ _ _ E1 Ht) as (Ht1 & Hp & Hids & H1).
    destruct (IH _ _ H Ht1) as (Ht' & Hall & Hids' & H2).
    split_and!; [apply Ht'|apply Ht'|by constructor| |].
    + intros user_id. rewrite Hids', Hids. unfold set_add. cbn.
      rewrite elem_of_cons.
      case_bool_decide as Hin.
      * split; [tauto|]. intros [?|[->|?]]; auto.
      * rewrite elem_of_app, list_elem_of_singleton. tauto.
    + intros user_id. cbn zeta. rewrite counted_cons.
      destruct (H1 user_id) as (Ha & Hb & Hc).
      destruct (H2 user_id) as (Ha' & Hb' & Hc').
      rewrite total_app, length_app, Ha', Hb', Ha, Hb.
      split_and!; [lia|lia|].
      rewrite Hc', Hc. split.
      * intros [[? ->] ->]. done.
      * intros [? Happ]. apply app_eq_nil in Happ as [? ?]. done.
Qed.

Lemma count_submission_ok t s :
  consistent t ->
  points_of rows (submission_quest_id s) <> Some None ->
  exists t', count_submission quest_points quest_titles t s = Ok t'.
Proof.
  intros [Hnd Hk] Hp. unfold count_submission. rewrite quest_points_rows.
  destruct (points_of rows (submission_quest_id s)) as [[p|]|];
    [|done|by eexists].
  destruct (dict_get (submission_user_id s) (user_points t)) as [z|] eqn:E.
  - unfold getitem. rewrite E. cbn.
    destruct (dict_get (submission_user_id s) (user_completed_quests t))
      as [l|] eqn:E'; [|apply Hk in E'; congruence].
    cbn. by eexists.
  - unfold getitem. rewrite !dict_get_set, !decide_True by done.
    cbn. by eexists.
Qed.

Lemma count_submissions_ok submissions : forall t,
  consistent t ->
  Forall (fun s => points_of rows (submission_quest_id s) <> Some None)
    submissions ->
  exists t', count_submissions quest_points quest_titles t submissions = Ok t'.
Proof.
  induction submissions as [|s submissions IH]; intros t Ht H; [by eexists|].
  apply Forall_cons in H as [Hs H]. cbn.
  destruct (count_submission_ok t s Ht Hs) as [t1 E1]. rewrite E1. cbn.
  apply IH; [|done]. by destruct (count_submission_spec _ _ _ E1 Ht).
Qed.

(** A submission for a quest whose points are null ends the loop. *)
Lemma count_submissions_null submissions : forall t,
  Exists (fun s => points_of rows (submission_quest_id s) = Some None)
    submissions ->
  exists e, count_submissions quest_points quest_titles t submissions = Raise e.
Proof.
  induction submissions as [|s submissions IH]; intros t H.
  - by apply Exists_nil in H.
  - cbn.
    destruct (count_submission quest_points quest_titles t s) as [t1|e] eqn:E1;
      [|by eexists].
    cbn. apply Exists_cons in H as [H|H]; [|by apply IH].
    rewrite (count_submission_null _ _ H) in E1. done.
Qed.

End Loop.


(** *** The profiles *)

Section Profiles.

Context (supabase_client : option client).

Lemma fetch_users_spec ids : forall users_data users_data',
  fetch_users supabase_client ids users_data = Ok users_data' ->
  forall user_id,
    dict_get user_id users_data' =
    if decide (user_id ∈ ids)
    then match fetch_user supabase_client user_id with
         | Ok (Some user) => Some user
         | _ => dict_get user_id users_data
         end
    else dict_get user_id users_data.
Proof.
  induction ids as [|id ids IH]; intros users_data users_data' H user_id.
  - cbn in H. injection H as <-. rewrite decide_False; [done|apply not_elem_of_nil].
  - cbn in H.
    destruct (fetch_user supabase_client id) as [o|e] eqn:E; [|done].
    cbn in H.
    assert (Hrest : dict_get user_id users_data' =
      if decide (user_id ∈ ids)
      then match fetch_user supabase_client user_id with
           | Ok (Some user) => Some user
           | _ => dict_get user_id
                    (from_option (fun user => dict_set id user users_data)
                       users_data o)
           end
      else dict_get user_id
             (from_option (fun user => dict_set id user users_data)
                users_data o)).
    { destruct o as [user|]; by apply IH. }
    rewrite Hrest. clear Hrest H.
    destruct (decide (user_id = id)) as [->|Hne].
    + rewrite (decide_True (P := id ∈ id :: ids)) by (apply elem_of_cons; by left).
      rewrite E. destruct o as [user|]; cbn.
      * rewrite dict_get_set, (decide_True (P := id = id)) by done.
        by destruct (decide _).
      * by destruct (decide _).
    + assert (Hget : dict_get user_id
                (from_option (fun user => dict_set id user users_data)
                   users_data o) = dict_get user_id users_data).
      { destruct o as [user|]; cbn; [|done].
        rewrite dict_get_set, decide_False; [done|congruence]. }
      rewrite Hget.
      destruct (decide (user_id ∈ ids)) as [Hin|Hin].
      * rewrite decide_True; [done|]. apply elem_of_cons. by right.
      * rewrite decide_False; [done|]. rewrite not_elem_of_cons. done.
Qed.

Lemma fetch_users_ok ids : forall users_data,
  Forall (fun id => exists o, fetch_user supabase_client id = Ok o) ids <->
  exists users_data', fetch_users supabase_client ids users_data = Ok users_data'.
Proof.
  induction ids as [|id ids IH]; intros users_data; cbn.
  - split; [by eexists|constructor].
  - rewrite Forall_cons.
    destruct (fetch_user supabase_client id) as [[user|]|e]; cbn.
    + rewrite (IH (dict_set id user users_data)). split; [tauto|eauto].
    + rewrite (IH users_data). split; [tauto|eauto].
    + split; [by intros [[? ?] _]|by intros [? ?]].
Qed.

Lemma fetch_users_app ids1 ids2 : forall users_data,
  fetch_users supabase_client (ids1 ++ ids2) users_data =
  let! users_data := fetch_users supabase_client ids1 users_data in
  fetch_users supabase_client ids2 users_data.
Proof.
  induction ids1 as [|id ids1 IH]; intros users_data; cbn; [done|].
  destruct (fetch_user supabase_client id) as [[user|]|e]; cbn; [apply IH|apply IH|done].
Qed.

Lemma fetch_batches_concat user_ids starts : forall users_data,
  fetch_batches supabase_client user_ids starts users_data =
  fetch_users supabase_client
    (concat (map (fun i => slice user_ids i (i + 50)) starts)) users_data.
Proof.
  induction starts as [|i starts IH]; intros users_data; cbn; [done|].
  rewrite fetch_users_app.
  destruct (fetch_users supabase_client (slice user_ids i (i + 50)) users_data);
    cbn; [apply IH|done].
Qed.

(** The batches are the users, each once. *)
Lemma batches_all {A} (user_ids : list A) :
  concat (map (fun i => slice user_ids i (i + 50))
            (batch_starts (length user_ids))) = user_ids.
Proof.
  unfold batch_starts. rewrite map_map.
  erewrite map_ext.
  - apply (pages_concat 50).
    pose proof (Nat.div_mod_eq (length user_ids + 49) 50).
    pose proof (Nat.mod_upper_bound (length user_ids + 49) 50). lia.
  - intros k. cbn beta. rewrite slice_nonneg by lia. f_equal; [lia|f_equal; lia].
Qed.

Lemma fetch_batches_ok user_ids :
  Forall (fun id => exists o, fetch_user supabase_client id = Ok o) user_ids <->
  exists users_data',
    fetch_batches supabase_client user_ids (batch_starts (length user_ids)) [] =
    Ok users_data'.
Proof. rewrite fetch_batches_concat, batches_all. apply fetch_users_ok. Qed.

Lemma fetch_batches_spec user_ids users_data' :
  fetch_batches supabase_client user_ids (batch_starts (length user_ids)) [] =
  Ok users_data' ->
  forall user_id,
    dict_get user_id users_data' =
    if decide (user_id ∈ user_ids)
    then match fetch_user supabase_client user_id with
         | Ok (Some user) => Some user
         | _ => None
         end
    else None.
Proof.
  rewrite fetch_batches_concat, batches_all. intros H user_id.
  by rewrite (fetch_users_spec _ _ _ H user_id).
Qed.

End Profiles.

(** *** The entries and their order *)

Lemma flat_map_keys {V E} (f : Z * V -> list E) (key : E -> Z) (d : list (Z * V)) :
  (forall k v e, e ∈ f (k, v) -> f (k, v) = [e] /\ key e = k) ->
  map key (flat_map f d) `sublist_of` d.*1.
Proof.
  intros Hf. induction d as [|[k v] d IH]; cbn; [done|].
  rewrite map_app. destruct (f (k, v)) as [|e l] eqn:Ef.
  - cbn. by apply sublist_cons.
  - destruct (Hf k v e) as [Hl Hk]; [rewrite Ef; apply elem_of_cons; by left|].
    rewrite Ef in Hl. injection Hl as ->. cbn. rewrite Hk. by apply sublist_skip.
Qed.

Lemma leaderboard_entries_spec t users_data e :
  NoDup (user_points t).*1 ->
  e ∈ leaderboard_entries t users_data <->
  exists user,
    dict_get (entry_user_id e) users_data = Some user
    /\ dict_get (entry_user_id e) (user_points t) = Some (entry_points e)
    /\ entry_username e = display_name (entry_user_id e) user
    /\ entry_quests_completed e =
       length (default [] (dict_get (entry_user_id e) (user_completed_quests t))).
Proof.
  intros Hnd. unfold leaderboard_entries.
  rewrite list_elem_of_In, in_flat_map. split.
  - intros [[user_id points] [Hin He]]. apply list_elem_of_In in Hin.
    destruct (dict_get user_id users_data) as [user|] eqn:Eu; [|done].
    destruct He as [<-|[]]. cbn. exists user. split_and!; try done.
    by apply elem_of_dict_get.
  - intros (user & Hu & Hp & Hn & Hq).
    exists (entry_user_id e, entry_points e). split.
    + apply list_elem_of_In. by apply dict_get_elem_of.
    + rewrite Hu. left. destruct e. cbn in *. by rewrite Hn, Hq.
Qed.

Lemma leaderboard_entries_NoDup t users_data :
  NoDup (user_points t).*1 ->
  NoDup (map entry_user_id (leaderboard_entries t users_data)).
Proof.
  intros Hnd. eapply sublist_NoDup; [exact Hnd|].
  apply flat_map_keys. intros k v e.
  destruct (dict_get k users_data); [|by intros ?%elem_of_nil].
  intros ->%list_elem_of_singleton. done.
Qed.

Lemma StronglySorted_take {A} (R : A -> A -> Prop) (l : list A) : forall n,
  StronglySorted R l -> StronglySorted R (take n l).
Proof.
  intros n H. revert n. induction H as [|x l Hs IH Hx]; intros [|n]; cbn;
    try constructor.
  - apply IH.
  - apply Forall_take. done.
Qed.

Lemma StronglySorted_take_drop {A} (R : A -> A -> Prop) (l : list A) n x y :
  StronglySorted R l -> x ∈ take n l -> y ∈ drop n l -> R x y.
Proof.
  intros H. revert n. induction H as [|z l Hs IH Hz]; intros [|n]; cbn;
    try (by intros ?%elem_of_nil).
  intros Hx Hy. apply elem_of_cons in Hx as [->|Hx].
  - rewrite Forall_forall in Hz. apply Hz.
    rewrite <- (take_drop n l). apply elem_of_app. by right.
  - by apply (IH n).
Qed.

Lemma sort_by_points_sorted (entries : list entry) :
  StronglySorted (fun a b => entry_points b <= entry_points a)
    (sort_by entry_points Zgt entries).
Proof.
  assert (H : StronglySorted
                (fun a b => Zgt (entry_points b) (entry_points a) = false)
                (sort_by entry_points Zgt entries)).
  { apply sort_by_sorted; unfold Zgt; intros; lia. }
  induction H as [|a l Hs IH Ha]; constructor; [done|].
  eapply Forall_impl; [exact Ha|]. intros b. unfold Zgt. cbn beta. lia.
Qed.


(** *** The board *)

Section Board.

Context (supabase_client : option client).
Context (select_quest_points : Exc (list quest_row)).

Lemma counted_user rows user_id submissions s :
  s ∈ counted rows user_id submissions ->
  s ∈ submissions /\ submission_user_id s = user_id
  /\ is_Some (points_of rows (submission_quest_id s)).
Proof.
  unfold counted. intros H. apply list_elem_of_In, filter_In in H as [Hin H].
  apply andb_true_iff in H as [H1 H2].
  apply bool_decide_eq_true in H1, H2. by apply list_elem_of_In in Hin.
Qed.

(** Every submission is for a quest whose points are not null. *)
Local Abbreviation no_null rows submissions :=
  (Forall (fun s => points_of rows (submission_quest_id s) <> Some None)
     submissions).

(** The profile of every user that submitted can be asked for. *)
Local Abbreviation profiles_ok submissions :=
  (Forall (fun s => exists o,
             fetch_user supabase_client (submission_user_id s) = Ok o)
     submissions).

(** The entry of a user of the board *)
Local Abbreviation entry_of rows submissions e :=
  (exists user,
     counted rows (entry_user_id e) submissions <> []
     /\ fetch_user supabase_client (entry_user_id e) = Ok (Some user)
     /\ entry_username e = display_name (entry_user_id e) user
     /\ entry_points e = total rows (counted rows (entry_user_id e) submissions)
     /\ entry_quests_completed e =
        length (counted rows (entry_user_id e) submissions)).

Lemma profiles_ok_or_not submissions :
  profiles_ok submissions
  \/ Exists (fun s => exists e,
               fetch_user supabase_client (submission_user_id s) = Raise e)
       submissions.
Proof.
  induction submissions as [|s submissions [IH|IH]].
  - left. constructor.
  - destruct (fetch_user supabase_client (submission_user_id s)) as [o|e] eqn:E.
    + left. constructor; [by exists o|done].
    + right. apply Exists_cons_hd. by exists e.
  - right. by apply Exists_cons_tl.
Qed.

(** The body after the first query *)
Lemma leaderboard_body_unfold submissions rows :
  fetch_approved_submissions supabase_client = Ok submissions ->
  submissions <> [] ->
  select_quest_points = Ok rows ->
  leaderboard_body supabase_client select_quest_points =
  let quest_points :=
    fold_left (fun d quest => dict_set (row_id quest) (row_points quest) d)
      rows [] in
  let quest_titles :=
    fold_left (fun d quest => dict_set (row_id quest) (row_title quest) d)
      rows [] in
  let! t := count_submissions quest_points quest_titles
              {| user_points := []; user_completed_quests := [];
                 user_ids := [] |} submissions in
  match user_ids t with
  | [] => Ok NoUsers
  | _ =>
      let! users_data :=
        fetch_batches supabase_client (user_ids t)
          (batch_starts (length (user_ids t))) [] in
      match take 10 (sort_by entry_points Zgt (leaderboard_entries t users_data)) with
      | [] => Ok NoUsers
      | top_users => Ok (Board top_users)
      end
  end.
Proof.
  intros Hs Hne Hq. unfold leaderboard_body. rewrite Hs, Hq.
  cbn [ebind safe_supabase_call result_truthy data_of].
  destruct submissions as [|s0 submissions0]; [done|].
  cbn zeta.
  destruct (count_submissions _ _ _ _) as [t|e]; [|done].
  cbn [ebind]. destruct (user_ids t); [done|].
  destruct (fetch_batches _ _ _ _) as [users_data|e]; [|done].
  cbn [ebind]. rewrite slice_nonneg by lia.
  change (Z.to_nat (10 - 0)) with 10%nat.
  change (Z.to_nat 0) with 0%nat. rewrite drop_0.
  by destruct (take 10 _).
Qed.

(** What stands behind an answer that is not the error message *)
Lemma leaderboard_body_ok r :
  leaderboard_body supabase_client select_quest_points = Ok r ->
  exists submissions,
    fetch_approved_submissions supabase_client = Ok submissions
    /\ (submissions = [] -> r = NoUsers)
    /\ (submissions <> [] ->
        exists rows entries,
          select_quest_points = Ok rows
          /\ no_null rows submissions
          /\ profiles_ok submissions
          /\ NoDup (map entry_user_id entries)
          /\ (forall e, e ∈ entries <-> entry_of rows submissions e)
          /\ r = match take 10 (sort_by entry_points Zgt entries) with
                 | [] => NoUsers
                 | top_users => Board top_users
                 end).
Proof.
  intros E.
  destruct (fetch_approved_submissions supabase_client) as [submissions|e] eqn:Es;
    [|by unfold leaderboard_body in E; rewrite Es in E].
  exists submissions. split; [done|]. split.
  { intros ->. unfold leaderboard_body in E. rewrite Es in E. cbn in E. congruence. }
  intros Hne.
  destruct select_quest_points as [rows|e] eqn:Eq.
  2:{ unfold leaderboard_body in E. rewrite Es in E. cbn [ebind] in E.
      destruct submissions; done. }
  rewrite <- Eq in E.
  rewrite (leaderboard_body_unfold submissions rows Es Hne Eq) in E.
  cbn zeta in E.
  set (quest_points := fold_left _ rows []) in E.
  set (quest_titles := fold_left _ rows []) in E.
  set (t0 := {| user_points := []; user_completed_quests := []; user_ids := [] |})
    in E.
  destruct (count_submissions quest_points quest_titles t0 submissions)
    as [t|e] eqn:Ec; [|done].
  cbn [ebind] in E.
  assert (Hqp : forall quest_id,
    dict_get quest_id quest_points = points_of rows quest_id).
  { intros quest_id. unfold quest_points. rewrite quest_points_get.
    by destruct (points_of rows quest_id). }
  destruct (count_submissions_spec rows quest_points quest_titles Hqp
              submissions t0 t Ec) as ([Hnd Hk] & Hnull & Hids & Hcount);
    [split; [constructor|done]|].
  assert (Hsub : forall s, s ∈ submissions -> submission_user_id s ∈ user_ids t).
  { intros s Hs. apply Hids. right. apply list_elem_of_fmap. by exists s. }
  destruct (user_ids t) as [|id0 ids0] eqn:Eids.
  { destruct submissions as [|s0 ?]; [done|].
    exfalso. eapply not_elem_of_nil, (Hsub s0). apply elem_of_cons. by left. }
  rewrite <- Eids in *. clear Eids id0 ids0.
  destruct (fetch_batches supabase_client (user_ids t)
              (batch_starts (length (user_ids t))) []) as [users_data|e] eqn:Ef;
    [|done].
  cbn [ebind] in E.
  set (entries := leaderboard_entries t users_data) in E.
  exists rows, entries. split_and!; [done|done| | | |].
  - assert (Hall : Forall (fun id => exists o,
                      fetch_user supabase_client id = Ok o) (user_ids t))
      by (apply fetch_batches_ok; eauto).
    rewrite Forall_forall in Hall. apply Forall_forall.
    intros s Hs. by apply Hall, Hsub.
  - by apply leaderboard_entries_NoDup.
  - intros e. unfold entries. rewrite (leaderboard_entries_spec _ _ _ Hnd).
    set (user_id := entry_user_id e).
    destruct (Hcount user_id) as (Hp & Hl & Hn). cbn in Hp, Hl, Hn.
    rewrite (fetch_batches_spec _ _ _ Ef user_id).
    split.
    + intros (user & Hu & Hpts & Hname & Hq). exists user.
      assert (Hmine : counted rows user_id submissions <> []).
      { intros Hnil. rewrite (proj2 Hn) in Hpts; done. }
      rewrite Hpts in Hp. cbn in Hp.
      destruct (decide (user_id ∈ user_ids t)); [|done].
      destruct (fetch_user supabase_client user_id) as [[user'|]|]; try done.
      injection Hu as ->. split_and!; try done; lia.
    + intros (user & Hmine & Hu & Hname & Hpts & Hq). exists user.
      assert (Hin : user_id ∈ user_ids t).
      { destruct (counted rows user_id submissions) as [|s l] eqn:Ecnt; [done|].
        destruct (counted_user rows user_id submissions s) as (Hs & Hus & _).
        { rewrite Ecnt. apply elem_of_cons. by left. }
        rewrite <- Hus. by apply Hsub. }
      rewrite decide_True, Hu by done.
      destruct (dict_get user_id (user_points t)) as [p|] eqn:Ep;
        [|by destruct (proj1 Hn eq_refl)].
      cbn in Hp. split_and!; [done|f_equal; lia|done|lia].
  - destruct (take 10 (sort_by entry_points Zgt entries)); congruence.
Qed.

(** With the queries answered and no null points, the body returns. *)
Lemma leaderboard_body_total submissions rows :
  fetch_approved_submissions supabase_client = Ok submissions ->
  submissions <> [] ->
  select_quest_points = Ok rows ->
  no_null rows submissions ->
  profiles_ok submissions ->
  exists r, leaderboard_body supabase_client select_quest_points = Ok r.
Proof.
  intros Es Hne Eq Hnull Hprof.
  rewrite (leaderboard_body_unfold submissions rows Es Hne Eq). cbn zeta.
  set (quest_points := fold_left _ rows []).
  set (quest_titles := fold_left _ rows []).
  set (t0 := {| user_points := []; user_completed_quests := []; user_ids := [] |}).
  assert (Hqp : forall quest_id,
    dict_get quest_id quest_points = points_of rows quest_id).
  { intros quest_id. unfold quest_points. rewrite quest_points_get.
    by destruct (points_of rows quest_id). }
  assert (Ht0 : NoDup (user_points t0).*1
                /\ forall user_id,
                     dict_get user_id (user_points t0) = None <->
                     dict_get user_id (user_completed_quests t0) = None)
    by (split; [constructor|done]).
  destruct (count_submissions_ok rows quest_points quest_titles Hqp
              submissions t0 Ht0 Hnull) as [t Ec].
  rewrite Ec. cbn [ebind].
  destruct (count_submissions_spec rows quest_points quest_titles Hqp
              submissions t0 t Ec Ht0) as (_ & _ & Hids & _).
  destruct (user_ids t) as [|id0 ids0] eqn:Eids; [by eexists|].
  rewrite <- Eids in *. clear Eids id0 ids0.
  assert (Hall : Forall (fun id => exists o,
                    fetch_user supabase_client id = Ok o) (user_ids t)).
  { rewrite Forall_forall in Hprof. apply Forall_forall. intros id Hid.
    apply Hids in Hid as [Hid|Hid]; [by apply elem_of_nil in Hid|].
    apply list_elem_of_fmap in Hid as (s & -> & Hs). by apply Hprof. }
  apply fetch_batches_ok in Hall as [users_data Ef]. rewrite Ef. cbn [ebind].
  destruct (take 10 _); by eexists.
Qed.

(** What stands behind a board *)
Lemma leaderboard_board top_users :
  leaderboard supabase_client select_quest_points = Board top_users ->
  exists submissions rows entries,
    fetch_approved_submissions supabase_client = Ok submissions
    /\ select_quest_points = Ok rows
    /\ no_null rows submissions
    /\ top_users = take 10 (sort_by entry_points Zgt entries)
    /\ top_users <> []
    /\ NoDup (map entry_user_id entries)
    /\ forall e, e ∈ entries <-> entry_of rows submissions e.
Proof.
  unfold leaderboard.
  destruct (leaderboard_body supabase_client select_quest_points) as [r|e] eqn:E;
    [|done].
  intros ->.
  destruct (leaderboard_body_ok _ E) as (submissions & Es & Hnil & Hcons).
  destruct (decide (submissions = [])) as [Hs|Hs]; [by specialize (Hnil Hs)|].
  destruct (Hcons Hs) as (rows & entries & Eq & Hnull & _ & Hnd & Hent & Hr).
  exists submissions, rows, entries.
  destruct (take 10 (sort_by entry_points Zgt entries)) as [|e0 top0]; [done|].
  injection Hr as ->. done.
Qed.

(** X25 -- What a line of the leaderboard says. Every user on the board
    has a profile and at least one approved submission for a quest that has
    a row; the points shown are the sum of the points of the quests of those
    submissions, none of them null, and the number of quests shown is the
    number of those submissions (a quest submitted twice counts twice). The
    name shown is the one made from the profile. *)
Theorem leaderboard_totals top_users :
  leaderboard supabase_client select_quest_points = Board top_users ->
  exists submissions rows,
    fetch_approved_submissions supabase_client = Ok submissions
    /\ select_quest_points = Ok rows
    /\ Forall
         (fun e =>
            let mine := counted rows (entry_user_id e) submissions in
            mine <> []
            /\ Forall (fun s => exists points,
                         points_of rows (submission_quest_id s) =
                         Some (Some points)) mine
            /\ entry_points e = total rows mine
            /\ entry_quests_completed e = length mine
            /\ exists user,
                 fetch_user supabase_client (entry_user_id e) = Ok (Some user)
                 /\ entry_username e = display_name (entry_user_id e) user)
         top_users.
Proof.
  intros H.
  destruct (leaderboard_board _ H)
    as (submissions & rows & entries & Es & Eq & Hnull & -> & _ & _ & Hent).
  exists submissions, rows. split_and!; [done|done|].
  apply Forall_forall. intros e He.
  assert (Hin : e ∈ entries).
  { rewrite <- (sort_by_perm entry_points Zgt entries).
    rewrite <- (take_drop 10 (sort_by entry_points Zgt entries)).
    apply elem_of_app. by left. }
  apply Hent in Hin as (user & Hmine & Hu & Hname & Hpts & Hq).
  cbn zeta. split_and!; [done| |done|done|by exists user].
  apply Forall_forall. intros s Hs.
  apply counted_user in Hs as (Hs & _ & [p Hp]).
  rewrite Forall_forall in Hnull. specialize (Hnull s Hs).
  destruct p as [p|]; [by exists p|done].
Qed.

(** X26 -- The board is the top ten. It has between one and ten lines, no
    user twice, in non-increasing order of points; and it leaves out no one
    who should be on it: a user with a profile and a submission that counts
    is on the board, unless the board is full and everyone on it has at
    least as many points. *)
Theorem leaderboard_top_ten top_users :
  leaderboard supabase_client select_quest_points = Board top_users ->
  (1 <= length top_users <= 10)%nat
  /\ NoDup (map entry_user_id top_users)
  /\ StronglySorted (fun a b => entry_points b <= entry_points a) top_users
  /\ forall submissions rows user_id user,
       fetch_approved_submissions supabase_client = Ok submissions ->
       select_quest_points = Ok rows ->
       counted rows user_id submissions <> [] ->
       fetch_user supabase_client user_id = Ok (Some user) ->
       user_id ∈ map entry_user_id top_users
       \/ (length top_users = 10%nat
           /\ Forall (fun e => total rows (counted rows user_id submissions)
                               <= entry_points e) top_users).
Proof.
  intros H.
  destruct (leaderboard_board _ H)
    as (submissions & rows & entries & Es & Eq & Hnull & -> & Hne & Hnd & Hent).
  set (sorted_users := sort_by entry_points Zgt entries) in *.
  pose proof (sort_by_points_sorted entries) as Hsorted.
  fold sorted_users in Hsorted.
  split; [|split; [|split]].
  - rewrite length_take.
    assert (length sorted_users <> 0%nat); [|lia].
    intros H0. apply length_zero_iff_nil in H0. rewrite H0 in Hne. done.
  - apply (sublist_NoDup _ (map entry_user_id sorted_users)).
    + unfold sorted_users. by rewrite sort_by_perm.
    + apply fmap_sublist, sublist_take.
  - by apply StronglySorted_take.
  - intros submissions' rows' user_id user Es' Eq' Hmine Hu.
    assert (submissions' = submissions) as -> by congruence.
    assert (rows' = rows) as -> by congruence.
    set (e := {| entry_user_id := user_id;
                 entry_username := display_name user_id user;
                 entry_points := total rows (counted rows user_id submissions);
                 entry_quests_completed :=
                   length (counted rows user_id submissions) |}).
    assert (Hin : e ∈ sorted_users).
    { unfold sorted_users. rewrite sort_by_perm. apply Hent. by exists user. }
    rewrite <- (take_drop 10 sorted_users) in Hin.
    apply elem_of_app in Hin as [Hin|Hin].
    + left. apply list_elem_of_fmap. by exists e.
    + right. split.
      * rewrite length_take. destruct (decide (length sorted_users <= 10)%nat);
          [|lia].
        rewrite drop_ge in Hin by done. by apply elem_of_nil in Hin.
      * apply Forall_forall. intros e' He'.
        apply (StronglySorted_take_drop _ _ 10 e' e Hsorted He' Hin).
Qed.

(** X27 -- When the command answers with its error message. It does so
    exactly when the query for the approved submissions fails, or there are
    approved submissions and the query for the quests fails, or one of the
    submissions is for a quest whose points are null, or the profile of one
    of the submitting users cannot be fetched. *)
Theorem leaderboard_error :
  leaderboard supabase_client select_quest_points = FetchError <->
  (exists e, fetch_approved_submissions supabase_client = Raise e)
  \/ exists submissions,
       fetch_approved_submissions supabase_client = Ok submissions
       /\ submissions <> []
       /\ ((exists e, select_quest_points = Raise e)
           \/ exists rows,
                select_quest_points = Ok rows
                /\ (Exists (fun s => points_of rows (submission_quest_id s)
                                     = Some None) submissions
                    \/ Exists (fun s => exists e,
                                 fetch_user supabase_client
                                   (submission_user_id s) = Raise e)
                         submissions)).
Proof.
  unfold leaderboard.
  destruct (leaderboard_body supabase_client select_quest_points) as [r|e] eqn:E.
  - destruct (leaderboard_body_ok _ E) as (submissions & Es & Hnil & Hcons).
    split.
    + intros ->. destruct (decide (submissions = [])) as [Hs|Hs];
        [by specialize (Hnil Hs)|].
      destruct (Hcons Hs) as (rows & entries & _ & _ & _ & _ & _ & Hr).
      by destruct (take 10 _).
    + intros [[e He]|(submissions' & Es' & Hne & Hcase)]; [congruence|].
      assert (submissions' = submissions) as -> by congruence.
      destruct (Hcons Hne) as (rows & entries & Eq & Hnull & Hprof & _).
      destruct Hcase as [[e He]|(rows' & Eq' & [Hex|Hex])]; [congruence| |].
      * assert (rows' = rows) as -> by congruence.
        apply Exists_exists in Hex as (s & Hs & Hp).
        rewrite Forall_forall in Hnull. by destruct (Hnull s Hs).
      * apply Exists_exists in Hex as (s & Hs & e & He).
        rewrite Forall_forall in Hprof. destruct (Hprof s Hs). congruence.
  - split; [intros _|done].
    destruct (fetch_approved_submissions supabase_client) as [submissions|e0]
      eqn:Es; [|by eauto].
    right. exists submissions. split; [done|].
    assert (Hne : submissions <> []).
    { intros ->. unfold leaderboard_body in E. rewrite Es in E. done. }
    split; [done|].
    destruct select_quest_points as [rows|e1] eqn:Eq; [|by eauto].
    right. exists rows. split; [done|].
    destruct (decide (Exists (fun s => points_of rows (submission_quest_id s)
                                       = Some None) submissions)) as [|Hnull];
      [by left|right].
    apply not_Exists_Forall in Hnull; [|intros s; apply _].
    destruct (profiles_ok_or_not submissions) as [Hprof|Hex]; [exfalso|done].
    destruct (leaderboard_body_total submissions rows Es Hne) as [r Hr];
      [done|done|done|].
    rewrite Eq in Hr. congruence.
Qed.

(** X28 -- When the command says that there are no users yet. Apart from
    the error message that is the answer exactly when there is no approved
    submission, or no user has both a profile and a submission that
    counts. *)
Theorem leaderboard_no_users :
  leaderboard supabase_client select_quest_points = NoUsers <->
  leaderboard supabase_client select_quest_points <> FetchError
  /\ exists submissions,
       fetch_approved_submissions supabase_client = Ok submissions
       /\ (submissions = []
           \/ exists rows,
                select_quest_points = Ok rows
                /\ forall user_id,
                     counted rows user_id submissions <> [] ->
                     fetch_user supabase_client user_id = Ok None).
Proof.
  unfold leaderboard.
  destruct (leaderboard_body supabase_client select_quest_points) as [r|e] eqn:E.
  2:{ split; [done|]. by intros [? _]. }
  destruct (leaderboard_body_ok _ E) as (submissions & Es & Hnil & Hcons).
  destruct (decide (submissions = [])) as [Hs|Hs].
  { rewrite (Hnil Hs). split; [|done]. intros _. split; [done|]. eauto. }
  destruct (Hcons Hs) as (rows & entries & Eq & Hnull & Hprof & Hnd & Hent & Hr).
  split.
  - intros ->. split; [done|]. exists submissions. split; [done|]. right.
    exists rows. split; [done|]. intros user_id Hmine.
    destruct (counted rows user_id submissions) as [|s l] eqn:Ecnt; [done|].
    destruct (counted_user rows user_id submissions s) as (Hin & Hus & _).
    { rewrite Ecnt. apply elem_of_cons. by left. }
    rewrite Forall_forall in Hprof. destruct (Hprof s Hin) as [o Ho].
    rewrite Hus in Ho. destruct o as [user|]; [|done]. exfalso.
    set (e := {| entry_user_id := user_id;
                 entry_username := display_name user_id user;
                 entry_points := total rows (counted rows user_id submissions);
                 entry_quests_completed :=
                   length (counted rows user_id submissions) |}).
    assert (He : e ∈ entries).
    { apply Hent. exists user. cbn. by rewrite Ecnt. }
    rewrite <- (sort_by_perm entry_points Zgt entries) in He.
    destruct (sort_by entry_points Zgt entries) as [|e0 l0];
      [by apply elem_of_nil in He|done].
  - intros (_ & submissions' & Es' & [->|(rows' & Eq' & Hno)]); [congruence|].
    assert (submissions' = submissions) as -> by congruence.
    assert (rows' = rows) as -> by congruence.
    destruct (sort_by entry_points Zgt entries) as [|e0 l0] eqn:Esort; [done|].
    exfalso.
    assert (He : e0 ∈ entries).
    { rewrite <- (sort_by_perm entry_points Zgt entries), Esort.
      apply elem_of_cons. by left. }
    apply Hent in He as (user & Hmine & Hu & _).
    rewrite (Hno _ Hmine) in Hu. done.
Qed.

End Board.


Lemma leaderboard_totals_witness :
  exists top_users,
    leaderboard (Some SampleDb.working) (Ok SampleDb.quest_rows) = Board top_users
    /\ map (fun e => (entry_username e, entry_points e, entry_quests_completed e))
         top_users = [(u "ann", 411, 2%nat); (u "Bo Li", 111, 1%nat)]
    /\ Forall
         (fun e =>
            entry_points e =
            total SampleDb.quest_rows
              (counted SampleDb.quest_rows (entry_user_id e) SampleDb.submissions))
         top_users.
Proof.
  eexists. split; [vm_compute; reflexivity|]. split; [reflexivity|].
  destruct (leaderboard_totals (Some SampleDb.working) (Ok SampleDb.quest_rows) _
              eq_refl) as (submissions & rows & Es & Eq & Hall).
  injection Es as <-. injection Eq as <-.
  eapply Forall_impl; [exact Hall|]. intros e He. apply He.
Defined.

Lemma leaderboard_top_ten_witness :
  exists top_users,
    leaderboard (Some SampleDb.working) (Ok SampleDb.quest_rows) = Board top_users
    /\ map entry_user_id top_users = [1; 2]
    /\ NoDup (map entry_user_id top_users)
    /\ StronglySorted (fun a b => entry_points b <= entry_points a) top_users.
Proof.
  eexists. split; [vm_compute; reflexivity|]. split; [reflexivity|].
  destruct (leaderboard_top_ten (Some SampleDb.working) (Ok SampleDb.quest_rows) _
              eq_refl) as (_ & Hnd & Hs & _).
  split; [exact Hnd|exact Hs].
Defined.

Lemma leaderboard_error_witness :
  leaderboard (Some SampleDb.working) (Ok SampleDb.quest_rows_null) = FetchError
  /\ leaderboard (Some SampleDb.working) (Raise (OtherException "APIError"))
     = FetchError.
Proof.
  split.
  - apply (leaderboard_error (Some SampleDb.working)). right.
    exists SampleDb.submissions. split_and!; [reflexivity|done|].
    right. exists SampleDb.quest_rows_null. split; [reflexivity|]. left.
    apply Exists_cons_tl, Exists_cons_hd. reflexivity.
  - apply (leaderboard_error (Some SampleDb.working)). right.
    exists SampleDb.submissions. split_and!; [reflexivity|done|].
    left. by eexists.
Defined.

Lemma leaderboard_no_users_witness :
  leaderboard (Some SampleDb.no_profiles) (Ok SampleDb.quest_rows) = NoUsers.
Proof.
  apply (leaderboard_no_users (Some SampleDb.no_profiles)). split.
  - vm_compute. discriminate.
  - exists SampleDb.submissions. split; [reflexivity|]. right.
    exists SampleDb.quest_rows. split; [reflexivity|]. reflexivity.
Defined.

End LeaderboardProofs.
